(** * Replay worker and executor-input compiler of the scheduler service

    A shallow embedding of [core/scheduler/service/replay_worker.go] and of
    the plugin service's [compileConfig]/[compileAsset], with the properties
    the specification states about them.

    Go maps are [gmap]s; [time.Time] is a record compared structurally (the
    way Go compares map keys); calls into the scheduler and the repository
    are threaded through an explicit world. *)

From Stdlib Require Import ZArith String Ascii List Bool Lia DecimalString Sorted.
From stdpp Require Import base decidable countable gmap strings list fin_maps.

Open Scope string_scope.
Open Scope Z_scope.

(* ===================================================================== *)
(** ** time.Time                                                          *)
(* ===================================================================== *)

Module GoTime.

(** A [*time.Location]. [time.Time.UTC] stores the UTC location; any other
    location, also one whose offset is zero, is a different pointer. *)
Inductive Location :=
| UTCLoc
| FixedZone (offset : Z).

(** An instant (seconds and nanoseconds since the Unix epoch) shown in a
    location.  Two [Time]s are the same map key exactly when all three
    components agree. *)
Record Time := mkTime { unix : Z; nsec : Z; loc : Location }.

#[export] Instance Location_eq_dec : EqDecision Location.
Proof. solve_decision. Defined.

#[export] Instance Time_eq_dec : EqDecision Time.
Proof. solve_decision. Defined.

Definition Time_to_tuple (t : Time) : Z * Z * option Z :=
  (unix t, nsec t, match loc t with UTCLoc => None | FixedZone o => Some o end).

Definition Time_of_tuple (p : Z * Z * option Z) : Time :=
  let '(s, n, l) := p in
  mkTime s n (match l with None => UTCLoc | Some o => FixedZone o end).

#[export] Instance Time_countable : Countable Time.
Proof.
  apply (inj_countable' Time_to_tuple Time_of_tuple).
  intros [s n []]; reflexivity.
Defined.

(** [t.UTC()]: the same instant, location set to UTC. *)
Definition UTC (t : Time) : Time := mkTime (unix t) (nsec t) UTCLoc.

(** [t.Before(u)] compares instants only. *)
Definition Before (t u : Time) : bool :=
  (unix t <? unix u) || ((unix t =? unix u) && (nsec t <? nsec u)).

(** [t.Equal(u)]: same instant, whatever the locations. *)
Definition Equal (t u : Time) : bool :=
  (unix t =? unix u) && (nsec t =? nsec u).

(** *** Formatting and parsing with layout [time.RFC3339]

    The layout is [2006-01-02T15:04:05Z07:00]: whole seconds, and the zone
    as [Z] or as a signed offset in hours and minutes. *)

Definition zoneOffset (l : Location) : Z :=
  match l with
  | UTCLoc => 0
  | FixedZone offset => offset
  end.

(** Days since 1970-01-01 to year, month, day of the proleptic Gregorian
    calendar, and back. *)
Definition civilFromDays (z : Z) : Z * Z * Z :=
  let z := z + 719468 in
  let era := z / 146097 in
  let doe := z - era * 146097 in
  let yoe := (doe - doe / 1460 + doe / 36524 - doe / 146096) / 365 in
  let y := yoe + era * 400 in
  let doy := doe - (365 * yoe + yoe / 4 - yoe / 100) in
  let mp := (5 * doy + 2) / 153 in
  let d := doy - (153 * mp + 2) / 5 + 1 in
  let m := if mp <? 10 then mp + 3 else mp - 9 in
  (if m <=? 2 then y + 1 else y, m, d).

Definition daysFromCivil (y m d : Z) : Z :=
  let y := if m <=? 2 then y - 1 else y in
  let era := y / 400 in
  let yoe := y - era * 400 in
  let doy := (153 * (if 2 <? m then m - 3 else m + 9) + 2) / 5 + d - 1 in
  let doe := yoe * 365 + yoe / 4 - yoe / 100 + doy in
  era * 146097 + doe - 719468.

Definition isLeap (y : Z) : bool :=
  (y mod 4 =? 0) && (negb (y mod 100 =? 0) || (y mod 400 =? 0)).

Definition daysIn (m y : Z) : Z :=
  if m =? 2 then (if isLeap y then 29 else 28)
  else if (m =? 4) || (m =? 6) || (m =? 9) || (m =? 11) then 30
  else 31.

Definition digit (n : Z) : ascii := ascii_of_N (Z.to_N (48 + n)).

Definition digitValue (c : ascii) : option Z :=
  let n := Z.of_N (N_of_ascii c) in
  if (48 <=? n) && (n <=? 57) then Some (n - 48) else None.

Definition pad2 (n : Z) : list ascii := [digit (n / 10); digit (n mod 10)].

Definition pad4 (n : Z) : list ascii :=
  [digit (n / 1000); digit (n / 100 mod 10); digit (n / 10 mod 10); digit (n mod 10)].

(** [appendInt(b, year, 4)]: a sign for a negative year, then at least
    four digits. *)
Definition formatYear (y : Z) : list ascii :=
  (if y <? 0 then ["-"%char] else [])
    ++ (if Z.abs y <=? 9999 then pad4 (Z.abs y)
        else list_ascii_of_string
               (NilZero.string_of_uint (N.to_uint (Z.to_N (Z.abs y))))).

(** [appendInt(b, n, 2)] for a number that is not negative: at least two
    digits. *)
Definition formatTwo (n : Z) : list ascii :=
  if n <=? 99 then pad2 n
  else list_ascii_of_string (NilZero.string_of_uint (N.to_uint (Z.to_N n))).

(** The zone of the layout, [Z07:00]: [Z] for offset zero, else the sign,
    the hours and the minutes of the offset; its seconds are dropped. *)
Definition formatZone (offset : Z) : list ascii :=
  if offset =? 0 then ["Z"%char]
  else
    let zone := Z.quot offset 60 in
    (if zone <? 0 then "-"%char else "+"%char)
      :: formatTwo (Z.abs zone / 60) ++ ":"%char :: pad2 (Z.abs zone mod 60).

(** [t.Format(time.RFC3339)].  The seconds since the epoch are an unbounded
    integer here; Go's are 64 bits wide, which the years a timestamp can
    name are far from. *)
Definition FormatRFC3339 (t : Time) : string :=
  let offset := zoneOffset (loc t) in
  let abs := unix t + offset in
  let '(y, m, d) := civilFromDays (abs / 86400) in
  let secs := abs mod 86400 in
  string_of_list_ascii
    (formatYear y
       ++ "-"%char :: pad2 m ++ "-"%char :: pad2 d
       ++ "T"%char :: pad2 (secs / 3600)
       ++ ":"%char :: pad2 (secs mod 3600 / 60)
       ++ ":"%char :: pad2 (secs mod 60)
       ++ formatZone offset).

Definition number2 (a b : ascii) : option Z :=
  match digitValue a, digitValue b with
  | Some x, Some y => Some (10 * x + y)
  | _, _ => None
  end.

Definition number4 (a b c d : ascii) : option Z :=
  match number2 a b, number2 c d with
  | Some x, Some y => Some (100 * x + y)
  | _, _ => None
  end.

(** [getnum(s, fixed)]: the number of the first two characters, or of the
    first one alone when the second is no digit and the field is not of
    fixed width. *)
Definition getnum (s : list ascii) (fixed : bool) : option (Z * list ascii) :=
  match s with
  | a :: rest =>
      match digitValue a with
      | None => None
      | Some x =>
          match rest with
          | b :: rest' =>
              match digitValue b with
              | Some y => Some (10 * x + y, rest')
              | None => if fixed then None else Some (x, rest)
              end
          | [] => if fixed then None else Some (x, [])
          end
      end
  | [] => None
  end.

Definition commaOrPeriod (c : ascii) : bool :=
  Ascii.eqb c "." || Ascii.eqb c ",".

(** The digits a text begins with, and what follows them. *)
Fixpoint leadingDigits (s : list ascii) : list Z * list ascii :=
  match s with
  | c :: rest =>
      match digitValue c with
      | Some x => let '(ds, rest') := leadingDigits rest in (x :: ds, rest')
      | None => ([], s)
      end
  | [] => ([], [])
  end.

(** [parseNanoseconds]: the first nine digits of the fraction, as
    nanoseconds. *)
Definition nanoseconds (ds : list Z) : Z :=
  let kept := firstn 9 ds in
  fold_left (fun acc x => 10 * acc + x) kept 0 * 10 ^ Z.of_nat (9 - length kept).

(** A fractional second after the seconds field: parsing accepts one, a
    comma or a period followed by digits, although the layout has none. *)
Definition parseFraction (s : list ascii) : Z * list ascii :=
  match s with
  | sep :: rest =>
      if commaOrPeriod sep
      then match leadingDigits rest with
           | ([], _) => (0, s)
           | (ds, rest') => (nanoseconds ds, rest')
           end
      else (0, s)
  | [] => (0, s)
  end.

(** The zone of the value: [Z], or a signed offset of hours and minutes;
    the range test lets 24 hours and 60 minutes pass.  (A parsed offset
    that is the local zone's gets the local location in Go; the local zone
    is left out here.) *)
Definition parseZone (zone : list ascii) : option Location :=
  match zone with
  | ["Z"%char] => Some UTCLoc
  | [sign; h1; h2; ":"%char; m1; m2] =>
      match number2 h1 h2, number2 m1 m2 with
      | Some hh, Some mm =>
          if (hh <=? 24) && (mm <=? 60) then
            if Ascii.eqb sign "+" then Some (FixedZone ((hh * 60 + mm) * 60))
            else if Ascii.eqb sign "-" then Some (FixedZone (- ((hh * 60 + mm) * 60)))
            else None
          else None
      | _, _ => None
      end
  | _ => None
  end.

(** The time of day of the value, [15:04:05] with an optional fraction,
    and what follows it. *)
Definition parseClock (s : list ascii) : option (Z * Z * Z * Z * list ascii) :=
  match getnum s false with
  | Some (h, ":"%char :: rest) =>
      match getnum rest true with
      | Some (mi, ":"%char :: rest') =>
          match getnum rest' true with
          | Some (sec, rest'') =>
              if (h <=? 23) && (mi <=? 59) && (sec <=? 59)
              then let '(ns, zone) := parseFraction rest'' in Some (h, mi, sec, ns, zone)
              else None
          | None => None
          end
      | _ => None
      end
  | _ => None
  end.

(** [time.Parse(time.RFC3339, s)]: the fields are range-checked, the day
    against its month, and the result carries the parsed zone. *)
Definition ParseRFC3339 (s : string) : option Time :=
  match list_ascii_of_string s with
  | y1 :: y2 :: y3 :: y4 :: "-"%char :: mo1 :: mo2 :: "-"%char :: d1 :: d2
      :: "T"%char :: clock =>
      match number4 y1 y2 y3 y4, number2 mo1 mo2, number2 d1 d2, parseClock clock with
      | Some y, Some mo, Some d, Some (h, mi, sec, ns, zone) =>
          match parseZone zone with
          | Some l =>
              if (1 <=? mo) && (mo <=? 12) && (1 <=? d) && (d <=? daysIn mo y)
              then Some (mkTime (daysFromCivil y mo d * 86400 + h * 3600 + mi * 60 + sec
                                 - zoneOffset l) ns l)
              else None
          | None => None
          end
      | _, _, _, _ => None
      end
  | _ => None
  end.

(** [t.Truncate(time.Second)] for the instant: the sub-second part
    dropped. *)
Definition truncateToSecond (t : Time) : Time := mkTime (unix t) 0 (loc t).

End GoTime.
Export GoTime.

(* ===================================================================== *)
(** ** Run states and run lists (package scheduler)                       *)
(* ===================================================================== *)

(** Modelled from the spec: the [scheduler.State] constants (package
    [core/scheduler], source not available); the spec lists the run states
    as pending, inProgress, success, failed and missing. *)
Inductive State :=
| StatePending
| StateInProgress
| StateSuccess
| StateFailed
| StateMissing.

#[export] Instance State_eq_dec : EqDecision State.
Proof. solve_decision. Defined.

(** Modelled from the spec: the [scheduler.ReplayState] constants (package
    [core/scheduler]); the worker names [ReplayStateCreated],
    [ReplayStatePartialReplayed], [ReplayStateReplayed], [ReplayStateSuccess]
    and [ReplayStateFailed], and the spec lists no other state. *)
Inductive ReplayState :=
| ReplayStateCreated
| ReplayStatePartialReplayed
| ReplayStateReplayed
| ReplayStateSuccess
| ReplayStateFailed.

#[export] Instance ReplayState_eq_dec : EqDecision ReplayState.
Proof. solve_decision. Defined.

Definition terminal (s : ReplayState) : bool :=
  match s with
  | ReplayStateSuccess | ReplayStateFailed => true
  | _ => false
  end.

(** Modelled from the spec: [scheduler.JobRunStatus] (package
    [core/scheduler]), with the two fields the worker reads and writes; the
    logical time is computed from the cron spec by [GetLogicalTime]. *)
Record JobRunStatus := mkRun { ScheduledAt : Time; RunState : State }.

#[export] Instance JobRunStatus_eq_dec : EqDecision JobRunStatus.
Proof. solve_decision. Defined.

Module JobRunStatusList.

(** Modelled from the spec: [JobRunStatusList.ToRunStatusMap] is declared
    in [core/scheduler]; the spec keys the observed states by
    [scheduledAt.toUTC()].  Later entries overwrite earlier ones, as a Go
    map assignment in a range loop does. *)
Definition ToRunStatusMap (runs : list JobRunStatus) : gmap Time State :=
  foldl (fun m run => <[UTC (ScheduledAt run) := RunState run]> m) ∅ runs.

(** Modelled from the spec: [JobRunStatusList.MergeWithUpdatedRuns] is
    declared in [core/scheduler]; the updated states are merged over the
    stored runs, a run being looked up by its UTC schedule time (the spec's
    invariant on map keys).  Order and length of the vector are kept. *)
Definition MergeWithUpdatedRuns (runs : list JobRunStatus)
    (updatedRunMap : gmap Time State) : list JobRunStatus :=
  map (fun run =>
         match updatedRunMap !! UTC (ScheduledAt run) with
         | Some updatedStatus => mkRun (ScheduledAt run) updatedStatus
         | None => run
         end) runs.

(** Stable insertion into a list sorted by schedule time: the new run goes
    after every run that is not later than it. *)
Fixpoint insertByScheduledAt (run : JobRunStatus) (sorted : list JobRunStatus)
    : list JobRunStatus :=
  match sorted with
  | [] => [run]
  | r :: rest =>
      if Before (ScheduledAt run) (ScheduledAt r)
      then run :: r :: rest
      else r :: insertByScheduledAt run rest
  end.

Definition sortByScheduledAt (runs : list JobRunStatus) : list JobRunStatus :=
  foldl (fun sorted run => insertByScheduledAt run sorted) [] runs.

(** Modelled from the spec: [JobRunStatusList.GetSortedRunsByStates] is
    declared in [core/scheduler]; it keeps the runs whose state is one of
    [states], ordered by [scheduledAt] ascending, ties in insertion
    order. *)
Definition GetSortedRunsByStates (runs : list JobRunStatus)
    (states : list State) : list JobRunStatus :=
  sortByScheduledAt (filter (fun run => RunState run ∈ states) runs).

End JobRunStatusList.
Import JobRunStatusList.

(* ===================================================================== *)
(** ** identifyUpdatedRunStatus (replay_worker.go)                        *)
(* ===================================================================== *)

(** Reading a Go map yields the zero value for a missing key, which is
    neither [StateSuccess] nor [StateFailed]; the lookup is kept as an
    [option]. *)
Definition isSuccessOrFailed (s : option State) : bool :=
  match s with
  | Some StateSuccess | Some StateFailed => true
  | _ => false
  end.

(** One iteration of the loop over [existingJobRuns]. *)
Definition identifyStep (incomingRunStatusMap : gmap Time State)
    (updatedReplayMap : gmap Time State) (run : JobRunStatus) : gmap Time State :=
  if decide (RunState run ≠ StateInProgress) then updatedReplayMap
  else
    match incomingRunStatusMap !! UTC (ScheduledAt run) with
    | Some s =>
        if isSuccessOrFailed (Some s)
        then <[UTC (ScheduledAt run) := s]> updatedReplayMap
        else updatedReplayMap
    | None => updatedReplayMap
    end.

Definition identifyUpdatedRunStatus (existingJobRuns incomingJobRuns : list JobRunStatus)
    : gmap Time State :=
  let incomingRunStatusMap := ToRunStatusMap incomingJobRuns in
  foldl (identifyStep incomingRunStatusMap) ∅ existingJobRuns.

(* ===================================================================== *)
(** ** Errors (internal/errors)                                           *)
(* ===================================================================== *)

(** Modelled from the spec: the errors of package [internal/errors] (source
    not available).  The worker builds not-found errors, tests for them with
    [IsErrorType], and accumulates errors in a multi-error that is surfaced
    as one error when it is not empty; every other error comes from a
    collaborator. *)
Inductive error :=
| NewError (msg : string)
| NotFound (entity msg : string)
| MultiError (name : string) (errs : list string).

(** [errors.IsErrorType(err, errors.ErrNotFound)] *)
Definition IsErrNotFound (e : error) : bool :=
  match e with
  | NotFound _ _ => true
  | _ => false
  end.

(** Modelled from the spec: [err.Error()], the text persisted as the
    replay's message.  The spec fixes no wording for not-found and multi
    errors; a multi-error keeps the texts of the errors appended to it. *)
Definition Error (e : error) : string :=
  match e with
  | NewError msg => msg
  | NotFound entity msg => "not found for entity " ++ entity ++ ": " ++ msg
  | MultiError name errs =>
      name ++ ":" ++ String.concat ", " errs
  end.

(** Modelled from the spec: [me.ToErr()], nil when nothing was appended. *)
Definition ToErr (name : string) (errs : list string) : option error :=
  match errs with
  | [] => None
  | _ => Some (MultiError name errs)
  end.

Definition EntityReplay : string := "replay".
Definition prefixReplayed : string := "replayed".

(* ===================================================================== *)
(** ** Replay records                                                     *)
(* ===================================================================== *)

(** Modelled from the spec: the replay record of section 3, [config] with
    the fields the worker reads. *)
Record ReplayConfig := mkReplayConfig {
  StartTime : Time;
  EndTime : Time;
  Parallel : bool
}.

Record Tenant := mkTenant { ProjectName : string; NamespaceName : string }.

Record Replay := mkReplay {
  ID : string;
  JobName : string;
  ReplayTenant : Tenant;
  Config : ReplayConfig;
  ReplayStateOf : ReplayState;
  Message : string
}.

(** Modelled from the spec: [scheduler.ReplayWithRun], a replay with its
    [Runs] vector. *)
Record ReplayWithRun := mkReplayWithRun {
  ReplayOf : Replay;
  Runs : list JobRunStatus
}.

(** Modelled from the spec: [ReplayWithRun.GetFirstExecutableRun] is declared
    in [core/scheduler]; it is the first run whose state is pending, by
    [scheduledAt] ascending, nil when there is none. *)
Definition GetFirstExecutableRun (r : ReplayWithRun) : option JobRunStatus :=
  head (GetSortedRunsByStates (Runs r) [StatePending]).

(** Modelled from the spec: [ReplayWithRun.GetLastExecutableRun], the last
    such run in the same order. *)
Definition GetLastExecutableRun (r : ReplayWithRun) : option JobRunStatus :=
  last (GetSortedRunsByStates (Runs r) [StatePending]).

(** Modelled from the spec: [cron.ScheduleSpec], as far as the worker uses
    it: the logical time it assigns to a schedule point. *)
Record ScheduleSpec := mkScheduleSpec { logicalTimeOf : Time -> Time }.

Definition GetLogicalTime (run : JobRunStatus) (jobCron : ScheduleSpec) : Time :=
  logicalTimeOf jobCron (ScheduledAt run).

(* ===================================================================== *)
(** ** The world a tick runs in                                           *)
(* ===================================================================== *)

(** The repository, restricted to the row of the replay being processed:
    every write of the worker is addressed by that replay's id. *)
Record ReplayRow := mkRow {
  rowState : ReplayState;
  rowRuns : list JobRunStatus;
  rowMessage : string
}.

(** Calls made on the scheduler client. *)
Inductive SchedulerCall :=
| CallGetJobRuns (startDate endDate : Time)
| CallClear (logicalTime : Time)
| CallClearBatch (startTime endTime : Time)
| CallCreateRun (executionTime : Time) (dagRunIDPrefix : string).

(** Tags of a raised replay metric. *)
Record Metric := mkMetric {
  metricProject : string;
  metricNamespace : string;
  metricJob : string;
  metricStatus : ReplayState
}.

Record World := mkWorld {
  row : ReplayRow;
  calls : list SchedulerCall;
  metrics : list Metric
}.

(** What the collaborators of a [ReplayWorker] answer during one tick.  The
    scheduler's answers are a function of the request; a repository write
    either commits ([None]) or fails with an error. *)
Record ReplayWorker := mkReplayWorker {
  getJobCron : error + ScheduleSpec;
  GetJobRuns : Time -> Time -> error + list JobRunStatus;
  Clear : Time -> option error;
  ClearBatch : Time -> Time -> option error;
  CreateRun : Time -> string -> option error;
  UpdateReplayErr : option error;
  UpdateReplayStatusErr : option error;
  TimeString : Time -> string     (* a time printed with [%s] *)
}.

(** Outcome of a call: a value, a Go error, or a panic (nil dereference). *)
Inductive result (A : Type) :=
| Ok (a : A)
| Err (e : error)
| Panic.
Arguments Ok {A} a.
Arguments Err {A} e.
Arguments Panic {A}.

Definition M (A : Type) : Type := World -> result A * World.

Definition ret {A} (a : A) : M A := fun w => (Ok a, w).
Definition fail {A} (e : error) : M A := fun w => (Err e, w).
Definition panic {A} : M A := fun w => (Panic, w).

Definition bind {A B} (m : M A) (k : A -> M B) : M B :=
  fun w =>
    match m w with
    | (Ok a, w') => k a w'
    | (Err e, w') => (Err e, w')
    | (Panic, w') => (Panic, w')
    end.

Notation "'let*' x ':=' m 'in' k" := (bind m (fun x => k))
  (at level 10, x pattern, m at level 100, k at level 200, only parsing).

Definition ofOption {A} (o : option error) (a : A) : result A :=
  match o with
  | None => Ok a
  | Some e => Err e
  end.

Definition ofSum {A} (s : error + A) : result A :=
  match s with
  | inl e => Err e
  | inr a => Ok a
  end.

Definition logCall (c : SchedulerCall) (w : World) : World :=
  mkWorld (row w) (calls w ++ [c]) (metrics w).

Section Worker.

Variable w : ReplayWorker.

(** *** Scheduler client *)

Definition schedGetJobRuns (startDate endDate : Time) : M (list JobRunStatus) :=
  fun s => (ofSum (GetJobRuns w startDate endDate),
            logCall (CallGetJobRuns startDate endDate) s).

Definition schedClear (t : Time) : M unit :=
  fun s => (ofOption (Clear w t) tt, logCall (CallClear t) s).

Definition schedClearBatch (startTime endTime : Time) : M unit :=
  fun s => (ofOption (ClearBatch w startTime endTime) tt,
            logCall (CallClearBatch startTime endTime) s).

Definition schedCreateRun (t : Time) (pfx : string) : M unit :=
  fun s => (ofOption (CreateRun w t pfx) tt, logCall (CallCreateRun t pfx) s).

(** *** Replay repository *)

(** Modelled from the spec: the repository is an interface; [updateReplay]
    writes state, run vector and message together or not at all. *)
Definition repoUpdateReplay (state : ReplayState) (runs : list JobRunStatus)
    (message : string) : M unit :=
  fun s =>
    match UpdateReplayErr w with
    | None => (Ok tt, mkWorld (mkRow state runs message) (calls s) (metrics s))
    | Some e => (Err e, s)
    end.

(** Modelled from the spec: [updateReplayStatus(id, state, message)] writes
    the state and the message of the row. *)
Definition repoUpdateReplayStatus (state : ReplayState) (message : string) : M unit :=
  fun s =>
    match UpdateReplayStatusErr w with
    | None => (Ok tt, mkWorld (mkRow state (rowRuns (row s)) message) (calls s) (metrics s))
    | Some e => (Err e, s)
    end.

Definition raiseReplayMetric (t : Tenant) (jobName : string) (state : ReplayState) : M unit :=
  fun s => (Ok tt, mkWorld (row s) (calls s)
                     (metrics s ++ [mkMetric (ProjectName t) (NamespaceName t) jobName state])).

(** *** replay_worker.go *)

Definition fetchRuns (replayReq : ReplayWithRun) : M (list JobRunStatus) :=
  schedGetJobRuns (StartTime (Config (ReplayOf replayReq)))
                  (EndTime (Config (ReplayOf replayReq))).

Definition fetchRun (replayReq : ReplayWithRun) (scheduledAt : Time) : M JobRunStatus :=
  let* runs := schedGetJobRuns scheduledAt scheduledAt in
  match runs with
  | [] => fail (NotFound EntityReplay
                  ("run on job " ++ JobName (ReplayOf replayReq)
                   ++ " with scheduled_at " ++ TimeString w scheduledAt ++ " not exist"))
  | r :: _ => ret r
  end.

Definition updateReplayAsFailed (message : string) : M unit :=
  fun s =>
    match repoUpdateReplayStatus ReplayStateFailed message s with
    | (Ok _, s') => (Ok tt, s')
    | (_, s') => (Ok tt, s')      (* the error is only logged *)
    end.

Definition getMissingRuns (expectedRuns existingRuns : list JobRunStatus)
    : list JobRunStatus :=
  let existedRunsMap := ToRunStatusMap existingRuns in
  filter (fun run => existedRunsMap !! ScheduledAt run = None) expectedRuns.

(** The loop of [createMissingRuns]: every run is tried, the errors are
    collected. *)
Fixpoint createRuns (jobCron : ScheduleSpec) (runsToBeCreated : list JobRunStatus)
    (me : list string) : World -> list string * World :=
  fun s =>
    match runsToBeCreated with
    | [] => (me, s)
    | run :: rest =>
        match schedCreateRun (GetLogicalTime run jobCron) prefixReplayed s with
        | (Err e, s') => createRuns jobCron rest (me ++ [Error e]) s'
        | (_, s') => createRuns jobCron rest me s'
        end
    end.

Definition createMissingRuns (replayReq : ReplayWithRun) (jobCron : ScheduleSpec) : M unit :=
  let* existedRuns := fetchRuns replayReq in
  let runsToBeCreated := getMissingRuns (Runs replayReq) existedRuns in
  fun s =>
    let '(me, s') := createRuns jobCron runsToBeCreated [] s in
    (ofOption (ToErr "create runs" me) tt, s').

(** replayRunOnScheduler create run if targeted run is not exist, otherwise
    clear existing run on scheduler *)
Definition replayRunOnScheduler (replayReq : ReplayWithRun) (jobCron : ScheduleSpec)
    (runToReplay : JobRunStatus) : M unit :=
  fun s =>
    match fetchRun replayReq (ScheduledAt runToReplay) s with
    | (Err e, s') =>
        if IsErrNotFound e
        then schedCreateRun (GetLogicalTime runToReplay jobCron) prefixReplayed s'
        else (Err e, s')
    | (Ok _, s') => schedClear (GetLogicalTime runToReplay jobCron) s'
    | (Panic, s') => (Panic, s')
    end.

Definition processNewReplayRequestParallel (replayReq : ReplayWithRun)
    (jobCron : ScheduleSpec) : M (list JobRunStatus) :=
  match GetFirstExecutableRun replayReq, GetLastExecutableRun replayReq with
  | Some firstRun, Some lastRun =>
      let startLogicalTime := GetLogicalTime firstRun jobCron in
      let endLogicalTime := GetLogicalTime lastRun jobCron in
      let* _ := schedClearBatch startLogicalTime endLogicalTime in
      let* _ := createMissingRuns replayReq jobCron in
      ret (map (fun run => mkRun (ScheduledAt run) StateInProgress) (Runs replayReq))
  | _, _ => panic      (* GetLogicalTime on a nil run *)
  end.

Definition processNewReplayRequestSequential (replayReq : ReplayWithRun)
    (jobCron : ScheduleSpec) : M (list JobRunStatus) :=
  match GetFirstExecutableRun replayReq with
  | None => ret (Runs replayReq)
  | Some runToReplay =>
      let* _ := replayRunOnScheduler replayReq jobCron runToReplay in
      let updatedReplayMap : gmap Time State :=
        {[ ScheduledAt runToReplay := StateInProgress ]} in
      ret (MergeWithUpdatedRuns (Runs replayReq) updatedReplayMap)
  end.

Definition processNewReplayRequest (replayReq : ReplayWithRun)
    (jobCron : ScheduleSpec) : M unit :=
  let r := ReplayOf replayReq in
  let state :=
    if negb (Parallel (Config r)) && (1 <? Z.of_nat (length (Runs replayReq)))
    then ReplayStatePartialReplayed else ReplayStateReplayed in
  let* updatedRuns := (if Parallel (Config r)
                        then processNewReplayRequestParallel replayReq jobCron
                        else processNewReplayRequestSequential replayReq jobCron) in
  let* _ := repoUpdateReplay state updatedRuns "" in
  raiseReplayMetric (ReplayTenant r) (JobName r) state.

Definition processPartialReplayedRequest (replayReq : ReplayWithRun)
    (jobCron : ScheduleSpec) : M unit :=
  let r := ReplayOf replayReq in
  let* incomingRuns := fetchRuns replayReq in
  let updatedReplayMap := identifyUpdatedRunStatus (Runs replayReq) incomingRuns in
  let updatedRuns := MergeWithUpdatedRuns (Runs replayReq) updatedReplayMap in
  let replayedRuns := GetSortedRunsByStates updatedRuns [StateInProgress] in
  let toBeReplayedRuns := GetSortedRunsByStates updatedRuns [StatePending] in
  let* updatedRuns :=
    match replayedRuns, toBeReplayedRuns with
    | [], runToReplay :: _ =>
        let* _ := replayRunOnScheduler replayReq jobCron runToReplay in
        let updatedReplayMap :=
          <[ScheduledAt runToReplay := StateInProgress]> updatedReplayMap in
        ret (MergeWithUpdatedRuns updatedRuns updatedReplayMap)
    | _, _ => ret updatedRuns
    end in
  let pendingRuns := GetSortedRunsByStates updatedRuns [StatePending] in
  let replayState :=
    match pendingRuns with
    | [] => ReplayStateReplayed
    | _ => ReplayStatePartialReplayed
    end in
  let* _ := repoUpdateReplay replayState updatedRuns "" in
  raiseReplayMetric (ReplayTenant r) (JobName r) replayState.

(** [fmt.Sprintf("found %d failed runs.", n)] *)
Definition foundFailedRuns (n : nat) : string :=
  "found " ++ NilEmpty.string_of_uint (Nat.to_uint n) ++ " failed runs.".

Definition processReplayedRequest (replayReq : ReplayWithRun)
    (jobCron : ScheduleSpec) : M unit :=
  let r := ReplayOf replayReq in
  let* incomingRuns := fetchRuns replayReq in
  let updatedReplayMap := identifyUpdatedRunStatus (Runs replayReq) incomingRuns in
  let updatedRuns := MergeWithUpdatedRuns (Runs replayReq) updatedReplayMap in
  let inProgressRuns := GetSortedRunsByStates updatedRuns [StateInProgress] in
  let failedRuns := GetSortedRunsByStates updatedRuns [StateFailed] in
  let '(state, message) :=
    if (length inProgressRuns =? 0)%nat && (length failedRuns =? 0)%nat
    then (ReplayStateSuccess, "")
    else if (length inProgressRuns =? 0)%nat && (0 <? length failedRuns)%nat
    then (ReplayStateFailed, foundFailedRuns (length failedRuns))
    else (ReplayStateReplayed, "") in
  let* _ := repoUpdateReplay state updatedRuns message in
  raiseReplayMetric (ReplayTenant r) (JobName r) state.

(** The [switch] of [Process] on the replay's state; no case matches a
    terminal state, and [err] stays nil. *)
Definition dispatch (replayReq : ReplayWithRun) (jobCron : ScheduleSpec) : M unit :=
  match ReplayStateOf (ReplayOf replayReq) with
  | ReplayStateCreated => processNewReplayRequest replayReq jobCron
  | ReplayStatePartialReplayed => processPartialReplayedRequest replayReq jobCron
  | ReplayStateReplayed => processReplayedRequest replayReq jobCron
  | _ => ret tt
  end.

Definition markFailed (replayReq : ReplayWithRun) (err : error) : M unit :=
  let r := ReplayOf replayReq in
  let* _ := updateReplayAsFailed (Error err) in
  raiseReplayMetric (ReplayTenant r) (JobName r) ReplayStateFailed.

(** [Process]: one tick of the worker on one replay request. *)
Definition Process (replayReq : ReplayWithRun) : M unit :=
  match getJobCron w with
  | inl err => markFailed replayReq err
  | inr jobCron =>
      fun s =>
        match dispatch replayReq jobCron s with
        | (Err err, s') => markFailed replayReq err s'
        | other => other
        end
  end.

(** The error one tick runs into, if any: the cron lookup's or the
    dispatched step's. *)
Definition tickError (replayReq : ReplayWithRun) (s : World) : option error :=
  match getJobCron w with
  | inl err => Some err
  | inr jobCron =>
      match dispatch replayReq jobCron s with
      | (Err err, _) => Some err
      | _ => None
      end
  end.

End Worker.

(* ===================================================================== *)
(** ** Ticks on the persisted record                                      *)
(* ===================================================================== *)

(** The request the dispatcher hands to the worker for a stored row: the
    replay's identity and configuration with the row's state, message and
    run vector. *)
Definition requestOf (r : Replay) (stored : ReplayRow) : ReplayWithRun :=
  mkReplayWithRun
    (mkReplay (ID r) (JobName r) (ReplayTenant r) (Config r)
              (rowState stored) (rowMessage stored))
    (rowRuns stored).

Definition freshWorld (stored : ReplayRow) : World := mkWorld stored [] [].

(** The row left by one worker invocation on the stored row; [None] when
    the invocation panics. *)
Definition tick (w : ReplayWorker) (r : Replay) (stored : ReplayRow) : option ReplayRow :=
  match Process w (requestOf r stored) (freshWorld stored) with
  | (Panic, _) => None
  | (_, s) => Some (row s)
  end.

(* ===================================================================== *)
(** ** Template compilation (plugin service and executor-input compiler)  *)
(* ===================================================================== *)

Module Text.

(** [strings.ToLower] on single-byte characters: the letters A-Z are
    mapped to a-z, every other byte is kept. *)
Definition lowerChar (c : ascii) : ascii :=
  let n := N_of_ascii c in
  if ((65 <=? n) && (n <=? 90))%N then ascii_of_N (n + 32) else c.

Definition upperChar (c : ascii) : ascii :=
  let n := N_of_ascii c in
  if ((97 <=? n) && (n <=? 122))%N then ascii_of_N (n - 32) else c.

Definition ToLower (s : string) : string :=
  string_of_list_ascii (map lowerChar (list_ascii_of_string s)).

Definition ToUpper (s : string) : string :=
  string_of_list_ascii (map upperChar (list_ascii_of_string s)).

(** [strings.HasPrefix] *)
Definition HasPrefix (s pfx : string) : bool := String.prefix pfx s.

(** [strings.Contains]: [sub] occurs in [s]. *)
Fixpoint Contains (s sub : string) : bool :=
  String.prefix sub s ||
  match s with
  | EmptyString => false
  | String _ rest => Contains rest sub
  end.

End Text.

(** A template context, [map[string]any]: a key holds a text or a nested
    object of texts. *)
Inductive ctxValue :=
| CtxText (s : string)
| CtxObject (m : gmap string string).

Abbreviation Context := (gmap string ctxValue).

(** The template engine, an interface with two methods. *)
Record Engine := mkEngine {
  Compile : gmap string string -> Context -> error + gmap string string;
  CompileString : string -> Context -> error + string
}.

Definition projectConfigPrefix : string := "GLOBAL__".
Definition configKeyDstart : string := "DSTART".
Definition configKeyDend : string := "DEND".
Definition configKeyExecutionTime : string := "EXECUTION_TIME".
Definition configKeyDestination : string := "JOB_DESTINATION".

Record TenantWithDetails := mkTenantWithDetails {
  tenantOf : Tenant;
  GetConfigs : gmap string string;
  SecretsMap : gmap string string
}.

(** Modelled from the spec: [compiler.PrepareContext] and its builders are in
    [internal/compiler]; the project configs are made available as a
    sub-object [proj] with every key upcased and prefixed, the secrets as a
    sub-object [secret]. *)
Definition prefixedConfigs (pfx : string) (m : gmap string string) : gmap string string :=
  list_to_map (map (fun kv => (pfx ++ Text.ToUpper (fst kv), snd kv)) (map_to_list m)).

Definition tenantContext (tnnt : TenantWithDetails) : Context :=
  <["proj" := CtxObject (prefixedConfigs projectConfigPrefix (GetConfigs tnnt))]>
    (<["secret" := CtxObject (SecretsMap tnnt)]> ∅).

Module JobPluginService.

(** [plugin.Config] *)
Record PluginConfig := mkPluginConfig { Name : string; Value : string }.

(** One iteration of the loop of [compileConfig]: a failed compilation is
    logged and the template text is kept. *)
Definition compileEntry (engine : Engine) (tmplCtx : Context)
    (entry : string * string) : PluginConfig :=
  let '(key, val) := entry in
  let compiledConf :=
    match CompileString engine val tmplCtx with
    | inr compiled => compiled
    | inl _ => val
    end in
  mkPluginConfig key compiledConf.

(** [compileConfig].  Go ranges over the map in no fixed order; the list is
    built in the order of [map_to_list]. *)
Definition compileConfig (engine : Engine) (configs : gmap string string)
    (tnnt : TenantWithDetails) : list PluginConfig :=
  let tmplCtx := tenantContext tnnt in
  map (compileEntry engine tmplCtx) (map_to_list configs).

(** [window.Interval] *)
Record Interval := mkInterval { Start : Time; End : Time }.

(** The plugin's dependency mod, as far as [compileAsset] calls it:
    [GenerateDestination] on the task config and the assets (dry run),
    answering with a destination. *)
Record DependencyMod := mkDependencyMod {
  GenerateDestination : gmap string string -> gmap string string -> error + string
}.

Record Plugin := mkPlugin { DependencyModOf : option DependencyMod }.

Record Spec := mkSpec {
  TaskConfig : gmap string string;
  Asset : gmap string string
}.

(** The context [compileAsset] compiles the assets in: the system
    variables. *)
Definition assetContext (interval : Interval) (scheduledAt : Time)
    (jobDestination : string) : Context :=
  <[configKeyDstart := CtxText (FormatRFC3339 (Start interval))]>
  (<[configKeyDend := CtxText (FormatRFC3339 (End interval))]>
  (<[configKeyExecutionTime := CtxText (FormatRFC3339 scheduledAt)]>
  (<[configKeyDestination := CtxText jobDestination]> ∅))).

(** [compileAsset]; the window is given by its [GetInterval]. *)
Definition compileAsset (engine : Engine) (taskPlugin : Plugin) (spec : Spec)
    (GetInterval : Time -> error + Interval) (scheduledAt : Time)
    : error + gmap string string :=
  let destination :=
    match DependencyModOf taskPlugin with
    | Some dm => GenerateDestination dm (TaskConfig spec) (Asset spec)
    | None => inr ""
    end in
  match destination with
  | inl err => inl err
  | inr jobDestination =>
      match GetInterval scheduledAt with
      | inl err => inl err
      | inr interval =>
          match Compile engine (Asset spec)
                        (assetContext interval scheduledAt jobDestination) with
          | inl err => inl (NewError ("failed to compile templates: " ++ Error err))
          | inr templates => inr templates
          end
      end
  end.

End JobPluginService.

(** *** The executor-input compiler

    The source of [executor_input_compiler.go] is not available; its test
    [executor_input_compiler_test.go] is.  The definitions below follow the
    spec (section 4.E) and agree with the expectations of that test. *)
Module InputCompiler.

Import JobPluginService.

(** Modelled from the spec: the records of section 3, [RunConfig], [Job]
    and [ExecutorInput], with the fields the compiler reads and writes. *)
Inductive ExecutorType := ExecutorTask | ExecutorHook.

Record Executor := mkExecutor { ExecutorName : string; Type_ : ExecutorType }.

Record RunConfig := mkRunConfig { ExecutorOf : Executor; RunScheduledAt : Time }.

Record Hook := mkHook { HookName : string; HookConfig : gmap string string }.

Record Job := mkJob {
  JobID : string;
  Name : string;
  JobTenant : Tenant;
  Destination : string;
  TaskConfigOf : gmap string string;
  Hooks : list Hook;
  Assets : gmap string string
}.

Record ExecutorInput := mkExecutorInput {
  Configs : gmap string string;
  Secrets : gmap string string;
  Files : gmap string string
}.

Definition JobAttributionLabelsKey : string := "JOB_LABELS".
Definition contextSecret : string := "secret".

(** The text of a lookup in the [secret] context, [secret.<name>]. *)
Definition secretLookup : string := "secret.".

(** Modelled from the spec: the classification of a config entry in
    [compileConfigs].  An entry is a secret when its key begins with
    [secret] (case-insensitive) or its value comes from a [secret.*]
    lookup, that is, its template text holds [secret.]; the test routes
    [hook_secret: a.secret.val] and [secret.config: a.secret.val] to the
    secrets and [some.config: val] and [hook_some_config: val] to the plain
    configs. *)
Definition isSecretEntry (key val : string) : bool :=
  Text.HasPrefix (Text.ToLower key) contextSecret || Text.Contains val secretLookup.

(** Modelled from the spec: the partition of the active config map into
    plain configs and secrets. *)
Definition splitConfigWithSecrets (conf : gmap string string)
    : gmap string string * gmap string string :=
  (filter (fun kv => isSecretEntry (fst kv) (snd kv) = false) conf,
   filter (fun kv => isSecretEntry (fst kv) (snd kv) = true) conf).

(** Modelled from the spec: [compileConfigs] compiles each partition on its
    own, the plain configs first (the test expects no call for the secrets
    once the plain configs failed); a failure of either is surfaced. *)
Definition compileConfigs (engine : Engine) (configs : gmap string string)
    (templateCtx : Context) : error + (gmap string string * gmap string string) :=
  let '(conf, secretsConfig) := splitConfigWithSecrets configs in
  match Compile engine conf templateCtx with
  | inl err => inl err
  | inr compiledConf =>
      match Compile engine secretsConfig templateCtx with
      | inl err => inl err
      | inr compiledSecrets => inr (compiledConf, compiledSecrets)
      end
  end.

Definition isLabelChar (c : ascii) : bool :=
  let n := N_of_ascii c in
  (((97 <=? n) && (n <=? 122)) || ((48 <=? n) && (n <=? 57)) || (n =? 45))%N.

Definition maxLabelLength : nat := 63.

(** Modelled from the spec: the first steps of [sanitiseLabel], the name
    lowercased and every character outside [a-z0-9-] replaced by [-]. *)
Definition cleanLabel (key : string) : list ascii :=
  map (fun c => if isLabelChar c then c else "-"%char)
      (list_ascii_of_string (Text.ToLower key)).

(** Modelled from the spec: [sanitiseLabel] lowercases the name and
    replaces every character not in [a-z0-9-] by [-].  For a name longer
    than 63 characters the test (and scenario 4 of the spec) fixes the
    result: the job name of 68 characters becomes [__] followed by its last
    61 characters, not its first 63.  Names are read as strings of
    single-byte characters. *)
Definition sanitiseLabel (key : string) : string :=
  let cleaned := cleanLabel key in
  if (maxLabelLength <? length cleaned)%nat
  then string_of_list_ascii
         ("_"%char :: "_"%char :: drop (length cleaned - 61) cleaned)
  else string_of_list_ascii cleaned.

(** Modelled from the spec: the label set of a job,
    [{project, namespace, job_name, job_id}] with the job name sanitised. *)
Definition jobLabels (job : Job) : list string :=
  ["project=" ++ ProjectName (JobTenant job);
   "namespace=" ++ NamespaceName (JobTenant job);
   "job_name=" ++ sanitiseLabel (Name job);
   "job_id=" ++ JobID job].

(** Modelled from the spec: [JOB_LABELS] is the comma-joined label set (the
    test splits it at the commas and looks every label up; the order is
    that of a Go map, here the order of [jobLabels]). *)
Definition getJobLabelsString (job : Job) : string :=
  String.concat "," (jobLabels job).

(** Modelled from the spec: the system-defined variables, timestamps in
    RFC3339 (the test expects [executedAt.Format(time.RFC3339)] under
    [EXECUTION_TIME]). *)
Definition getSystemDefinedConfigs (job : Job) (interval : Interval)
    (executedAt : Time) : gmap string string :=
  <[configKeyDstart := FormatRFC3339 (Start interval)]>
  (<[configKeyDend := FormatRFC3339 (End interval)]>
  (<[configKeyExecutionTime := FormatRFC3339 executedAt]>
  (<[configKeyDestination := Destination job]> ∅))).

(** Modelled from the spec: merging config maps; an entry of a later map
    replaces an entry of an earlier one under the same key. *)
Definition MergeMaps (maps : list (gmap string string)) : gmap string string :=
  foldl (fun acc m => m ∪ acc) ∅ maps.

(** Modelled from the spec: the task context of section 4.C, the tenant
    context with the system-defined variables as inline keys. *)
Definition taskContextOf (tnnt : TenantWithDetails)
    (systemDefinedVars : gmap string string) : Context :=
  (CtxText <$> systemDefinedVars) ∪ tenantContext tnnt.

(** Modelled from the spec: the hook named by the executor; when the job
    has none, an error whose message contains [hook:<name>]. *)
Definition GetHook (job : Job) (name : string) : error + Hook :=
  match List.find (fun h => String.eqb (HookName h) name) (Hooks job) with
  | Some h => inr h
  | None => inl (NotFound "jobRun" ("hook:" ++ name))
  end.

(** Modelled from the spec: the collaborators of the input compiler, the
    tenant service, the window resolver, the asset compiler and the template
    engine. *)
Record Deps := mkDeps {
  GetDetails : Tenant -> error + TenantWithDetails;
  GetInterval : Job -> Time -> error + Interval;
  CompileJobRunAssets :
    Job -> gmap string string -> Interval -> Context -> error + gmap string string;
  engine : Engine
}.

(** Modelled from the spec: [InputCompiler.Compile], steps 1 to 9 of section
    4.E.  The task config is compiled for either executor type, before the
    hook is looked up (the test for a missing hook expects both task
    partitions compiled); for a hook the result carries the hook's compiled
    configs and no [JOB_LABELS] (the hook test compares the whole map). *)
Definition CompileInput (deps : Deps) (job : Job) (config : RunConfig)
    (executedAt : Time) : error + ExecutorInput :=
  match GetDetails deps (JobTenant job) with
  | inl err => inl err
  | inr tenantDetails =>
  match GetInterval deps job (RunScheduledAt config) with
  | inl err => inl err
  | inr interval =>
  let systemDefinedVars := getSystemDefinedConfigs job interval executedAt in
  let taskContext := taskContextOf tenantDetails systemDefinedVars in
  match CompileJobRunAssets deps job systemDefinedVars interval taskContext with
  | inl err => inl err
  | inr fileMap =>
  match compileConfigs (engine deps) (TaskConfigOf job) taskContext with
  | inl err => inl err
  | inr (confs, secretConfs) =>
  match Type_ (ExecutorOf config) with
  | ExecutorTask =>
      inr (mkExecutorInput
             (MergeMaps [confs; systemDefinedVars;
                         {[JobAttributionLabelsKey := getJobLabelsString job]}])
             secretConfs fileMap)
  | ExecutorHook =>
      match GetHook job (ExecutorName (ExecutorOf config)) with
      | inl err => inl err
      | inr hook =>
          match compileConfigs (engine deps) (HookConfig hook) taskContext with
          | inl err => inl err
          | inr (hookConfs, hookSecrets) =>
              inr (mkExecutorInput (MergeMaps [hookConfs; systemDefinedVars])
                                   hookSecrets fileMap)
          end
      end
  end end end end end.

(** The active config map of a run. *)
Definition activeConfig (job : Job) (config : RunConfig) : option (gmap string string) :=
  match Type_ (ExecutorOf config) with
  | ExecutorTask => Some (TaskConfigOf job)
  | ExecutorHook =>
      match GetHook job (ExecutorName (ExecutorOf config)) with
      | inr hook => Some (HookConfig hook)
      | inl _ => None
      end
  end.

(** The keys the compiler itself puts into [Configs]. *)
Definition systemKeys : gset string :=
  {[configKeyDstart; configKeyDend; configKeyExecutionTime; configKeyDestination;
    JobAttributionLabelsKey]}.

(** The keys the compiler itself puts into [Configs] for an executor of
    the given type: a hook gets no [JOB_LABELS]. *)
Definition ownKeys (t : ExecutorType) : gset string :=
  match t with
  | ExecutorTask => systemKeys
  | ExecutorHook =>
      {[configKeyDstart; configKeyDend; configKeyExecutionTime; configKeyDestination]}
  end.

(** A template engine that evaluates the entries of a map under their own
    keys. *)
Definition keepsKeys (e : Engine) : Prop :=
  forall (m m' : gmap string string) (ctx : Context),
    Compile e m ctx = inr m' -> dom m' ⊆ dom m.

(** [^[a-z0-9-]{1,63}$] *)
Definition matchesLabelPattern (s : string) : bool :=
  let cs := list_ascii_of_string s in
  (1 <=? length cs)%nat && (length cs <=? 63)%nat && forallb isLabelChar cs.

End InputCompiler.

(* ===================================================================== *)
(** ** The asset compiler of a job run                                    *)
(* ===================================================================== *)

Module JobRunAssetsCompiler.

Import JobPluginService.

Definition typeEnv : string := "env".

(** [plugin.JobRunSpecData] *)
Record JobRunSpecData := mkJobRunSpecData {
  DataName : string;
  DataValue : string;
  DataType : string
}.

(** [plugin.Asset] *)
Record PluginAsset := mkPluginAsset { AssetName : string; AssetValue : string }.

(** [plugin.CompileAssetsRequest] *)
Record CompileAssetsRequest := mkCompileAssetsRequest {
  ReqStartTime : Time;
  ReqEndTime : Time;
  ReqConfig : list PluginConfig;
  ReqAssets : list PluginAsset;
  ReqInstanceData : list JobRunSpecData
}.

(** The plugin's dependency mod, as far as the asset compiler calls it:
    [CompileAssets], answering with the assets of its response. *)
Record AssetsMod := mkAssetsMod {
  CompileAssets : CompileAssetsRequest -> error + list PluginAsset
}.

Record TaskPlugin := mkTaskPlugin { AssetsModOf : option AssetsMod }.

(** The plugin repository, an interface with one method. *)
Record PluginRepo := mkPluginRepo { GetByName : string -> error + TaskPlugin }.

(** [scheduler.Job], with the fields the asset compiler reads. *)
Record Job := mkJob {
  TaskName : string;
  TaskConfig : gmap string string;
  Assets : gmap string string
}.

(** [toJobRunSpecData].  Go ranges over the map in no fixed order; the
    lists of the three conversions are built in the order of
    [map_to_list]. *)
Definition toJobRunSpecData (mapping : gmap string string) : list JobRunSpecData :=
  map (fun '(name, value) => mkJobRunSpecData name value typeEnv) (map_to_list mapping).

Definition toPluginAssets (assets : gmap string string) : list PluginAsset :=
  map (fun '(name, val) => mkPluginAsset name val) (map_to_list assets).

Definition toPluginConfig (conf : gmap string string) : list PluginConfig :=
  map (fun '(name, val) => mkPluginConfig name val) (map_to_list conf).

(** Modelled from the spec: [plugin.Assets.ToMap] is declared in
    [sdk/plugin]; the response's assets are the input fileset, a later
    asset of a name replacing an earlier one as a Go map assignment does. *)
Definition ToMap (assets : list PluginAsset) : gmap string string :=
  foldl (fun m a => <[AssetName a := AssetValue a]> m) ∅ assets.

(** The request [CompileJobRunAssets] hands to the dependency mod. *)
Definition compileAssetsRequest (job : Job) (systemEnvVars : gmap string string)
    (interval : Interval) : CompileAssetsRequest :=
  mkCompileAssetsRequest (Start interval) (End interval)
    (toPluginConfig (TaskConfig job)) (toPluginAssets (Assets job))
    (toJobRunSpecData systemEnvVars).

Definition CompileJobRunAssets (pluginRepo : PluginRepo) (compiler : Engine)
    (job : Job) (systemEnvVars : gmap string string) (interval : Interval)
    (contextForTask : Context) : error + gmap string string :=
  match GetByName pluginRepo (TaskName job) with
  | inl err => inl err
  | inr taskPlugin =>
      let inputFiles :=
        match AssetsModOf taskPlugin with
        | Some dependencyMod =>
            match CompileAssets dependencyMod
                    (compileAssetsRequest job systemEnvVars interval) with
            | inl err => inl err
            | inr compiledAssets => inr (ToMap compiledAssets)
            end
        | None => inr (Assets job)
        end in
      match inputFiles with
      | inl err => inl err
      | inr files => Compile compiler files contextForTask
      end
  end.

End JobRunAssetsCompiler.

(* ===================================================================== *)
(** ** The plugin service: plugin info and upstreams                      *)
(* ===================================================================== *)

Module JobPluginMods.

Import JobPluginService.

Definition ErrUpstreamModNotFound : error := NewError "upstream mod not found for plugin".
Definition ErrYamlModNotExist : error := NewError "yaml mod not found for plugin".

(** The plugin's dependency mod as the service calls it:
    [GenerateDestination] on the task config and the assets (dry run), as
    [compileAsset] does; [GenerateDestination] on compiled configs alone,
    answering with the URN of its response, as the service's
    [GenerateDestination] does; and [GenerateDependencies] on the compiled
    configs, the compiled assets and the dry-run option, answering with the
    dependencies of its response. *)
Record UpstreamMod := mkUpstreamMod {
  destinationMod : DependencyMod;
  GenerateDestinationURN : list PluginConfig -> error + string;
  GenerateDependencies :
    list PluginConfig -> gmap string string -> bool -> error + list string
}.

(** The plugin's yaml mod: [PluginInfo] is a constant of the plugin. *)
Record YamlMod (Info : Type) := mkYamlMod { PluginInfo : Info }.
Arguments PluginInfo {Info}.
Arguments mkYamlMod {Info}.

Record TaskPlugin (Info : Type) := mkTaskPlugin {
  UpstreamModOf : option UpstreamMod;
  YamlModOf : option (YamlMod Info)
}.
Arguments UpstreamModOf {Info}.
Arguments YamlModOf {Info}.
Arguments mkTaskPlugin {Info}.

(** The plugin as [compileAsset] sees it. *)
Definition pluginOf {Info} (taskPlugin : TaskPlugin Info) : Plugin :=
  mkPlugin (destinationMod <$> UpstreamModOf taskPlugin).

(** [fmt.Errorf(prefix + ": %w", err)] *)
Definition wrap (pfx : string) (err : error) : error :=
  NewError (pfx ++ ": " ++ Error err).

(** [Info] *)
Definition Info {I} (GetByName : string -> error + TaskPlugin I) (taskName : string)
    : error + I :=
  match GetByName taskName with
  | inl err => inl err
  | inr taskPlugin =>
      match YamlModOf taskPlugin with
      | None => inl ErrYamlModNotExist
      | Some yamlMod => inr (PluginInfo yamlMod)
      end
  end.

(** [GenerateDestination] of the service. *)
Definition GenerateDestination {I} (GetByName : string -> error + TaskPlugin I)
    (engine : Engine) (tnnt : TenantWithDetails) (taskName : string)
    (taskConfig : gmap string string) : error + string :=
  match GetByName taskName with
  | inl err => inl err
  | inr taskPlugin =>
      match UpstreamModOf taskPlugin with
      | None => inl ErrUpstreamModNotFound
      | Some dependencyMod =>
          let compiledConfig := compileConfig engine taskConfig tnnt in
          match GenerateDestinationURN dependencyMod compiledConfig with
          | inl err => inl (wrap "failed to generate destination" err)
          | inr urn => inr urn
          end
      end
  end.

(** [GenerateUpstreams].  [getWindow] is [window.From] on the spec and the
    tenant's presets: its result is given, a window by its [GetInterval];
    [now] is the clock of the service. *)
Definition GenerateUpstreams {I} (GetByName : string -> error + TaskPlugin I)
    (engine : Engine) (now : Time)
    (getWindow : error + (Time -> error + Interval))
    (jobTenant : TenantWithDetails) (taskName : string) (spec : Spec) (dryRun : bool)
    : error + list string :=
  match GetByName taskName with
  | inl err => inl err
  | inr taskPlugin =>
      match UpstreamModOf taskPlugin with
      | None => inl ErrUpstreamModNotFound
      | Some dependencyMod =>
          match getWindow with
          | inl err => inl err
          | inr w =>
              match compileAsset engine (pluginOf taskPlugin) spec w now with
              | inl err => inl (wrap "asset compilation failure" err)
              | inr assets =>
                  let compiledConfigs := compileConfig engine (TaskConfig spec) jobTenant in
                  match GenerateDependencies dependencyMod compiledConfigs assets dryRun with
                  | inl err => inl err
                  | inr dependencies => inr dependencies
                  end
              end
          end
      end
  end.

End JobPluginMods.

(* ===================================================================== *)
(** ** Vocabulary of the statements                                       *)
(* ===================================================================== *)

(** The number of runs in a given state. *)
Definition countState (st : State) (runs : list JobRunStatus) : nat :=
  length (filter (fun run => RunState run = st) runs).

(** Schedule order: [a] is not scheduled later than [b]. *)
Definition notLater (a b : JobRunStatus) : Prop :=
  Before (ScheduledAt b) (ScheduledAt a) = false.

(** The stored runs with the observed outcomes merged in, as both
    [processReplayedRequest] and [processPartialReplayedRequest] compute
    them. *)
Definition mergedRuns (stored incoming : list JobRunStatus) : list JobRunStatus :=
  MergeWithUpdatedRuns stored (identifyUpdatedRunStatus stored incoming).

(** The criteria of [fetchRuns] for a replay. *)
Definition fetchRunsCall (r : Replay) : SchedulerCall :=
  CallGetJobRuns (StartTime (Config r)) (EndTime (Config r)).

Definition replayMetric (r : Replay) (state : ReplayState) : Metric :=
  mkMetric (ProjectName (ReplayTenant r)) (NamespaceName (ReplayTenant r)) (JobName r) state.

(** A computation that never writes the row. *)
Definition rowPreserving {A} (m : M A) : Prop :=
  forall s res s', m s = (res, s') -> row s' = row s.

(** A computation that leaves the row as it was whenever it fails. *)
Definition failsBeforeWriting {A} (m : M A) : Prop :=
  forall s e s', m s = (Err e, s') -> row s' = row s.

(** What [replayRunOnScheduler] asks of the scheduler for a run once it has
    fetched it: [Clear] when the fetch found a run, [CreateRun] when it found
    none. *)
Definition dispatchCall (w : ReplayWorker) (jobCron : ScheduleSpec)
    (run : JobRunStatus) : SchedulerCall :=
  match GetJobRuns w (ScheduledAt run) (ScheduledAt run) with
  | inr (_ :: _) => CallClear (GetLogicalTime run jobCron)
  | _ => CallCreateRun (GetLogicalTime run jobCron) prefixReplayed
  end.

(** The scheduler accepts that call (and the fetch before it did not fail
    with anything but not-found). *)
Definition dispatchSucceeds (w : ReplayWorker) (jobCron : ScheduleSpec)
    (run : JobRunStatus) : Prop :=
  match GetJobRuns w (ScheduledAt run) (ScheduledAt run) with
  | inr (_ :: _) => Clear w (GetLogicalTime run jobCron) = None
  | inr [] => CreateRun w (GetLogicalTime run jobCron) prefixReplayed = None
  | inl e => IsErrNotFound e = true /\
             CreateRun w (GetLogicalTime run jobCron) prefixReplayed = None
  end.

(** The instants whose RFC3339 text reads back: years 0 to 9999 in the
    instant's own zone, and a zone offset of whole minutes below 25
    hours. *)
Definition representable (t : Time) : Prop :=
  -62167219200 <= unix t + zoneOffset (loc t) <= 253402300799 /\
  zoneOffset (loc t) mod 60 = 0 /\
  -90000 < zoneOffset (loc t) < 90000.

(** Concrete replays and schedulers used to exercise the statements. *)
Module Samples.

Definition at_ (n : Z) : Time := mkTime n 0 UTCLoc.

(** A daily schedule: the logical time is one day before the schedule
    time. *)
Definition daily : ScheduleSpec :=
  mkScheduleSpec (fun t => mkTime (unix t - 86400) (nsec t) (loc t)).

Definition day (n : Z) : Time := at_ (86400 * n).

Definition replayOf (parallel : bool) : Replay :=
  mkReplay "replay-1" "job1" (mkTenant "proj1" "ns1")
           (mkReplayConfig (day 1) (day 3) parallel) ReplayStateCreated "".

Definition runsIn (s1 s2 s3 : State) : list JobRunStatus :=
  [mkRun (day 1) s1; mkRun (day 2) s2; mkRun (day 3) s3].

Definition pendingRow : ReplayRow :=
  mkRow ReplayStateCreated (runsIn StatePending StatePending StatePending) "".

Definition replayedRow : ReplayRow :=
  mkRow ReplayStateReplayed (runsIn StateInProgress StateInProgress StateSuccess) "".

Definition successRow : ReplayRow :=
  mkRow ReplayStateSuccess (runsIn StateSuccess StateSuccess StateSuccess) "".

(** A scheduler that answers every run query with [observed] and accepts
    every call; both repository writes commit. *)
Definition workerSeeing (observed : list JobRunStatus) : ReplayWorker :=
  mkReplayWorker (inr daily) (fun _ _ => inr observed)
                 (fun _ => None) (fun _ _ => None) (fun _ _ => None)
                 None None (fun _ => "").

(** A worker whose job repository cannot resolve the cron spec. *)
Definition workerWithoutCron : ReplayWorker :=
  mkReplayWorker (inl (NewError "job not found")) (fun _ _ => inr [])
                 (fun _ => None) (fun _ _ => None) (fun _ _ => None)
                 None None (fun _ => "").

(** A worker whose scheduler refuses to clear runs. *)
Definition workerClearBatchFailing : ReplayWorker :=
  mkReplayWorker (inr daily) (fun _ _ => inr [])
                 (fun _ => None) (fun _ _ => Some (NewError "scheduler unavailable"))
                 (fun _ _ => None) None None (fun _ => "").

(** A worker whose replay repository refuses the write of a dispatched
    replay (the write of a failure still commits). *)
Definition workerNotCommitting : ReplayWorker :=
  mkReplayWorker (inr daily) (fun _ _ => inr [])
                 (fun _ => None) (fun _ _ => None) (fun _ _ => None)
                 (Some (NewError "database unavailable")) None (fun _ => "").

(** Created replays off the usual shape: no run pending; the first run
    not pending; schedule times in a fixed zone of offset 0 rather than in
    UTC; two runs at the same instant. *)
Definition doneRow : ReplayRow :=
  mkRow ReplayStateCreated (runsIn StateSuccess StateSuccess StateSuccess) "".

Definition halfDoneRow : ReplayRow :=
  mkRow ReplayStateCreated (runsIn StateSuccess StatePending StatePending) "".

Definition zoned (n : Z) : Time := mkTime (86400 * n) 0 (FixedZone 0).

Definition zonedRow : ReplayRow :=
  mkRow ReplayStateCreated [mkRun (zoned 1) StatePending; mkRun (zoned 2) StatePending] "".

Definition twinRow : ReplayRow :=
  mkRow ReplayStateCreated
        [mkRun (day 1) StatePending; mkRun (day 1) StatePending; mkRun (day 2) StatePending] "".

End Samples.

(** A concrete job, as in the tests of the executor-input compiler. *)
Module CompilerSamples.

Import JobPluginService InputCompiler.

(** An engine that leaves every template as it is. *)
Definition plainEngine : Engine :=
  mkEngine (fun m _ => inr m) (fun s _ => inr s).

(** An engine that fails on every template that mentions [secret]. *)
Definition strictEngine : Engine :=
  mkEngine (fun m _ => inr m)
           (fun s _ => if Text.Contains s "secret"
                       then inl (NewError "no such secret") else inr s).

(** The template compiler of the tests of the input compiler: it answers
    the four maps the tests expect it to be called with, and nothing
    else. *)
Definition mockEngine : Engine :=
  mkEngine
    (fun m _ =>
       if decide (m = {["some.config" := "val"]})
       then inr {["some.config.compiled" := "val.compiled"]}
       else if decide (m = {["secret.config" := "a.secret.val"]})
       then inr {["secret.config.compiled" := "a.secret.val.compiled"]}
       else if decide (m = {["hook_some_config" := "val"]})
       then inr {["hook.compiled" := "hook.val.compiled"]}
       else if decide (m = {["hook_secret" := "a.secret.val"]})
       then inr {["secret.hook.compiled" := "hook.s.val.compiled"]}
       else inl (NewError "unexpected call"))
    (fun s _ => inr s).

(** An engine that compiles every map to the same single entry. *)
Definition constantEngine : Engine :=
  mkEngine (fun _ _ => inr {["compiled" := "value"]}) (fun s _ => inr s).

Definition tenant1 : Tenant := mkTenant "proj1" "ns1".

Definition tenantDetails : TenantWithDetails :=
  mkTenantWithDetails tenant1
    (<["STORAGE_PATH" := "somePath"]> (<["SCHEDULER_HOST" := "localhost"]> ∅))
    (<["secretName" := "secretValue"]> (<["secret2Name" := "secret2Value"]> ∅)).

Definition taskConfig : gmap string string :=
  <["secret.config" := "a.secret.val"]> (<["some.config" := "val"]> ∅).

Definition hookConfig : gmap string string :=
  <["hook_secret" := "a.secret.val"]> (<["hook_some_config" := "val"]> ∅).

Definition longJobName : string :=
  "nameWith Invalid~Characters)(Which Are.even.LongerThan^63Charancters".

Definition job1 : Job :=
  mkJob "00000000-0000-0000-0000-000000000000" "job1" tenant1
        "some_destination_table_name" taskConfig
        [mkHook "predator" hookConfig] ∅.

Definition deps1 : Deps :=
  mkDeps (fun _ => inr tenantDetails)
         (fun _ t => inr (mkInterval (mkTime (unix t - 172800) 0 UTCLoc)
                                      (mkTime (unix t) 0 UTCLoc)))
         (fun _ _ _ _ => inr (<["someFileName" := "fileContents"]> ∅))
         plainEngine.

Definition depsWith (e : Engine) : Deps :=
  mkDeps (GetDetails deps1) (GetInterval deps1) (CompileJobRunAssets deps1) e.

(** A job whose task config names an entry like a system variable and
    fills it from a secret. *)
Definition shadowingJob : Job :=
  mkJob "00000000-0000-0000-0000-000000000000" "job1" tenant1
        "some_destination_table_name" {["DSTART" := "a.secret.val"]} [] ∅.

Definition taskRun : RunConfig :=
  mkRunConfig (mkExecutor "bq2bq" ExecutorTask) (mkTime 1699996400 0 UTCLoc).

Definition hookRun : RunConfig :=
  mkRunConfig (mkExecutor "predator" ExecutorHook) (mkTime 1699996400 0 UTCLoc).

(** 2023-11-14T22:13:20Z, and the same instant half a second later. *)
Definition wholeSecond : Time := mkTime 1700000000 0 UTCLoc.
Definition halfPastSecond : Time := mkTime 1700000000 500000000 UTCLoc.

(** The first second of the year 10000; an instant in a zone 5 hours 30
    minutes and 7 seconds east; an instant in a zone 25 hours east. *)
Definition yearTenThousand : Time := mkTime 253402300800 0 UTCLoc.
Definition zoneWithSeconds : Time := mkTime 1700000000 0 (FixedZone 19807).
Definition zoneBeyondADay : Time := mkTime 1700000000 0 (FixedZone 90000).

End CompilerSamples.

(* ===================================================================== *)
(** ** Vocabulary for the worker's state machine                          *)
(* ===================================================================== *)

(** Scheduler calls that change the scheduler. *)
Definition isMutation (c : SchedulerCall) : bool :=
  match c with
  | CallGetJobRuns _ _ => false
  | _ => true
  end.

(** The edges of the replay state machine that a write of the worker can
    take, for a replay with [n] runs. *)
Definition canFollow (parallel : bool) (n : nat) (from to : ReplayState) : bool :=
  match from, to with
  | _, ReplayStateFailed => true
  | ReplayStateCreated, ReplayStatePartialReplayed => negb parallel && (1 <? n)%nat
  | ReplayStateCreated, ReplayStateReplayed => parallel || (n <=? 1)%nat
  | ReplayStatePartialReplayed, ReplayStatePartialReplayed => true
  | ReplayStatePartialReplayed, ReplayStateReplayed => true
  | ReplayStateReplayed, ReplayStateReplayed => true
  | ReplayStateReplayed, ReplayStateSuccess => true
  | _, _ => false
  end.

(** The steps of a run's state: it stays, goes from pending to in progress,
    or from in progress to success or failed. *)
Definition stateStep (old new : State) : Prop :=
  new = old \/
  (old = StatePending /\ new = StateInProgress) \/
  (old = StateInProgress /\ (new = StateSuccess \/ new = StateFailed)).

Definition runStep (old new : JobRunStatus) : Prop :=
  ScheduledAt new = ScheduledAt old /\ stateStep (RunState old) (RunState new).

(** The key under which a run is looked up. *)
Definition keyOf (run : JobRunStatus) : Time := UTC (ScheduledAt run).

(** A computation that writes neither the row nor a metric, and whose value
    satisfies [P]. *)
Definition yielding {A} (P : A -> Prop) (m : M A) : Prop :=
  forall s res s', m s = (res, s') ->
    row s' = row s /\ metrics s' = metrics s /\ forall a, res = Ok a -> P a.

(** A computation that either stops before writing anything, or commits one
    row satisfying [Q] and raises the metric of the state it wrote. *)
Definition persisting (r : Replay) (Q : ReplayState -> list JobRunStatus -> string -> Prop)
    (m : M unit) : Prop :=
  forall s res s', m s = (res, s') ->
    (res <> Ok tt /\ row s' = row s /\ metrics s' = metrics s) \/
    (res = Ok tt /\
     exists st runs msg,
       Q st runs msg /\ row s' = mkRow st runs msg /\
       metrics s' = (metrics s ++ [replayMetric r st])%list).

(** A computation whose scheduler calls satisfy [C]. *)
Definition emitting {A} (C : list SchedulerCall -> Prop) (m : M A) : Prop :=
  forall s res s', m s = (res, s') ->
    exists cs, calls s' = (calls s ++ cs)%list /\ C cs.

(** The runs a tick on a created replay writes. *)
Definition createdWrites (req : ReplayWithRun) (runs : list JobRunStatus) : Prop :=
  if Parallel (Config (ReplayOf req))
  then runs = map (fun run => mkRun (ScheduledAt run) StateInProgress) (Runs req)
  else match GetFirstExecutableRun req with
       | None => runs = Runs req
       | Some runToReplay =>
           runs = MergeWithUpdatedRuns (Runs req)
                    {[ ScheduledAt runToReplay := StateInProgress ]}
       end.

(** The runs a tick on a partially replayed replay writes, given the runs
    it fetched. *)
Definition partialWrites (req : ReplayWithRun) (incoming runs : list JobRunStatus) : Prop :=
  let merged := mergedRuns (Runs req) incoming in
  match GetSortedRunsByStates merged [StateInProgress],
        GetSortedRunsByStates merged [StatePending] with
  | [], runToReplay :: _ =>
      runs = MergeWithUpdatedRuns merged
               (<[ScheduledAt runToReplay := StateInProgress]>
                  (identifyUpdatedRunStatus (Runs req) incoming))
  | _, _ => runs = merged
  end.

(** The state and message of [processReplayedRequest] for merged runs. *)
Definition replayedVerdict (merged : list JobRunStatus) : ReplayState * string :=
  if (countState StateInProgress merged =? 0)%nat && (countState StateFailed merged =? 0)%nat
  then (ReplayStateSuccess, "")
  else if (countState StateInProgress merged =? 0)%nat
          && (0 <? countState StateFailed merged)%nat
       then (ReplayStateFailed, foundFailedRuns (countState StateFailed merged))
       else (ReplayStateReplayed, "").

(** What a committed write of the step dispatched for [req] holds. *)
Definition tickWrites (w : ReplayWorker) (req : ReplayWithRun)
    (st : ReplayState) (runs : list JobRunStatus) (msg : string) : Prop :=
  let cfg := Config (ReplayOf req) in
  match ReplayStateOf (ReplayOf req) with
  | ReplayStateCreated =>
      createdWrites req runs /\ msg = "" /\
      st = (if negb (Parallel cfg) && (1 <? length (Runs req))%nat
            then ReplayStatePartialReplayed else ReplayStateReplayed)
  | ReplayStatePartialReplayed =>
      exists incoming,
        GetJobRuns w (StartTime cfg) (EndTime cfg) = inr incoming /\
        partialWrites req incoming runs /\ msg = "" /\
        st = (if (countState StatePending runs =? 0)%nat
              then ReplayStateReplayed else ReplayStatePartialReplayed)
  | ReplayStateReplayed =>
      exists incoming,
        GetJobRuns w (StartTime cfg) (EndTime cfg) = inr incoming /\
        runs = mergedRuns (Runs req) incoming /\
        (st, msg) = replayedVerdict runs
  | _ => False
  end.

(** A computation that never panics. *)
Definition panicFree {A} (m : M A) : Prop :=
  forall s s', m s <> (Panic, s').

(** The row a tick leaves when it marks the replay as failed with [e]: the
    status write is best effort. *)
Definition failedRow (w : ReplayWorker) (stored : ReplayRow) (e : error) : ReplayRow :=
  match UpdateReplayStatusErr w with
  | None => mkRow ReplayStateFailed (rowRuns stored) (Error e)
  | Some _ => stored
  end.

(** What merging the observed outcomes does to one run: nothing, or it
    finishes a run that was in progress. *)
Definition settles (old new : JobRunStatus) : Prop :=
  ScheduledAt new = ScheduledAt old /\
  (RunState new = RunState old \/
   (RunState old = StateInProgress /\
    (RunState new = StateSuccess \/ RunState new = StateFailed))).

(** What marking the run keyed [k] as in progress does to one run. *)
Definition marks (k : Time) (old new : JobRunStatus) : Prop :=
  ScheduledAt new = ScheduledAt old /\
  (RunState new = RunState old \/
   (keyOf old = k /\ RunState old = StatePending /\ RunState new = StateInProgress)).

(** The mutations among a list of scheduler calls. *)
Definition mutations (cs : list SchedulerCall) : list SchedulerCall :=
  List.filter isMutation cs.

(** A sequential replay half way: the first run is in progress, the other
    two are pending. *)
Module MachineSamples.

Import Samples.

Definition partialRow : ReplayRow :=
  mkRow ReplayStatePartialReplayed (runsIn StateInProgress StatePending StatePending) "".

(** The row after the scheduler reported the first run as successful and the
    second run was dispatched. *)
Definition nextPartialRow : ReplayRow :=
  mkRow ReplayStatePartialReplayed (runsIn StateSuccess StateInProgress StatePending) "".

Definition firstRunDone : list JobRunStatus := [mkRun (day 1) StateSuccess].

(** A scheduler that has the first run only and refuses to create the run
    whose logical time is the first day. *)
Definition workerRefusingFirstCreate : ReplayWorker :=
  mkReplayWorker (inr daily) (fun _ _ => inr firstRunDone)
                 (fun _ => None) (fun _ _ => None)
                 (fun t _ => if unix t =? 86400
                             then Some (NewError "scheduler refused") else None)
                 None None (fun _ => "").

End MachineSamples.

(** The calls of the step dispatched for a replay outside the parallel
    path: no mutation, or the one for a run of the replay. *)
Definition oneDispatch (w : ReplayWorker) (req : ReplayWithRun) (cron : ScheduleSpec)
    (cs : list SchedulerCall) : Prop :=
  mutations cs = [] \/
  ((ReplayStateOf (ReplayOf req) = ReplayStateCreated \/
    ReplayStateOf (ReplayOf req) = ReplayStatePartialReplayed) /\
   exists run, In (ScheduledAt run) (map ScheduledAt (Runs req)) /\
               mutations cs = [dispatchCall w cron run]).

(** The texts of the errors [CreateRun] answers for the runs, in order. *)
Definition createFailures (w : ReplayWorker) (jobCron : ScheduleSpec)
    (runs : list JobRunStatus) : list string :=
  omap (fun run => Error <$> CreateRun w (GetLogicalTime run jobCron) prefixReplayed) runs.

Definition createCalls (jobCron : ScheduleSpec) (runs : list JobRunStatus)
    : list SchedulerCall :=
  map (fun run => CallCreateRun (GetLogicalTime run jobCron) prefixReplayed) runs.

(** A job with two assets and a dependency mod that returns the assets it
    is given. *)
Module AssetSamples.

Import JobPluginService JobRunAssetsCompiler.

Definition assets : gmap string string :=
  <["query.sql" := "select 1"]> (<["config.json" := "{}"]> ∅).

Definition job : Job :=
  mkJob "bq2bq" (<["PROJECT" := "p"]> ∅) assets.

Definition echoMod : AssetsMod := mkAssetsMod (fun req => inr (ReqAssets req)).

Definition repo : PluginRepo :=
  mkPluginRepo (fun _ => inr (mkTaskPlugin (Some echoMod))).

Definition interval : Interval := mkInterval (Samples.day 1) (Samples.day 2).

Definition spec : Spec := mkSpec (<["PROJECT" := "p"]> ∅) assets.

(** A plugin with a dependency mod and no yaml mod under the name [bq2bq],
    and one without any capability under every other name. *)
Definition upstreamMod : JobPluginMods.UpstreamMod :=
  JobPluginMods.mkUpstreamMod
    (mkDependencyMod (fun _ _ => inr "bigquery://proj.dataset.table"))
    (fun _ => inl (NewError "dataset is not set"))
    (fun _ _ _ => inr ["bigquery://proj.dataset.upstream"]).

Definition lookup (name : string) : error + JobPluginMods.TaskPlugin unit :=
  if String.eqb name "bq2bq"
  then inr (JobPluginMods.mkTaskPlugin (Some upstreamMod) None)
  else inr (JobPluginMods.mkTaskPlugin None None).

Definition window : error + (Time -> error + Interval) :=
  inr (fun _ => inr interval).

End AssetSamples.

(** A record at rest: it is terminal, or it waits for a run in progress
    whose outcome the scheduler has not reported - in state [replayed], or
    in state [partialReplayed] with a run still pending. *)
Definition atRest (w : ReplayWorker) (r : Replay) (stored : ReplayRow) : Prop :=
  terminal (rowState stored) = true \/
  exists incoming,
    GetJobRuns w (StartTime (Config r)) (EndTime (Config r)) = inr incoming /\
    identifyUpdatedRunStatus (rowRuns stored) incoming = ∅ /\
    countState StateInProgress (rowRuns stored) <> 0%nat /\
    (rowState stored = ReplayStateReplayed \/
     (rowState stored = ReplayStatePartialReplayed /\
      countState StatePending (rowRuns stored) <> 0%nat)).

(* ===================================================================== *)
(** * Properties of the replay worker                                     *)
(* ===================================================================== *)

(** ** Times *)

Lemma UTC_idemp t : UTC (UTC t) = UTC t.
Proof. reflexivity. Qed.

Lemma UTC_fixed t : loc t = UTCLoc -> UTC t = t.
Proof. destruct t as [s n l]; simpl; intros ->; reflexivity. Qed.

Lemma UTC_ne_zone t : loc t <> UTCLoc -> UTC t <> t.
Proof. destruct t as [s n l]; unfold UTC; simpl; intros H E; inversion E; congruence. Qed.

(** ** Run lists *)

Lemma foldl_snoc {A B} (f : A -> B -> A) a l x :
  foldl f a (l ++ [x]) = f (foldl f a l) x.
Proof. revert a; induction l as [|y l IH]; intros a; simpl; [reflexivity|apply IH]. Qed.

Lemma insertByScheduledAt_length run sorted :
  length (insertByScheduledAt run sorted) = S (length sorted).
Proof.
  induction sorted as [|r rest IH]; simpl; [reflexivity|].
  destruct (Before _ _); simpl; [reflexivity|now rewrite IH].
Qed.

Lemma sortByScheduledAt_length runs :
  length (sortByScheduledAt runs) = length runs.
Proof.
  unfold sortByScheduledAt.
  induction runs as [|x l IH] using rev_ind; [reflexivity|].
  rewrite foldl_snoc, insertByScheduledAt_length, IH, length_app; simpl; lia.
Qed.

Lemma insertByScheduledAt_elem run sorted x :
  x ∈ insertByScheduledAt run sorted <-> x = run \/ x ∈ sorted.
Proof.
  induction sorted as [|r rest IH]; simpl.
  - rewrite list_elem_of_singleton. split; [auto|intros [?|H]; [auto|inversion H]].
  - destruct (Before _ _).
    + rewrite !elem_of_cons. tauto.
    + rewrite !elem_of_cons, IH. tauto.
Qed.

Lemma sortByScheduledAt_elem runs x :
  x ∈ sortByScheduledAt runs <-> x ∈ runs.
Proof.
  unfold sortByScheduledAt.
  induction runs as [|y l IH] using rev_ind; [reflexivity|].
  rewrite foldl_snoc, insertByScheduledAt_elem, IH, elem_of_app, list_elem_of_singleton.
  tauto.
Qed.

Lemma GetSortedRunsByStates_length runs st :
  length (GetSortedRunsByStates runs [st]) = countState st runs.
Proof.
  unfold GetSortedRunsByStates, countState.
  rewrite sortByScheduledAt_length. f_equal.
  apply list_filter_iff. intros run. rewrite list_elem_of_singleton. reflexivity.
Qed.

Lemma GetSortedRunsByStates_elem runs st x :
  x ∈ GetSortedRunsByStates runs [st] <-> x ∈ runs /\ RunState x = st.
Proof.
  unfold GetSortedRunsByStates.
  rewrite sortByScheduledAt_elem, list_elem_of_filter, list_elem_of_singleton. tauto.
Qed.

Lemma countState_zero st runs :
  countState st runs = 0%nat <-> forall run, run ∈ runs -> RunState run <> st.
Proof.
  unfold countState. rewrite length_zero_iff_nil. split.
  - intros H run Hin Hst.
    assert (run ∈ filter (fun run => RunState run = st) runs) as Hf
      by (apply list_elem_of_filter; auto).
    rewrite H in Hf. inversion Hf.
  - intros H. destruct (filter _ runs) as [|x l] eqn:E; [reflexivity|].
    assert (x ∈ filter (fun run => RunState run = st) runs) as Hf
      by (rewrite E; left).
    apply list_elem_of_filter in Hf as [Hst Hin]. exfalso. eapply H; eauto.
Qed.

(** ** Schedule order *)

Lemma Before_false_iff t u :
  Before u t = false <-> (unix t < unix u \/ (unix t = unix u /\ nsec t <= nsec u)).
Proof.
  unfold Before.
  destruct (Z.ltb_spec (unix u) (unix t)); destruct (Z.eqb_spec (unix u) (unix t));
    destruct (Z.ltb_spec (nsec u) (nsec t)); simpl; split; intros; try discriminate;
    try reflexivity; lia.
Qed.

Lemma notLater_trans a b c : notLater a b -> notLater b c -> notLater a c.
Proof. unfold notLater. rewrite !Before_false_iff. lia. Qed.

Lemma notLater_refl a : notLater a a.
Proof. unfold notLater. rewrite Before_false_iff. lia. Qed.

Lemma notLater_total a b : notLater a b \/ notLater b a.
Proof. unfold notLater. rewrite !Before_false_iff. lia. Qed.

Lemma insertByScheduledAt_sorted run sorted :
  StronglySorted notLater sorted -> StronglySorted notLater (insertByScheduledAt run sorted).
Proof.
  induction 1 as [|r rest Hrest IH Hr]; simpl.
  - repeat constructor.
  - destruct (Before (ScheduledAt run) (ScheduledAt r)) eqn:E.
    + constructor; [constructor; assumption|].
      assert (notLater run r) as Hrr.
      { unfold notLater. rewrite Before_false_iff.
        unfold Before in E. 
        destruct (Z.ltb_spec (unix (ScheduledAt run)) (unix (ScheduledAt r)));
        destruct (Z.eqb_spec (unix (ScheduledAt run)) (unix (ScheduledAt r)));
        destruct (Z.ltb_spec (nsec (ScheduledAt run)) (nsec (ScheduledAt r)));
        simpl in E; try discriminate; lia. }
      constructor; [exact Hrr|].
      rewrite Forall_forall in *. intros x Hx. eapply notLater_trans; eauto.
    + constructor; [exact IH|].
      rewrite Forall_forall in *. intros x Hx.
      apply insertByScheduledAt_elem in Hx as [->|Hx]; [exact E|auto].
Qed.

Lemma sortByScheduledAt_sorted runs : StronglySorted notLater (sortByScheduledAt runs).
Proof.
  unfold sortByScheduledAt. induction runs as [|x l IH] using rev_ind; [constructor|].
  rewrite foldl_snoc. apply insertByScheduledAt_sorted, IH.
Qed.

Lemma sorted_head_earliest l f :
  StronglySorted notLater l -> head l = Some f -> forall x, x ∈ l -> notLater f x.
Proof.
  intros Hs Hh x Hx. destruct Hs as [|a l Hl Ha]; [discriminate|].
  injection Hh as ->. apply elem_of_cons in Hx as [->|Hx]; [apply notLater_refl|].
  rewrite Forall_forall in Ha. auto.
Qed.

Lemma sorted_last_latest l z :
  StronglySorted notLater l -> last l = Some z -> forall x, x ∈ l -> notLater x z.
Proof.
  induction 1 as [|a l Hl IH Ha]; [discriminate|].
  intros Hlast x Hx. destruct l as [|b l'].
  - injection Hlast as ->. apply list_elem_of_singleton in Hx as ->. apply notLater_refl.
  - change (last (b :: l') = Some z) in Hlast.
    apply elem_of_cons in Hx as [->|Hx]; [|auto].
    rewrite Forall_forall in Ha. apply Ha. apply last_Some_elem_of. exact Hlast.
Qed.

(** ** The observed-status map *)

Lemma ToRunStatusMap_lookup runs k s :
  ToRunStatusMap runs !! k = Some s ->
  exists run, run ∈ runs /\ UTC (ScheduledAt run) = k /\ RunState run = s.
Proof.
  unfold ToRunStatusMap.
  induction runs as [|x l IH] using rev_ind; simpl.
  - rewrite lookup_empty. discriminate.
  - rewrite foldl_snoc. destruct (decide (UTC (ScheduledAt x) = k)) as [<-|Hne].
    + rewrite lookup_insert_eq. intros [= <-]. exists x. rewrite elem_of_app, list_elem_of_singleton. auto.
    + rewrite lookup_insert_ne by exact Hne. intros H.
      destruct (IH H) as (run & Hin & Hk & Hs). exists run.
      rewrite elem_of_app. auto.
Qed.

Lemma ToRunStatusMap_keys_UTC runs k :
  is_Some (ToRunStatusMap runs !! k) -> loc k = UTCLoc.
Proof.
  intros [s H]. apply ToRunStatusMap_lookup in H as (run & _ & <- & _). reflexivity.
Qed.

Lemma ToRunStatusMap_None runs k :
  (forall run, run ∈ runs -> UTC (ScheduledAt run) <> k) ->
  ToRunStatusMap runs !! k = None.
Proof.
  intros H. destruct (ToRunStatusMap runs !! k) eqn:E; [|reflexivity].
  apply ToRunStatusMap_lookup in E as (run & Hin & Hk & _). exfalso. eapply H; eauto.
Qed.

(** ** identifyUpdatedRunStatus *)

Lemma isSuccessOrFailed_Some s :
  isSuccessOrFailed (Some s) = true <-> s = StateSuccess \/ s = StateFailed.
Proof. destruct s; simpl; split; intros; try discriminate; intuition congruence. Qed.

(** What one iteration of the loop adds to the map. *)
Lemma identifyStep_lookup incoming acc run k s :
  identifyStep incoming acc run !! k = Some s <->
  (RunState run = StateInProgress /\ UTC (ScheduledAt run) = k /\
   incoming !! k = Some s /\ (s = StateSuccess \/ s = StateFailed))
  \/ (acc !! k = Some s /\
      ~ (RunState run = StateInProgress /\ UTC (ScheduledAt run) = k /\
         isSuccessOrFailed (incoming !! k) = true)).
Proof.
  unfold identifyStep.
  destruct (decide (RunState run <> StateInProgress)) as [Hst|Hst].
  { intuition congruence. }
  apply dec_stable in Hst.
  destruct (incoming !! UTC (ScheduledAt run)) as [s0|] eqn:Hin.
  2:{ split.
      - intros H. right. split; [exact H|]. intros (_ & <- & Hsf). rewrite Hin in Hsf. discriminate.
      - intros [(_ & <- & H & _)|[H _]]; [congruence|exact H]. }
  destruct (isSuccessOrFailed (Some s0)) eqn:Hsf.
  - destruct (decide (UTC (ScheduledAt run) = k)) as [<-|Hne].
    + rewrite lookup_insert_eq, Hin. apply isSuccessOrFailed_Some in Hsf as Hsf'.
      split.
      * intros [= <-]. left. auto.
      * intros [(_ & _ & H & _)|[_ H]]; [exact H|]. exfalso. apply H. rewrite Hsf. auto.
    + rewrite lookup_insert_ne by exact Hne. split.
      * intros H. right. split; [exact H|]. intros (_ & E & _). congruence.
      * intros [(_ & E & _)|[H _]]; [congruence|exact H].
  - split.
    + intros H. right. split; [exact H|]. intros (_ & <- & H'). rewrite Hin in H'. congruence.
    + intros [(_ & <- & H & Hs)|[H _]]; [|exact H].
      rewrite Hin in H. injection H as <-. apply isSuccessOrFailed_Some in Hs. congruence.
Qed.

(** The entries of the map [identifyUpdatedRunStatus] returns. *)
Lemma identifyUpdatedRunStatus_lookup existing incoming k s :
  identifyUpdatedRunStatus existing incoming !! k = Some s <->
  exists run, run ∈ existing /\
              RunState run = StateInProgress /\
              UTC (ScheduledAt run) = k /\
              ToRunStatusMap incoming !! k = Some s /\
              (s = StateSuccess \/ s = StateFailed).
Proof.
  unfold identifyUpdatedRunStatus.
  induction existing as [|x l IH] using rev_ind.
  - simpl. rewrite lookup_empty. split; [discriminate|].
    intros (run & Hin & _). inversion Hin.
  - rewrite foldl_snoc, identifyStep_lookup, IH. split.
    + intros [(Hst & Hk & Hin & Hs)|[(run & Hin & H) _]].
      * exists x. rewrite elem_of_app, list_elem_of_singleton. auto.
      * exists run. rewrite elem_of_app. auto.
    + intros (run & Hin & Hst & Hk & Hinc & Hs).
      apply elem_of_app in Hin as [Hin|Hin].
      * destruct (decide (RunState x = StateInProgress /\ UTC (ScheduledAt x) = k)) as [[H1 H2]|Hn].
        -- left. auto.
        -- right. split; [exists run; auto|]. intros (H1 & H2 & _). apply Hn; auto.
      * apply list_elem_of_singleton in Hin as ->. left. auto.
Qed.

(** The entries that can contribute to the map: in progress, and observed
    as [success] or [failed]. *)
Lemma identifyUpdatedRunStatus_relevant existing incoming :
  identifyUpdatedRunStatus existing incoming =
  identifyUpdatedRunStatus
    (filter (fun run => RunState run = StateInProgress /\
                        isSuccessOrFailed
                          (ToRunStatusMap incoming !! UTC (ScheduledAt run)) = true)
            existing)
    incoming.
Proof.
  apply map_eq. intros k. apply option_eq. intros s.
  rewrite !identifyUpdatedRunStatus_lookup. split.
  - intros (run & Hin & Hst & Hk & Hobs & Hs). exists run.
    repeat split; try assumption.
    apply list_elem_of_filter. split; [|exact Hin]. split; [exact Hst|].
    rewrite Hk, Hobs. apply isSuccessOrFailed_Some, Hs.
  - intros (run & Hin & H). apply list_elem_of_filter in Hin as [_ Hin].
    exists run. split; assumption.
Qed.

(** C7. [identifyUpdatedRunStatus] records an update for a schedule time
    exactly when some expected entry in state [inProgress] has that time as
    its [scheduledAt] converted to UTC and the state observed under that key
    is [success] or [failed]; the recorded state is the observed one.  Every
    other entry (not in progress, or observed in another state or not at all)
    can be dropped from the expected runs without changing the result. *)
Theorem identifyUpdatedRunStatus_only_finished_in_progress
    (existingJobRuns incomingJobRuns : list JobRunStatus) :
  (forall (k : Time) (s : State),
     identifyUpdatedRunStatus existingJobRuns incomingJobRuns !! k = Some s <->
     exists run, run ∈ existingJobRuns /\
                 RunState run = StateInProgress /\
                 UTC (ScheduledAt run) = k /\
                 ToRunStatusMap incomingJobRuns !! k = Some s /\
                 (s = StateSuccess \/ s = StateFailed)) /\
  identifyUpdatedRunStatus existingJobRuns incomingJobRuns =
  identifyUpdatedRunStatus
    (filter (fun run => RunState run = StateInProgress /\
                        isSuccessOrFailed
                          (ToRunStatusMap incomingJobRuns !! UTC (ScheduledAt run)) = true)
            existingJobRuns)
    incomingJobRuns /\
  (forall run,
     RunState run <> StateInProgress \/
     isSuccessOrFailed (ToRunStatusMap incomingJobRuns !! UTC (ScheduledAt run)) = false ->
     identifyUpdatedRunStatus (existingJobRuns ++ [run]) incomingJobRuns =
     identifyUpdatedRunStatus existingJobRuns incomingJobRuns).
Proof.
  split; [|split].
  - intros k s. apply identifyUpdatedRunStatus_lookup.
  - apply identifyUpdatedRunStatus_relevant.
  - intros run Hrun. unfold identifyUpdatedRunStatus. rewrite foldl_snoc.
    unfold identifyStep. destruct Hrun as [Hst|Hobs].
    + rewrite decide_True by exact Hst. reflexivity.
    + destruct (decide _); [reflexivity|].
      destruct (ToRunStatusMap incomingJobRuns !! UTC (ScheduledAt run)) as [s0|];
        [|reflexivity].
      rewrite Hobs. reflexivity.
Qed.

(** An entry that is not in progress, or whose observed state is neither
    [success] nor [failed], leaves the map as it is. *)
Lemma identifyStep_unchanged incoming acc run :
  RunState run <> StateInProgress \/
  isSuccessOrFailed (incoming !! UTC (ScheduledAt run)) = false ->
  identifyStep incoming acc run = acc.
Proof.
  unfold identifyStep. intros [H|H].
  - rewrite decide_True by exact H. reflexivity.
  - destruct (decide _); [reflexivity|].
    destruct (incoming !! UTC (ScheduledAt run)) as [s0|]; [|reflexivity].
    rewrite H. reflexivity.
Qed.

(** ** Entering a tick *)

(** Unfold [Process] down to the step it dispatches to, given that the cron
    spec resolved. *)
Ltac enter_tick Hcron :=
  unfold Process, dispatch; rewrite Hcron; cbn [requestOf ReplayOf ReplayStateOf].

(** ** processReplayedRequest *)

(** The state and message [processReplayedRequest] chooses from the merged
    runs. *)
Lemma processReplayedRequest_run w replayReq jobCron s incoming :
  GetJobRuns w (StartTime (Config (ReplayOf replayReq)))
               (EndTime (Config (ReplayOf replayReq))) = inr incoming ->
  UpdateReplayErr w = None ->
  let merged := mergedRuns (Runs replayReq) incoming in
  let inProgress := countState StateInProgress merged in
  let failed := countState StateFailed merged in
  let verdict :=
    if (inProgress =? 0)%nat && (failed =? 0)%nat then (ReplayStateSuccess, "")
    else if (inProgress =? 0)%nat && (0 <? failed)%nat
         then (ReplayStateFailed, foundFailedRuns failed)
         else (ReplayStateReplayed, "") in
  processReplayedRequest w replayReq jobCron s =
    (Ok tt, mkWorld (mkRow (fst verdict) merged (snd verdict))
                    (calls s ++ [fetchRunsCall (ReplayOf replayReq)])
                    (metrics s ++ [replayMetric (ReplayOf replayReq) (fst verdict)])).
Proof.
  intros Hfetch Hrepo. cbv zeta.
  unfold processReplayedRequest, bind, fetchRuns, schedGetJobRuns.
  rewrite Hfetch. cbn [ofSum].
  rewrite !GetSortedRunsByStates_length. fold (mergedRuns (Runs replayReq) incoming).
  destruct ((countState StateInProgress _ =? 0)%nat && (countState StateFailed _ =? 0)%nat);
    [|destruct ((countState StateInProgress _ =? 0)%nat && (0 <? countState StateFailed _)%nat)];
    unfold repoUpdateReplay, raiseReplayMetric; rewrite Hrepo; reflexivity.
Qed.

(** C1. A tick on a replay in state [replayed] (cron spec resolved, runs
    fetched, repository write committed) makes the one [GetJobRuns] call,
    stores the merged run vector, and stores state [success] iff no merged
    run is in progress and none failed; state [failed] with message
    [found N failed runs.] iff none is in progress and N >= 1 failed; and
    state [replayed] again otherwise, that is iff some run is still in
    progress. *)
Theorem replayed_tick_verdict
    (w : ReplayWorker) (r : Replay) (stored : ReplayRow)
    (jobCron : ScheduleSpec) (incoming : list JobRunStatus) :
  rowState stored = ReplayStateReplayed ->
  getJobCron w = inr jobCron ->
  GetJobRuns w (StartTime (Config r)) (EndTime (Config r)) = inr incoming ->
  UpdateReplayErr w = None ->
  let merged := mergedRuns (rowRuns stored) incoming in
  let inProgress := countState StateInProgress merged in
  let failed := countState StateFailed merged in
  exists s',
    Process w (requestOf r stored) (freshWorld stored) = (Ok tt, s') /\
    calls s' = [fetchRunsCall r] /\
    rowRuns (row s') = merged /\
    (rowState (row s') = ReplayStateSuccess <-> inProgress = 0%nat /\ failed = 0%nat) /\
    (rowState (row s') = ReplayStateFailed /\ rowMessage (row s') = foundFailedRuns failed
       <-> inProgress = 0%nat /\ (1 <= failed)%nat) /\
    (rowState (row s') = ReplayStateReplayed <-> inProgress <> 0%nat).
Proof.
  intros Hst Hcron Hfetch Hrepo merged inProgress failed.
  enter_tick Hcron.
  rewrite Hst.
  rewrite (processReplayedRequest_run w (requestOf r stored) jobCron _ incoming Hfetch Hrepo).
  cbn [requestOf Runs ReplayOf]. fold merged. fold inProgress. fold failed.
  eexists. split; [reflexivity|]. cbn [row calls rowRuns rowState rowMessage freshWorld].
  split; [reflexivity|]. split; [reflexivity|].
  destruct (Nat.eqb_spec inProgress 0) as [Hi|Hi];
    destruct (Nat.eqb_spec failed 0) as [Hf|Hf]; cbn [andb fst snd].
  - repeat split; intros; try congruence; try lia; intuition (congruence || lia).
  - destruct (Nat.ltb_spec 0 failed); [|lia]. cbn [fst snd].
    repeat split; intros; try congruence; try lia; intuition (congruence || lia).
  - destruct (0 <? failed)%nat; cbn [fst snd];
    repeat split; intros; try congruence; try lia; intuition (congruence || lia).
  - destruct (0 <? failed)%nat; cbn [fst snd];
    repeat split; intros; try congruence; try lia; intuition (congruence || lia).
Qed.

(** ** Which calls touch the stored row *)

Lemma rowPreserving_bind {A B} (m : M A) (k : A -> M B) :
  rowPreserving m -> (forall a, rowPreserving (k a)) -> rowPreserving (bind m k).
Proof.
  intros Hm Hk s res s'. unfold bind.
  destruct (m s) as [[a|e|] s1] eqn:E; intros H.
  - apply Hk in H. apply Hm in E. congruence.
  - inversion H; subst. eapply Hm; eauto.
  - inversion H; subst. eapply Hm; eauto.
Qed.

Lemma rowPreserving_ret {A} (a : A) : rowPreserving (ret a).
Proof. intros s res s' [= <- <-]. reflexivity. Qed.

Lemma rowPreserving_fail {A} e : rowPreserving (@fail A e).
Proof. intros s res s' [= <- <-]. reflexivity. Qed.

Lemma rowPreserving_panic {A} : rowPreserving (@panic A).
Proof. intros s res s' [= <- <-]. reflexivity. Qed.

Lemma failsBeforeWriting_bind {A B} (m : M A) (k : A -> M B) :
  rowPreserving m -> (forall a, failsBeforeWriting (k a)) -> failsBeforeWriting (bind m k).
Proof.
  intros Hm Hk s e s'. unfold bind.
  destruct (m s) as [[a|e0|] s1] eqn:E; intros H.
  - apply Hk in H. apply Hm in E. congruence.
  - inversion H; subst. eapply Hm; eauto.
  - discriminate.
Qed.

Lemma rowPreserving_fails {A} (m : M A) : rowPreserving m -> failsBeforeWriting m.
Proof. intros H s e s' E. eapply H; eauto. Qed.

Create HintDb frame discriminated.

#[export] Hint Resolve rowPreserving_ret rowPreserving_fail rowPreserving_panic
  rowPreserving_fails : frame.

(** Descend through binds and case distinctions; the leaves are closed with
    the hints of [frame]. *)
Ltac frame_step :=
  match goal with
  | |- rowPreserving (bind _ _) =>
      apply rowPreserving_bind; [|intros ?; cbv beta zeta]
  | |- failsBeforeWriting (bind ?m _) =>
      lazymatch m with
      | repoUpdateReplay _ _ _ _ => fail
      | _ => apply failsBeforeWriting_bind; [|intros ?; cbv beta zeta]
      end
  | |- rowPreserving (match ?x with _ => _ end) => destruct x
  | |- failsBeforeWriting (match ?x with _ => _ end) => destruct x
  end.

Ltac frame := repeat frame_step; auto with frame.

Section Frame.

Variable w : ReplayWorker.

Lemma schedGetJobRuns_row a b : rowPreserving (schedGetJobRuns w a b).
Proof. intros s res s' [= <- <-]. reflexivity. Qed.

Lemma schedClear_row t : rowPreserving (schedClear w t).
Proof. intros s res s' [= <- <-]. reflexivity. Qed.

Lemma schedClearBatch_row a b : rowPreserving (schedClearBatch w a b).
Proof. intros s res s' [= <- <-]. reflexivity. Qed.

Lemma schedCreateRun_row t p : rowPreserving (schedCreateRun w t p).
Proof. intros s res s' [= <- <-]. reflexivity. Qed.

Lemma raiseReplayMetric_row t j st : rowPreserving (raiseReplayMetric t j st).
Proof. intros s res s' [= <- <-]. reflexivity. Qed.

Lemma fetchRuns_row req : rowPreserving (fetchRuns w req).
Proof. apply schedGetJobRuns_row. Qed.

#[local] Hint Resolve schedGetJobRuns_row schedClear_row schedClearBatch_row
  schedCreateRun_row raiseReplayMetric_row fetchRuns_row : frame.

Lemma fetchRun_row req t : rowPreserving (fetchRun w req t).
Proof. unfold fetchRun. frame. Qed.

Lemma createRuns_row cron l me s :
  row (snd (createRuns w cron l me s)) = row s.
Proof.
  revert me s. induction l as [|run rest IH]; intros me s; simpl; [reflexivity|].
  destruct (ofOption _ _); rewrite IH; reflexivity.
Qed.

Lemma createMissingRuns_row req cron : rowPreserving (createMissingRuns w req cron).
Proof.
  unfold createMissingRuns. frame.
  intros s res s'. cbv beta zeta.
  pose proof (createRuns_row cron (getMissingRuns (Runs req) a) [] s) as H.
  destruct (createRuns _ _ _ _ _) as [me s1]. intros [= <- <-]. exact H.
Qed.

Lemma replayRunOnScheduler_row req cron run :
  rowPreserving (replayRunOnScheduler w req cron run).
Proof.
  intros s res s'. unfold replayRunOnScheduler.
  destruct (fetchRun w req (ScheduledAt run) s) as [[a|e|] s1] eqn:E;
    apply fetchRun_row in E.
  - intros H. apply schedClear_row in H. congruence.
  - destruct (IsErrNotFound e).
    + intros H. apply schedCreateRun_row in H. congruence.
    + intros [= <- <-]. exact E.
  - intros [= <- <-]. exact E.
Qed.

#[local] Hint Resolve fetchRun_row createMissingRuns_row replayRunOnScheduler_row : frame.

Lemma processNewReplayRequestParallel_row req cron :
  rowPreserving (processNewReplayRequestParallel w req cron).
Proof. unfold processNewReplayRequestParallel. frame. Qed.

Lemma processNewReplayRequestSequential_row req cron :
  rowPreserving (processNewReplayRequestSequential w req cron).
Proof. unfold processNewReplayRequestSequential. frame. Qed.

(** The write of [UpdateReplay] followed by the metric: it fails only when
    the write did not commit. *)
Lemma persist_fails_before_writing st runs msg t j :
  failsBeforeWriting
    (bind (repoUpdateReplay w st runs msg) (fun _ => raiseReplayMetric t j st)).
Proof.
  intros s e s'. unfold bind, repoUpdateReplay, raiseReplayMetric.
  destruct (UpdateReplayErr w); [intros [= <- <-]; reflexivity|discriminate].
Qed.

#[local] Hint Resolve processNewReplayRequestParallel_row
  processNewReplayRequestSequential_row persist_fails_before_writing : frame.

Lemma processNewReplayRequest_fails req cron :
  failsBeforeWriting (processNewReplayRequest w req cron).
Proof. unfold processNewReplayRequest. frame. Qed.

Lemma processPartialReplayedRequest_fails req cron :
  failsBeforeWriting (processPartialReplayedRequest w req cron).
Proof. unfold processPartialReplayedRequest. frame. Qed.

Lemma processReplayedRequest_fails req cron :
  failsBeforeWriting (processReplayedRequest w req cron).
Proof. unfold processReplayedRequest. frame. Qed.

#[local] Hint Resolve processNewReplayRequest_fails processPartialReplayedRequest_fails
  processReplayedRequest_fails : frame.

Lemma dispatch_fails req cron : failsBeforeWriting (dispatch w req cron).
Proof. unfold dispatch. frame. Qed.

(** What [updateReplayAsFailed] and the failure metric leave behind. *)
Lemma markFailed_row req e s :
  row (snd (markFailed w req e s)) =
    match UpdateReplayStatusErr w with
    | None => mkRow ReplayStateFailed (rowRuns (row s)) (Error e)
    | Some _ => row s
    end.
Proof.
  unfold markFailed, bind, updateReplayAsFailed, repoUpdateReplayStatus, raiseReplayMetric.
  destruct (UpdateReplayStatusErr w); reflexivity.
Qed.

End Frame.

(** C10. When a tick runs into an error (the cron lookup fails, or the step
    dispatched on the replay's state returns an error), [Process] persists the
    failure with [UpdateReplayStatus], which carries the state [failed] and
    the error's text only: the stored run vector is the one from before the
    tick.  (Should that status write fail as well, the row is not changed at
    all.) *)
Theorem failed_tick_keeps_run_vector
    (w : ReplayWorker) (replayReq : ReplayWithRun) (s : World) (e : error) :
  tickError w replayReq s = Some e ->
  rowRuns (row (snd (Process w replayReq s))) = rowRuns (row s) /\
  row (snd (Process w replayReq s)) =
    match UpdateReplayStatusErr w with
    | None => mkRow ReplayStateFailed (rowRuns (row s)) (Error e)
    | Some _ => row s
    end.
Proof.
  unfold tickError, Process.
  destruct (getJobCron w) as [err|jobCron].
  - intros [= ->]. rewrite markFailed_row.
    destruct (UpdateReplayStatusErr w); split; reflexivity.
  - destruct (dispatch w replayReq jobCron s) as [[[]|err|] s1] eqn:E; try discriminate.
    intros [= ->]. apply dispatch_fails in E. rewrite markFailed_row, E.
    destruct (UpdateReplayStatusErr w); split; reflexivity.
Qed.

Lemma failed_tick_keeps_run_vector_witness :
  row (snd (Process Samples.workerClearBatchFailing
              (requestOf (Samples.replayOf true) Samples.pendingRow)
              (freshWorld Samples.pendingRow))) =
    mkRow ReplayStateFailed (rowRuns Samples.pendingRow) "scheduler unavailable".
Proof.
  apply (failed_tick_keeps_run_vector Samples.workerClearBatchFailing
           (requestOf (Samples.replayOf true) Samples.pendingRow)
           (freshWorld Samples.pendingRow)
           (NewError "scheduler unavailable")).
  vm_compute. reflexivity.
Defined.

Lemma replayed_tick_verdict_witness :
  exists s',
    Process (Samples.workerSeeing (Samples.runsIn StateSuccess StateFailed StateSuccess))
            (requestOf (Samples.replayOf true) Samples.replayedRow)
            (freshWorld Samples.replayedRow) = (Ok tt, s') /\
    row s' = mkRow ReplayStateFailed
                   (Samples.runsIn StateSuccess StateFailed StateSuccess)
                   "found 1 failed runs.".
Proof.
  destruct (replayed_tick_verdict
              (Samples.workerSeeing (Samples.runsIn StateSuccess StateFailed StateSuccess))
              (Samples.replayOf true) Samples.replayedRow Samples.daily
              (Samples.runsIn StateSuccess StateFailed StateSuccess)
              eq_refl eq_refl eq_refl eq_refl)
    as (s' & Hrun & _ & Hruns & _ & Hfailed & _).
  exists s'. split; [exact Hrun|].
  destruct Hfailed as [_ Hfailed].
  destruct Hfailed as [Hst Hmsg]; [vm_compute; split; [reflexivity|lia]|].
  destruct s' as [[st runs msg] cs ms]; simpl in *. subst. reflexivity.
Defined.

(** ** Terminal replays *)

(** C6 (as amended). A worker invocation on a replay in a terminal state
    whose cron spec resolves matches no case of the state switch: it makes no
    scheduler call, raises no metric and writes nothing, so the persisted
    record is left as it was. *)
Theorem terminal_tick_is_noop
    (w : ReplayWorker) (r : Replay) (stored : ReplayRow)
    (jobCron : ScheduleSpec) (s : World) :
  terminal (rowState stored) = true ->
  getJobCron w = inr jobCron ->
  Process w (requestOf r stored) s = (Ok tt, s) /\
  tick w r stored = Some stored.
Proof.
  intros Hterm Hcron.
  assert (forall s0, Process w (requestOf r stored) s0 = (Ok tt, s0)) as H.
  { intros s0. enter_tick Hcron.
    destruct (rowState stored); try discriminate; reflexivity. }
  split; [apply H|]. unfold tick. rewrite H. reflexivity.
Qed.

Lemma terminal_tick_is_noop_witness :
  tick (Samples.workerSeeing []) (Samples.replayOf true) Samples.successRow
    = Some Samples.successRow.
Proof.
  apply (terminal_tick_is_noop (Samples.workerSeeing []) (Samples.replayOf true)
           Samples.successRow Samples.daily (freshWorld Samples.successRow)); reflexivity.
Defined.

(** C6, as stated, fails: [Process] looks the cron spec up before it
    switches on the state, and a failed lookup marks the replay failed
    whatever its state.  A replay stored as [success] is rewritten to
    [failed]. *)
Lemma terminal_replay_rewritten_when_cron_lookup_fails :
  ~ (forall (w : ReplayWorker) (r : Replay) (stored : ReplayRow),
       terminal (rowState stored) = true -> tick w r stored = Some stored).
Proof.
  intros H.
  specialize (H Samples.workerWithoutCron (Samples.replayOf true)
                Samples.successRow eq_refl).
  vm_compute in H. discriminate H.
Qed.

(** The row that tick leaves. *)
Example success_replay_after_failed_cron_lookup :
  tick Samples.workerWithoutCron (Samples.replayOf true) Samples.successRow
  = Some (mkRow ReplayStateFailed
            (Samples.runsIn StateSuccess StateSuccess StateSuccess) "job not found").
Proof. vm_compute. reflexivity. Qed.

(** ** New replay requests *)

Lemma createRuns_all_created w jobCron runs me s :
  (forall run, run ∈ runs ->
     CreateRun w (GetLogicalTime run jobCron) prefixReplayed = None) ->
  createRuns w jobCron runs me s =
    (me, mkWorld (row s)
           (calls s ++ map (fun run => CallCreateRun (GetLogicalTime run jobCron) prefixReplayed) runs)
           (metrics s)).
Proof.
  revert me s. induction runs as [|run rest IH]; intros me s H; simpl.
  - rewrite app_nil_r. destruct s; reflexivity.
  - rewrite (H run) by left. cbn [ofOption].
    rewrite IH by (intros; apply H; right; assumption).
    unfold logCall; cbn [row calls metrics]. rewrite <- app_assoc. reflexivity.
Qed.

(** A run with no counterpart on the scheduler at its instant is among the
    runs [getMissingRuns] returns. *)
Lemma getMissingRuns_complete expected existing run :
  run ∈ expected ->
  (forall e, e ∈ existing -> UTC (ScheduledAt e) <> UTC (ScheduledAt run)) ->
  run ∈ getMissingRuns expected existing.
Proof.
  intros Hin Hmiss. unfold getMissingRuns. apply list_elem_of_filter. split; [|exact Hin].
  destruct (ToRunStatusMap existing !! ScheduledAt run) eqn:E; [|reflexivity].
  apply ToRunStatusMap_lookup in E as (e & He & Hk & _).
  exfalso. apply (Hmiss e He). rewrite <- Hk. reflexivity.
Qed.

(** The first and the last executable run are pending runs of the vector,
    and no pending run is scheduled before the one or after the other. *)
Lemma executable_runs_bound req firstRun lastRun :
  GetFirstExecutableRun req = Some firstRun ->
  GetLastExecutableRun req = Some lastRun ->
  (firstRun ∈ Runs req /\ RunState firstRun = StatePending) /\
  (lastRun ∈ Runs req /\ RunState lastRun = StatePending) /\
  (forall run, run ∈ Runs req -> RunState run = StatePending ->
     notLater firstRun run /\ notLater run lastRun).
Proof.
  unfold GetFirstExecutableRun, GetLastExecutableRun. intros Hfirst Hlast.
  assert (forall x, x ∈ GetSortedRunsByStates (Runs req) [StatePending] ->
            x ∈ Runs req /\ RunState x = StatePending) as Hback.
  { intros x Hx. apply GetSortedRunsByStates_elem. exact Hx. }
  split; [|split].
  - apply Hback, head_Some_elem_of, Hfirst.
  - apply Hback, last_Some_elem_of, Hlast.
  - intros run Hin Hpending.
    assert (run ∈ GetSortedRunsByStates (Runs req) [StatePending]) as Hrun.
    { apply GetSortedRunsByStates_elem. split; assumption. }
    split; [eapply sorted_head_earliest|eapply sorted_last_latest];
      try eassumption; apply sortByScheduledAt_sorted.
Qed.

(** Merging a one-entry map keyed by the schedule time of a stored run
    changes that run only, provided its schedule time is in UTC and no
    other run of the vector is at the same instant. *)
Lemma merge_alone runs run (i : nat) st :
  runs !! i = Some run ->
  loc (ScheduledAt run) = UTCLoc ->
  (forall (j : nat) x, runs !! j = Some x ->
     UTC (ScheduledAt x) = UTC (ScheduledAt run) -> j = i) ->
  MergeWithUpdatedRuns runs {[ScheduledAt run := st]}
    = <[i := mkRun (ScheduledAt run) st]> runs.
Proof.
  intros Hi Hutc Halone. unfold MergeWithUpdatedRuns. apply list_eq. intros j.
  change (map ?f runs) with (f <$> runs). rewrite list_lookup_fmap.
  destruct (decide (j = i)) as [->|Hne].
  - rewrite list_lookup_insert_eq by (eapply lookup_lt_Some; exact Hi).
    rewrite Hi. cbn [fmap option_fmap option_map].
    rewrite (UTC_fixed _ Hutc), lookup_singleton_eq. reflexivity.
  - rewrite list_lookup_insert_ne by congruence.
    destruct (runs !! j) as [x|] eqn:Hj; [|reflexivity].
    cbn [fmap option_fmap option_map]. rewrite lookup_singleton_ne; [reflexivity|].
    intros E. apply Hne. apply (Halone j x Hj).
    rewrite E, UTC_idemp. reflexivity.
Qed.

Lemma replayRunOnScheduler_run w req jobCron run s :
  dispatchSucceeds w jobCron run ->
  replayRunOnScheduler w req jobCron run s =
    (Ok tt, mkWorld (row s)
              (calls s ++ [CallGetJobRuns (ScheduledAt run) (ScheduledAt run);
                           dispatchCall w jobCron run])
              (metrics s)).
Proof.
  unfold dispatchSucceeds, dispatchCall, replayRunOnScheduler, fetchRun, bind, schedGetJobRuns.
  destruct (GetJobRuns w (ScheduledAt run) (ScheduledAt run)) as [e|[|x l]]; cbn [ofSum].
  - intros [Hnf Hcreate]. rewrite Hnf. unfold schedCreateRun. rewrite Hcreate.
    unfold logCall; cbn. rewrite <- app_assoc. reflexivity.
  - intros Hcreate. unfold fail. cbn [IsErrNotFound]. unfold schedCreateRun. rewrite Hcreate.
    unfold logCall; cbn. rewrite <- app_assoc. reflexivity.
  - intros Hclear. unfold ret, schedClear. rewrite Hclear.
    unfold logCall; cbn. rewrite <- app_assoc. reflexivity.
Qed.

Lemma bind_Ok {A B} (m : M A) (k : A -> M B) s a s1 :
  m s = (Ok a, s1) -> bind m k s = k a s1.
Proof. intros H. unfold bind. rewrite H. reflexivity. Qed.

Lemma persist_run w st runs msg r s :
  UpdateReplayErr w = None ->
  bind (repoUpdateReplay w st runs msg)
       (fun _ => raiseReplayMetric (ReplayTenant r) (JobName r) st) s =
    (Ok tt, mkWorld (mkRow st runs msg) (calls s) (metrics s ++ [replayMetric r st])).
Proof.
  intros H. unfold bind, repoUpdateReplay, raiseReplayMetric. rewrite H. reflexivity.
Qed.

Lemma createMissingRuns_run w req jobCron existing s :
  GetJobRuns w (StartTime (Config (ReplayOf req))) (EndTime (Config (ReplayOf req)))
    = inr existing ->
  (forall run, run ∈ getMissingRuns (Runs req) existing ->
     CreateRun w (GetLogicalTime run jobCron) prefixReplayed = None) ->
  createMissingRuns w req jobCron s =
    (Ok tt, mkWorld (row s)
              (calls s ++ fetchRunsCall (ReplayOf req)
                 :: map (fun run => CallCreateRun (GetLogicalTime run jobCron) prefixReplayed)
                        (getMissingRuns (Runs req) existing))
              (metrics s)).
Proof.
  intros Hfetch Hcreate. unfold createMissingRuns, bind, fetchRuns, schedGetJobRuns.
  rewrite Hfetch. cbn [ofSum]. cbv zeta.
  rewrite (createRuns_all_created w jobCron _ _ _ Hcreate).
  unfold logCall; cbn [row calls metrics ToErr ofOption].
  rewrite <- app_assoc. reflexivity.
Qed.

Lemma processNewReplayRequestParallel_run w req jobCron firstRun lastRun existing s :
  GetFirstExecutableRun req = Some firstRun ->
  GetLastExecutableRun req = Some lastRun ->
  ClearBatch w (GetLogicalTime firstRun jobCron) (GetLogicalTime lastRun jobCron) = None ->
  GetJobRuns w (StartTime (Config (ReplayOf req))) (EndTime (Config (ReplayOf req)))
    = inr existing ->
  (forall run, run ∈ getMissingRuns (Runs req) existing ->
     CreateRun w (GetLogicalTime run jobCron) prefixReplayed = None) ->
  processNewReplayRequestParallel w req jobCron s =
    (Ok (map (fun run => mkRun (ScheduledAt run) StateInProgress) (Runs req)),
     mkWorld (row s)
       (calls s ++
          CallClearBatch (GetLogicalTime firstRun jobCron) (GetLogicalTime lastRun jobCron)
          :: fetchRunsCall (ReplayOf req)
          :: map (fun run => CallCreateRun (GetLogicalTime run jobCron) prefixReplayed)
                 (getMissingRuns (Runs req) existing))
       (metrics s)).
Proof.
  intros Hfirst Hlast Hclear Hfetch Hcreate.
  unfold processNewReplayRequestParallel. rewrite Hfirst, Hlast.
  erewrite bind_Ok; [|unfold schedClearBatch; rewrite Hclear; reflexivity].
  erewrite bind_Ok; [|apply createMissingRuns_run; eassumption].
  unfold ret, logCall; cbn [row calls metrics]. rewrite <- app_assoc. reflexivity.
Qed.

(** C2 (as amended). A tick on a replay in state [created] whose cron spec
    is resolved, whose scheduler calls are accepted and whose repository
    write commits.

    Parallel, with a first and a last executable run (at least one run of
    the vector is pending): the tick calls [ClearBatch] with the logical
    times of these two runs, which are the earliest and the latest pending
    run of the vector in schedule order; it fetches the runs of the range,
    calls [CreateRun] with prefix [replayed] for the expected runs missing
    among the fetched ones (every expected run with no fetched run at its
    instant is among them), and stores state [replayed] with every run of
    the vector [inProgress].

    Sequential, more than one run, with a first executable run whose
    schedule time is in UTC and which is the only run of the vector at its
    instant: the tick fetches that run alone and clears it (or creates it
    when the scheduler has none), and stores state [partialReplayed] with
    the vector changed at that run's position only, to [inProgress]. *)
Theorem created_tick_dispatches
    (w : ReplayWorker) (r : Replay) (stored : ReplayRow) (jobCron : ScheduleSpec) :
  rowState stored = ReplayStateCreated ->
  getJobCron w = inr jobCron ->
  UpdateReplayErr w = None ->
  let runs := rowRuns stored in
  (forall firstRun lastRun existing,
     Parallel (Config r) = true ->
     GetFirstExecutableRun (requestOf r stored) = Some firstRun ->
     GetLastExecutableRun (requestOf r stored) = Some lastRun ->
     ClearBatch w (GetLogicalTime firstRun jobCron) (GetLogicalTime lastRun jobCron) = None ->
     GetJobRuns w (StartTime (Config r)) (EndTime (Config r)) = inr existing ->
     (forall run, run ∈ getMissingRuns runs existing ->
        CreateRun w (GetLogicalTime run jobCron) prefixReplayed = None) ->
     exists s',
       Process w (requestOf r stored) (freshWorld stored) = (Ok tt, s') /\
       calls s' =
         ([CallClearBatch (GetLogicalTime firstRun jobCron) (GetLogicalTime lastRun jobCron);
           fetchRunsCall r]
          ++ map (fun run => CallCreateRun (GetLogicalTime run jobCron) prefixReplayed)
                 (getMissingRuns runs existing))%list /\
       (forall run, run ∈ runs ->
          (forall e, e ∈ existing -> UTC (ScheduledAt e) <> UTC (ScheduledAt run)) ->
          CallCreateRun (GetLogicalTime run jobCron) prefixReplayed ∈ calls s') /\
       row s' = mkRow ReplayStateReplayed
                      (map (fun run => mkRun (ScheduledAt run) StateInProgress) runs) "" /\
       (firstRun ∈ runs /\ RunState firstRun = StatePending) /\
       (lastRun ∈ runs /\ RunState lastRun = StatePending) /\
       (forall run, run ∈ runs -> RunState run = StatePending ->
          notLater firstRun run /\ notLater run lastRun))
  /\
  (forall runToReplay (i : nat),
     Parallel (Config r) = false ->
     (1 < length runs)%nat ->
     GetFirstExecutableRun (requestOf r stored) = Some runToReplay ->
     loc (ScheduledAt runToReplay) = UTCLoc ->
     runs !! i = Some runToReplay ->
     (forall (j : nat) other, runs !! j = Some other ->
        UTC (ScheduledAt other) = UTC (ScheduledAt runToReplay) -> j = i) ->
     dispatchSucceeds w jobCron runToReplay ->
     exists s',
       Process w (requestOf r stored) (freshWorld stored) = (Ok tt, s') /\
       calls s' = [CallGetJobRuns (ScheduledAt runToReplay) (ScheduledAt runToReplay);
                   dispatchCall w jobCron runToReplay] /\
       RunState runToReplay = StatePending /\
       (forall run, run ∈ runs -> RunState run = StatePending -> notLater runToReplay run) /\
       row s' = mkRow ReplayStatePartialReplayed
                      (<[i := mkRun (ScheduledAt runToReplay) StateInProgress]> runs) "").
Proof.
  intros Hst Hcron Hrepo runs. subst runs. split.
  - intros firstRun lastRun existing Hpar Hfirst Hlast Hclear Hfetch Hcreate.
    enter_tick Hcron.
    rewrite Hst. unfold processNewReplayRequest.
    cbn [requestOf ReplayOf Config Runs Parallel ReplayTenant JobName].
    rewrite Hpar. cbn [negb andb].
    erewrite bind_Ok;
      [|apply (processNewReplayRequestParallel_run w (requestOf r stored) jobCron
                 firstRun lastRun existing);
        [exact Hfirst|exact Hlast|exact Hclear|exact Hfetch|exact Hcreate]].
    rewrite (persist_run w _ _ _ r _ Hrepo).
    eexists. split; [reflexivity|]. cbn [calls row metrics freshWorld app requestOf Runs ReplayOf].
    split; [reflexivity|]. split; [|split; [reflexivity|]].
    + intros run Hin Hmiss. right. right.
      apply list_elem_of_fmap_2'  with (x := run); [|reflexivity].
      apply getMissingRuns_complete; assumption.
    + exact (executable_runs_bound (requestOf r stored) firstRun lastRun Hfirst Hlast).
  - intros runToReplay i Hseq Hlen Hfirst Hutc Hi Halone Hdispatch.
    pose proof (merge_alone (rowRuns stored) runToReplay i StateInProgress Hi Hutc Halone)
      as Hmerge.
    assert (RunState runToReplay = StatePending /\
            forall run, run ∈ rowRuns stored -> RunState run = StatePending ->
                        notLater runToReplay run) as [Hpend Hearliest].
    { unfold GetFirstExecutableRun in Hfirst. cbn [requestOf Runs] in Hfirst. split.
      - assert (runToReplay ∈ GetSortedRunsByStates (rowRuns stored) [StatePending]) as Hin
          by (apply head_Some_elem_of, Hfirst).
        apply GetSortedRunsByStates_elem in Hin as [_ Hin]. exact Hin.
      - intros run Hrun Hpending.
        eapply sorted_head_earliest; [apply sortByScheduledAt_sorted|exact Hfirst|].
        apply GetSortedRunsByStates_elem. split; assumption. }
    enter_tick Hcron.
    rewrite Hst. unfold processNewReplayRequest.
    cbn [requestOf ReplayOf Config Runs Parallel ReplayTenant JobName].
    rewrite Hseq. cbn [negb andb].
    destruct (Z.ltb_spec 1 (Z.of_nat (length (rowRuns stored)))) as [_|Hle]; [|lia].
    erewrite bind_Ok;
      [|unfold processNewReplayRequestSequential; rewrite Hfirst;
        erewrite bind_Ok; [|apply replayRunOnScheduler_run; exact Hdispatch];
        cbn [requestOf Runs]; rewrite Hmerge; reflexivity].
    rewrite (persist_run w _ _ _ r _ Hrepo).
    eexists. split; [reflexivity|].
    cbn [calls row metrics freshWorld app].
    split; [reflexivity|]. split; [exact Hpend|]. split; [exact Hearliest|reflexivity].
Qed.

Lemma created_tick_dispatches_witness :
  (exists s',
     Process (Samples.workerSeeing [mkRun (Samples.day 1) StateSuccess])
             (requestOf (Samples.replayOf true) Samples.pendingRow)
             (freshWorld Samples.pendingRow) = (Ok tt, s') /\
     calls s' =
       [CallClearBatch (Samples.day 0) (Samples.day 2);
        CallGetJobRuns (Samples.day 1) (Samples.day 3);
        CallCreateRun (Samples.day 1) "replayed";
        CallCreateRun (Samples.day 2) "replayed"] /\
     row s' = mkRow ReplayStateReplayed
                (Samples.runsIn StateInProgress StateInProgress StateInProgress) "")
  /\
  (exists s',
     Process (Samples.workerSeeing [mkRun (Samples.day 1) StateSuccess])
             (requestOf (Samples.replayOf false) Samples.pendingRow)
             (freshWorld Samples.pendingRow) = (Ok tt, s') /\
     calls s' = [CallGetJobRuns (Samples.day 1) (Samples.day 1);
                 CallClear (Samples.day 0)] /\
     row s' = mkRow ReplayStatePartialReplayed
                (Samples.runsIn StateInProgress StatePending StatePending) "").
Proof.
  split.
  - destruct (created_tick_dispatches
                (Samples.workerSeeing [mkRun (Samples.day 1) StateSuccess])
                (Samples.replayOf true) Samples.pendingRow Samples.daily
                eq_refl eq_refl eq_refl) as [Hpar _].
    destruct (Hpar (mkRun (Samples.day 1) StatePending) (mkRun (Samples.day 3) StatePending)
                [mkRun (Samples.day 1) StateSuccess])
      as (s' & Hrun & Hcalls & _ & Hrow & _);
      try reflexivity.
    exists s'. split; [exact Hrun|]. split; [exact Hcalls|exact Hrow].
  - destruct (created_tick_dispatches
                (Samples.workerSeeing [mkRun (Samples.day 1) StateSuccess])
                (Samples.replayOf false) Samples.pendingRow Samples.daily
                eq_refl eq_refl eq_refl) as [_ Hseq].
    destruct (Hseq (mkRun (Samples.day 1) StatePending) 0%nat)
      as (s' & Hrun & Hcalls & _ & _ & Hrow);
      try reflexivity.
    { simpl. lia. }
    { intros [|[|[|j]]] other Hj E; [reflexivity|exfalso..];
        simpl in Hj; try discriminate Hj;
        injection Hj as <-; discriminate E. }
    exists s'. split; [exact Hrun|]. split; [exact Hcalls|exact Hrow].
Defined.

(** C2, the claim as stated. It promises the dispatch for every created
    replay.  Each tick below is on a created replay of three runs (two in
    the last two cases) whose worker resolves the daily cron spec; the
    scheduler has no run of the job.

    - The cron spec is not resolved, the scheduler refuses [ClearBatch],
      or the repository refuses the write: the replay is stored [failed],
      not [replayed], its runs as they were.
    - Parallel, no run pending: there is no first executable run to take a
      logical time of; the tick panics and stores nothing.
    - Parallel, the first expected run already [success]: [ClearBatch]
      starts at the logical time of the second run, the first pending one,
      not at that of the first expected run.
    - Sequential, no run pending: nothing is dispatched and no run is
      changed.
    - Sequential, schedule times in a fixed zone rather than in UTC: the
      first run is dispatched, but no run is changed (the worker writes the
      run's schedule time as the key, the merge looks up its UTC form).
    - Sequential, two runs at the first instant: both are changed. *)
Lemma created_tick_does_not_always_dispatch :
  let tenant := mkMetric "proj1" "ns1" "job1" in
  let scheduled (t : Z -> Time) (s1 s2 : State) := [mkRun (t 1) s1; mkRun (t 2) s2] in
  (Process Samples.workerWithoutCron
     (requestOf (Samples.replayOf true) Samples.pendingRow) (freshWorld Samples.pendingRow)
   = (Ok tt,
      mkWorld (mkRow ReplayStateFailed
                     (Samples.runsIn StatePending StatePending StatePending) "job not found")
              [] [tenant ReplayStateFailed]) /\
   Process Samples.workerClearBatchFailing
     (requestOf (Samples.replayOf true) Samples.pendingRow) (freshWorld Samples.pendingRow)
   = (Ok tt,
      mkWorld (mkRow ReplayStateFailed
                     (Samples.runsIn StatePending StatePending StatePending)
                     "scheduler unavailable")
              [CallClearBatch (Samples.day 0) (Samples.day 2)]
              [tenant ReplayStateFailed]) /\
   Process Samples.workerNotCommitting
     (requestOf (Samples.replayOf true) Samples.pendingRow) (freshWorld Samples.pendingRow)
   = (Ok tt,
      mkWorld (mkRow ReplayStateFailed
                     (Samples.runsIn StatePending StatePending StatePending)
                     "database unavailable")
              [CallClearBatch (Samples.day 0) (Samples.day 2);
               CallGetJobRuns (Samples.day 1) (Samples.day 3);
               CallCreateRun (Samples.day 0) "replayed";
               CallCreateRun (Samples.day 1) "replayed";
               CallCreateRun (Samples.day 2) "replayed"]
              [tenant ReplayStateFailed]))
  /\
  (Process (Samples.workerSeeing [])
     (requestOf (Samples.replayOf true) Samples.doneRow) (freshWorld Samples.doneRow)
   = (Panic, freshWorld Samples.doneRow) /\
   tick (Samples.workerSeeing []) (Samples.replayOf true) Samples.doneRow = None)
  /\
  (head (sortByScheduledAt (rowRuns Samples.halfDoneRow))
   = Some (mkRun (Samples.day 1) StateSuccess) /\
   GetLogicalTime (mkRun (Samples.day 1) StateSuccess) Samples.daily = Samples.day 0 /\
   Process (Samples.workerSeeing [])
     (requestOf (Samples.replayOf true) Samples.halfDoneRow) (freshWorld Samples.halfDoneRow)
   = (Ok tt,
      mkWorld (mkRow ReplayStateReplayed
                     (Samples.runsIn StateInProgress StateInProgress StateInProgress) "")
              [CallClearBatch (Samples.day 1) (Samples.day 2);
               CallGetJobRuns (Samples.day 1) (Samples.day 3);
               CallCreateRun (Samples.day 0) "replayed";
               CallCreateRun (Samples.day 1) "replayed";
               CallCreateRun (Samples.day 2) "replayed"]
              [tenant ReplayStateReplayed]))
  /\
  Process (Samples.workerSeeing [])
    (requestOf (Samples.replayOf false) Samples.doneRow) (freshWorld Samples.doneRow)
  = (Ok tt,
     mkWorld (mkRow ReplayStatePartialReplayed
                    (Samples.runsIn StateSuccess StateSuccess StateSuccess) "")
             [] [tenant ReplayStatePartialReplayed])
  /\
  Process (Samples.workerSeeing [])
    (requestOf (Samples.replayOf false) Samples.zonedRow) (freshWorld Samples.zonedRow)
  = (Ok tt,
     mkWorld (mkRow ReplayStatePartialReplayed
                    (scheduled Samples.zoned StatePending StatePending) "")
             [CallGetJobRuns (Samples.zoned 1) (Samples.zoned 1);
              CallCreateRun (Samples.zoned 0) "replayed"]
             [tenant ReplayStatePartialReplayed])
  /\
  Process (Samples.workerSeeing [])
    (requestOf (Samples.replayOf false) Samples.twinRow) (freshWorld Samples.twinRow)
  = (Ok tt,
     mkWorld (mkRow ReplayStatePartialReplayed
                    (mkRun (Samples.day 1) StateInProgress
                     :: scheduled Samples.day StateInProgress StatePending) "")
             [CallGetJobRuns (Samples.day 1) (Samples.day 1);
              CallCreateRun (Samples.day 0) "replayed"]
             [tenant ReplayStatePartialReplayed]).
Proof. vm_compute. repeat split. Qed.

(** ** Repeating a tick *)

Lemma MergeWithUpdatedRuns_empty runs : MergeWithUpdatedRuns runs ∅ = runs.
Proof.
  unfold MergeWithUpdatedRuns. rewrite <- (map_id runs) at 2.
  apply map_ext. intros run. rewrite lookup_empty. reflexivity.
Qed.

(** Once the observed outcomes are merged in, the same observations have
    nothing more to report: every run still in progress was observed in a
    state other than [success] and [failed]. *)
Lemma identify_after_merge runs incoming :
  identifyUpdatedRunStatus (mergedRuns runs incoming) incoming = ∅.
Proof.
  apply map_empty. intros k.
  destruct (identifyUpdatedRunStatus (mergedRuns runs incoming) incoming !! k) as [s|] eqn:E;
    [exfalso|reflexivity].
  apply identifyUpdatedRunStatus_lookup in E as (run' & Hin & Hst & Hk & Hinc & Hs).
  unfold mergedRuns, MergeWithUpdatedRuns in Hin.
  apply list_elem_of_fmap in Hin as (run0 & -> & Hin0).
  destruct (identifyUpdatedRunStatus runs incoming !! UTC (ScheduledAt run0)) as [u|] eqn:Hm.
  - simpl in Hst. subst u.
    apply identifyUpdatedRunStatus_lookup in Hm as (_ & _ & _ & _ & _ & [?|?]); discriminate.
  - assert (identifyUpdatedRunStatus runs incoming !! k = Some s) as Hk'.
    { apply identifyUpdatedRunStatus_lookup. exists run0. auto. }
    rewrite <- Hk in Hk'. congruence.
Qed.

Lemma mergedRuns_idemp runs incoming :
  mergedRuns (mergedRuns runs incoming) incoming = mergedRuns runs incoming.
Proof.
  unfold mergedRuns at 1. rewrite identify_after_merge. apply MergeWithUpdatedRuns_empty.
Qed.

Lemma length_nonzero_cons {A} (l : list A) :
  length l <> 0%nat -> exists x rest, l = x :: rest.
Proof. destruct l as [|x rest]; [intros H; contradiction H; reflexivity|eauto]. Qed.

(** [processPartialReplayedRequest] while a run is still in progress: no
    run is dispatched. *)
Lemma processPartialReplayedRequest_waiting w req jobCron s incoming :
  GetJobRuns w (StartTime (Config (ReplayOf req))) (EndTime (Config (ReplayOf req)))
    = inr incoming ->
  UpdateReplayErr w = None ->
  countState StateInProgress (mergedRuns (Runs req) incoming) <> 0%nat ->
  let merged := mergedRuns (Runs req) incoming in
  let state := if (countState StatePending merged =? 0)%nat
               then ReplayStateReplayed else ReplayStatePartialReplayed in
  processPartialReplayedRequest w req jobCron s =
    (Ok tt, mkWorld (mkRow state merged "")
              (calls s ++ [fetchRunsCall (ReplayOf req)])
              (metrics s ++ [replayMetric (ReplayOf req) state])).
Proof.
  intros Hfetch Hrepo Hprog. cbv zeta.
  unfold processPartialReplayedRequest.
  erewrite bind_Ok; [|unfold fetchRuns, schedGetJobRuns; rewrite Hfetch; reflexivity].
  fold (mergedRuns (Runs req) incoming).
  rewrite <- GetSortedRunsByStates_length in Hprog.
  apply length_nonzero_cons in Hprog as (x & rest & Hx). rewrite Hx.
  erewrite bind_Ok; [|reflexivity].
  rewrite <- GetSortedRunsByStates_length.
  destruct (GetSortedRunsByStates (mergedRuns (Runs req) incoming) [StatePending]);
    cbn [length Nat.eqb]; rewrite (persist_run w _ _ _ (ReplayOf req) _ Hrepo); reflexivity.
Qed.

(** C5, as stated, fails: a tick may leave a record that is not at rest,
    and the next tick then takes the next step.  A created sequential replay
    with no runs is stored as [replayed] by the first tick and as [success]
    by the second, whatever the scheduler answers. *)
Lemma tick_not_idempotent :
  ~ (forall (w : ReplayWorker) (r : Replay) (stored once : ReplayRow),
       terminal (rowState stored) = false ->
       tick w r stored = Some once ->
       tick w r once = Some once).
Proof.
  intros H.
  specialize (H (Samples.workerSeeing []) (Samples.replayOf false)
                (mkRow ReplayStateCreated [] "")
                (mkRow ReplayStateReplayed [] "") eq_refl eq_refl).
  vm_compute in H. discriminate H.
Qed.

(** The same with runs: a created parallel replay whose runs the scheduler
    reports as finished, at the first tick as at the second. *)
Example created_replayed_success :
  tick (Samples.workerSeeing (Samples.runsIn StateSuccess StateSuccess StateSuccess))
       (Samples.replayOf true) Samples.pendingRow
    = Some (mkRow ReplayStateReplayed
              (Samples.runsIn StateInProgress StateInProgress StateInProgress) "") /\
  tick (Samples.workerSeeing (Samples.runsIn StateSuccess StateSuccess StateSuccess))
       (Samples.replayOf true)
       (mkRow ReplayStateReplayed
          (Samples.runsIn StateInProgress StateInProgress StateInProgress) "")
    = Some (mkRow ReplayStateSuccess
              (Samples.runsIn StateSuccess StateSuccess StateSuccess) "").
Proof. split; vm_compute; reflexivity. Qed.

Lemma identifyUpdatedRunStatus_only_finished_in_progress_witness :
  identifyUpdatedRunStatus
    (Samples.runsIn StateInProgress StatePending StateInProgress)
    (Samples.runsIn StateFailed StateSuccess StatePending)
    !! Samples.day 1 = Some StateFailed.
Proof.
  apply (identifyUpdatedRunStatus_only_finished_in_progress
           (Samples.runsIn StateInProgress StatePending StateInProgress)
           (Samples.runsIn StateFailed StateSuccess StatePending)).
  exists (mkRun (Samples.day 1) StateInProgress).
  split; [left|]. repeat split; auto.
Defined.

(* ===================================================================== *)
(** * RFC3339 timestamps                                                   *)
(* ===================================================================== *)

Section Calendar.

#[local] Ltac euclid := Z.to_euclidean_division_equations; lia.

Lemma digitValue_digit n : 0 <= n <= 9 -> digitValue (digit n) = Some n.
Proof.
  intros H. rewrite <- (Z2Nat.id n) by lia.
  assert (Z.to_nat n < 10)%nat as Hk by lia.
  revert Hk. generalize (Z.to_nat n) as k. intros k Hk.
  do 10 (destruct k as [|k]; [reflexivity|]). lia.
Qed.

Lemma number2_pad2 n a b :
  0 <= n <= 99 -> pad2 n = [a; b] -> number2 a b = Some n.
Proof.
  intros H [= <- <-]. unfold number2.
  rewrite !digitValue_digit by euclid. f_equal. euclid.
Qed.

Lemma number4_pad4 n a b c d :
  0 <= n <= 9999 -> pad4 n = [a; b; c; d] -> number4 a b c d = Some n.
Proof.
  intros H [= <- <- <- <-]. unfold number4, number2.
  rewrite !digitValue_digit by euclid. f_equal. euclid.
Qed.

(** The calendar date of a day number is a valid date, and it determines
    the day number. *)
Lemma civilFromDays_valid z y m d :
  civilFromDays z = (y, m, d) ->
  1 <= m <= 12 /\ 1 <= d <= daysIn m y /\ daysFromCivil y m d = z.
Proof.
  unfold civilFromDays. cbv zeta.
  set (z0 := z + 719468).
  set (era := z0 / 146097).
  set (doe := z0 - era * 146097).
  assert (0 <= doe < 146097) as Hdoe by (subst doe era; euclid).
  set (yoe := (doe - doe / 1460 + doe / 36524 - doe / 146096) / 365).
  assert (0 <= yoe < 400) as Hyoe by (subst yoe; euclid).
  set (doy := doe - (365 * yoe + yoe / 4 - yoe / 100)).
  assert (0 <= doy < 366) as Hdoy by (subst doy yoe; euclid).
  assert (doy = 365 -> yoe mod 4 = 3 /\ (yoe mod 100 <> 99 \/ yoe = 399)) as Hleap
    by (subst doy yoe; euclid).
  set (mp := (5 * doy + 2) / 153).
  assert (0 <= mp < 12) as Hmp by (subst mp; euclid).
  assert (mp = (5 * doy + 2) / 153) as Hmpdef by reflexivity.
  assert (z = era * 146097 + doe - 719468) as Hz by (subst doe z0; lia).
  assert (doe = yoe * 365 + yoe / 4 - yoe / 100 + doy) as Hdoe' by (subst doy; lia).
  clearbody mp. clearbody doy. clearbody yoe. clearbody doe. clearbody era. clear z0.
  intros [= <- <- <-].
  assert (mp = 0 \/ mp = 1 \/ mp = 2 \/ mp = 3 \/ mp = 4 \/ mp = 5 \/ mp = 6 \/ mp = 7 \/
          mp = 8 \/ mp = 9 \/ mp = 10 \/ mp = 11) as Hcases by lia.
  unfold daysFromCivil, daysIn, isLeap.
  destruct Hcases as [Hc|[Hc|[Hc|[Hc|[Hc|[Hc|[Hc|[Hc|[Hc|[Hc|[Hc|Hc]]]]]]]]]]];
    subst mp;
    repeat match goal with
      | |- context [if ?a <? ?b then _ else _] => destruct (Z.ltb_spec a b); try lia
      | |- context [if ?a <=? ?b then _ else _] => destruct (Z.leb_spec a b); try lia
      | |- context [?a =? ?b] => destruct (Z.eqb_spec a b); try lia
      end; cbn [orb andb negb];
    (split; [lia|]).
  all: split; [euclid|rewrite Hz, Hdoe'; euclid].
Qed.

Lemma number2_digits n :
  0 <= n <= 99 -> number2 (digit (n / 10)) (digit (n mod 10)) = Some n.
Proof. intros H. apply number2_pad2; [exact H|reflexivity]. Qed.

Lemma number4_digits n :
  0 <= n <= 9999 ->
  number4 (digit (n / 1000)) (digit (n / 100 mod 10)) (digit (n / 10 mod 10)) (digit (n mod 10))
    = Some n.
Proof. intros H. apply number4_pad4; [exact H|reflexivity]. Qed.

(** Years 0 to 9999 are the days -719528 to 2932896. *)
Lemma civilFromDays_year z y m d :
  civilFromDays z = (y, m, d) -> -719528 <= z <= 2932896 -> 0 <= y <= 9999.
Proof.
  intros E Hz. apply civilFromDays_valid in E as (Hm & Hd & <-).
  assert (daysIn m y <= 31) as Hd31.
  { unfold daysIn. destruct (m =? 2); [destruct (isLeap y); lia|].
    destruct (_ || _); lia. }
  revert Hz. unfold daysFromCivil.
  destruct (Z.leb_spec m 2); destruct (Z.ltb_spec 2 m); try lia; intros Hz; euclid.
Qed.

Lemma parseZone_formatZone offset :
  offset mod 60 = 0 -> -90000 < offset < 90000 ->
  parseZone (formatZone offset)
    = Some (if offset =? 0 then UTCLoc else FixedZone offset).
Proof.
  intros Hmin Hrange. unfold formatZone.
  destruct (Z.eqb_spec offset 0) as [->|Hne]; [reflexivity|].
  set (zone := Z.quot offset 60).
  assert (offset = zone * 60) as Hoff
    by (subst zone; pose proof (Z.quot_rem' offset 60);
        pose proof (Z.rem_mod_eq_0 offset 60 ltac:(lia)); lia).
  assert (0 < Z.abs zone < 1500) as Habs by lia.
  unfold formatTwo. destruct (Z.leb_spec (Z.abs zone / 60) 99); [|euclid].
  unfold pad2. cbn [app parseZone].
  rewrite !number2_digits by euclid.
  destruct (Z.leb_spec (Z.abs zone / 60) 24); [|euclid].
  destruct (Z.leb_spec (Z.abs zone mod 60) 60); [|euclid].
  cbn [andb].
  destruct (Z.ltb_spec zone 0).
  - change (Ascii.eqb "-" "+") with false. change (Ascii.eqb "-" "-") with true.
    cbv iota. do 2 f_equal. euclid.
  - change (Ascii.eqb "+" "+") with true. cbv iota. do 2 f_equal. euclid.
Qed.

Lemma getnum_digits n rest fixed :
  0 <= n <= 99 ->
  getnum (digit (n / 10) :: digit (n mod 10) :: rest) fixed = Some (n, rest).
Proof.
  intros H. unfold getnum. rewrite !digitValue_digit by euclid. do 2 f_equal. euclid.
Qed.

(** A formatted zone does not begin like a fraction. *)
Lemma parseFraction_formatZone offset :
  parseFraction (formatZone offset) = (0, formatZone offset).
Proof.
  unfold formatZone. destruct (offset =? 0); [reflexivity|].
  destruct (Z.quot offset 60 <? 0); reflexivity.
Qed.

(** Parsing a formatted time gives the instant back at whole seconds, in
    the zone that was printed. *)
Lemma Parse_Format t :
  let offset := zoneOffset (loc t) in
  -62167219200 <= unix t + offset <= 253402300799 ->
  offset mod 60 = 0 ->
  -90000 < offset < 90000 ->
  ParseRFC3339 (FormatRFC3339 t)
    = Some (mkTime (unix t) 0 (if offset =? 0 then UTCLoc else FixedZone offset)).
Proof.
  intros offset Hrange Hmin Hoff.
  unfold FormatRFC3339. fold offset.
  set (abs := unix t + offset) in *.
  destruct (civilFromDays (abs / 86400)) as [[y m] d] eqn:E.
  pose proof (civilFromDays_year _ _ _ _ E) as Hy.
  apply civilFromDays_valid in E as (Hm & Hd & Hdays).
  assert (0 <= y <= 9999) as Hy' by (apply Hy; euclid). clear Hy.
  assert (daysIn m y <= 31) as Hd31.
  { unfold daysIn. destruct (m =? 2); [destruct (isLeap y); lia|].
    destruct (_ || _); lia. }
  set (secs := abs mod 86400).
  assert (0 <= secs < 86400) as Hsecs by (subst secs; euclid).
  unfold ParseRFC3339. rewrite list_ascii_of_string_of_list_ascii.
  unfold formatYear.
  destruct (Z.ltb_spec y 0); [lia|].
  rewrite Z.abs_eq by lia.
  destruct (Z.leb_spec y 9999); [|lia].
  unfold pad4, pad2. cbn [app].
  rewrite number4_digits by lia.
  rewrite !number2_digits by euclid.
  unfold parseClock.
  rewrite (getnum_digits (secs / 3600)) by euclid.
  rewrite (getnum_digits (secs mod 3600 / 60)) by euclid.
  rewrite (getnum_digits (secs mod 60)) by euclid.
  destruct (Z.leb_spec (secs / 3600) 23); [|euclid].
  destruct (Z.leb_spec (secs mod 3600 / 60) 59); [|euclid].
  destruct (Z.leb_spec (secs mod 60) 59); [|euclid].
  cbn [andb]. rewrite parseFraction_formatZone.
  rewrite (parseZone_formatZone offset Hmin Hoff).
  destruct (Z.leb_spec 1 m); [|lia]. destruct (Z.leb_spec m 12); [|lia].
  destruct (Z.leb_spec 1 d); [|lia]. destruct (Z.leb_spec d (daysIn m y)); [|lia].
  cbn [andb]. f_equal. f_equal.
  rewrite Hdays.
  assert (zoneOffset (if offset =? 0 then UTCLoc else FixedZone offset) = offset) as ->
    by (destruct (Z.eqb_spec offset 0); simpl; lia).
  subst secs abs. euclid.
Qed.

End Calendar.

(* ===================================================================== *)
(** * Properties of template compilation                                  *)
(* ===================================================================== *)

Section CompileConfig.

Import JobPluginService.

Lemma compileConfig_length engine configs tnnt :
  length (compileConfig engine configs tnnt) = size configs.
Proof. unfold compileConfig. rewrite length_map. apply length_map_to_list. Qed.

Lemma compileConfig_entry engine configs tnnt key val :
  configs !! key = Some val ->
  compileEntry engine (tenantContext tnnt) (key, val) ∈ compileConfig engine configs tnnt.
Proof.
  intros H. unfold compileConfig.
  apply (list_elem_of_fmap_2 (compileEntry engine (tenantContext tnnt))).
  apply elem_of_map_to_list. exact H.
Qed.

Lemma compileConfigs_surfaces engine configs ctx :
  InputCompiler.compileConfigs engine configs ctx =
    match Compile engine (fst (InputCompiler.splitConfigWithSecrets configs)) ctx with
    | inl err => inl err
    | inr compiledConf =>
        match Compile engine (snd (InputCompiler.splitConfigWithSecrets configs)) ctx with
        | inl err => inl err
        | inr compiledSecrets => inr (compiledConf, compiledSecrets)
        end
    end.
Proof. reflexivity. Qed.

(** C8. [compileConfig] of the plugin service returns a config list and no
    error: it has one entry per config key, and an entry whose template
    fails to compile keeps its template text as value (a successful one
    gets the compiled text).  The other paths surface the failure: in the
    input compiler's [compileConfigs] a failure on the secret partition, as
    one on the plain partition, is the result; in [compileAsset], which
    compiles under the system variables, a failure is returned wrapped. *)
Theorem compileConfig_tolerates_other_paths_surface (engine : Engine) :
  (forall (configs : gmap string string) (tnnt : TenantWithDetails),
     length (compileConfig engine configs tnnt) = size configs /\
     forall key val, configs !! key = Some val ->
       (forall err, CompileString engine val (tenantContext tnnt) = inl err ->
          mkPluginConfig key val ∈ compileConfig engine configs tnnt) /\
       (forall compiled, CompileString engine val (tenantContext tnnt) = inr compiled ->
          mkPluginConfig key compiled ∈ compileConfig engine configs tnnt))
  /\
  (forall (configs : gmap string string) (ctx : Context) (err : error),
     (Compile engine (snd (InputCompiler.splitConfigWithSecrets configs)) ctx = inl err ->
      forall compiledConf,
        Compile engine (fst (InputCompiler.splitConfigWithSecrets configs)) ctx
          = inr compiledConf ->
        InputCompiler.compileConfigs engine configs ctx = inl err) /\
     (Compile engine (fst (InputCompiler.splitConfigWithSecrets configs)) ctx = inl err ->
      InputCompiler.compileConfigs engine configs ctx = inl err))
  /\
  (forall taskPlugin spec GetInterval scheduledAt jobDestination interval err,
     match DependencyModOf taskPlugin with
     | Some dm => GenerateDestination dm (TaskConfig spec) (Asset spec)
     | None => inr ""
     end = inr jobDestination ->
     GetInterval scheduledAt = inr interval ->
     Compile engine (Asset spec) (assetContext interval scheduledAt jobDestination)
       = inl err ->
     compileAsset engine taskPlugin spec GetInterval scheduledAt
       = inl (NewError ("failed to compile templates: " ++ Error err))).
Proof.
  split; [|split].
  - intros configs tnnt. split; [apply compileConfig_length|].
    intros key val Hk. pose proof (compileConfig_entry engine configs tnnt key val Hk) as H.
    unfold compileEntry in H. split.
    + intros err E. rewrite E in H. exact H.
    + intros compiled E. rewrite E in H. exact H.
  - intros configs ctx err. rewrite compileConfigs_surfaces. split.
    + intros Hs compiledConf Hc. rewrite Hc, Hs. reflexivity.
    + intros Hc. rewrite Hc. reflexivity.
  - intros taskPlugin spec GetInterval scheduledAt jobDestination interval err Hd Hi Hc.
    unfold compileAsset. rewrite Hd, Hi, Hc. reflexivity.
Qed.

End CompileConfig.

Section InputCompilerProperties.

Import JobPluginService InputCompiler.

(** ** What a successful compile went through *)

Lemma CompileInput_success deps job config executedAt input :
  CompileInput deps job config executedAt = inr input ->
  exists tenantDetails interval fileMap confs secretConfs,
    let systemDefinedVars := getSystemDefinedConfigs job interval executedAt in
    let taskContext := taskContextOf tenantDetails systemDefinedVars in
    GetDetails deps (JobTenant job) = inr tenantDetails /\
    GetInterval deps job (RunScheduledAt config) = inr interval /\
    CompileJobRunAssets deps job systemDefinedVars interval taskContext = inr fileMap /\
    compileConfigs (engine deps) (TaskConfigOf job) taskContext = inr (confs, secretConfs) /\
    match Type_ (ExecutorOf config) with
    | ExecutorTask =>
        input = mkExecutorInput
                  (MergeMaps [confs; systemDefinedVars;
                              {[JobAttributionLabelsKey := getJobLabelsString job]}])
                  secretConfs fileMap
    | ExecutorHook =>
        exists hook hookConfs hookSecrets,
          GetHook job (ExecutorName (ExecutorOf config)) = inr hook /\
          compileConfigs (engine deps) (HookConfig hook) taskContext
            = inr (hookConfs, hookSecrets) /\
          input = mkExecutorInput (MergeMaps [hookConfs; systemDefinedVars])
                                  hookSecrets fileMap
    end.
Proof.
  unfold CompileInput.
  destruct (GetDetails deps (JobTenant job)) as [?|tenantDetails]; [discriminate|].
  destruct (GetInterval deps job (RunScheduledAt config)) as [?|interval]; [discriminate|].
  destruct (CompileJobRunAssets deps job _ interval _) as [?|fileMap] eqn:Hfiles; [discriminate|].
  destruct (compileConfigs (engine deps) (TaskConfigOf job) _) as [?|[confs secretConfs]] eqn:Htask;
    [discriminate|].
  intros H. exists tenantDetails, interval, fileMap, confs, secretConfs. cbv zeta.
  repeat (split; [first [reflexivity|assumption]|]).
  destruct (Type_ (ExecutorOf config)).
  - injection H as <-. reflexivity.
  - destruct (GetHook job _) as [?|hook]; [discriminate|].
    destruct (compileConfigs (engine deps) (HookConfig hook) _) as [?|[hookConfs hookSecrets]] eqn:Hhook;
      [discriminate|].
    injection H as <-. exists hook, hookConfs, hookSecrets. auto.
Qed.

Lemma compileConfigs_success e configs ctx conf sec :
  compileConfigs e configs ctx = inr (conf, sec) ->
  Compile e (fst (splitConfigWithSecrets configs)) ctx = inr conf /\
  Compile e (snd (splitConfigWithSecrets configs)) ctx = inr sec.
Proof.
  rewrite compileConfigs_surfaces.
  destruct (Compile e (fst _) ctx); [discriminate|].
  destruct (Compile e (snd _) ctx); [discriminate|].
  intros [= <- <-]. auto.
Qed.

Lemma MergeMaps_two (a b : gmap string string) : MergeMaps [a; b] = b ∪ a.
Proof. unfold MergeMaps. simpl. rewrite (right_id ∅ (∪) a). reflexivity. Qed.

Lemma MergeMaps_three (a b c : gmap string string) : MergeMaps [a; b; c] = c ∪ (b ∪ a).
Proof. unfold MergeMaps. simpl. rewrite (right_id ∅ (∪) a). reflexivity. Qed.

Lemma systemDefinedConfigs_dom job interval executedAt :
  dom (getSystemDefinedConfigs job interval executedAt)
    = ({[configKeyDstart; configKeyDend; configKeyExecutionTime; configKeyDestination]}
        : gset string).
Proof.
  unfold getSystemDefinedConfigs. rewrite !dom_insert_L, dom_empty_L.
  apply set_eq. intros k. rewrite !elem_of_union, !elem_of_singleton, elem_of_empty. tauto.
Qed.

Lemma systemDefinedConfigs_execution_time job interval executedAt :
  getSystemDefinedConfigs job interval executedAt !! configKeyExecutionTime
    = Some (FormatRFC3339 executedAt).
Proof. reflexivity. Qed.

(** Under [EXECUTION_TIME] a compiled input holds the formatted
    [executedAt], whatever the compiled configs are. *)
Lemma compiled_execution_time deps job config executedAt input :
  CompileInput deps job config executedAt = inr input ->
  Configs input !! configKeyExecutionTime = Some (FormatRFC3339 executedAt).
Proof.
  intros H. apply CompileInput_success in H
    as (tenantDetails & interval & fileMap & confs & secretConfs & _ & _ & _ & _ & H).
  destruct (Type_ (ExecutorOf config)).
  - subst input. cbn [Configs]. rewrite MergeMaps_three.
    rewrite lookup_union_r by reflexivity.
    apply lookup_union_Some_l. apply systemDefinedConfigs_execution_time.
  - destruct H as (hook & hookConfs & hookSecrets & _ & _ & ->). cbn [Configs].
    rewrite MergeMaps_two. apply lookup_union_Some_l.
    apply systemDefinedConfigs_execution_time.
Qed.

(** ** The config partition *)

Lemma split_lookup_plain conf k v :
  fst (splitConfigWithSecrets conf) !! k = Some v <->
  conf !! k = Some v /\ isSecretEntry k v = false.
Proof. unfold splitConfigWithSecrets. cbn [fst]. apply map_lookup_filter_Some. Qed.

Lemma split_lookup_secret conf k v :
  snd (splitConfigWithSecrets conf) !! k = Some v <->
  conf !! k = Some v /\ isSecretEntry k v = true.
Proof. unfold splitConfigWithSecrets. cbn [snd]. apply map_lookup_filter_Some. Qed.

Lemma split_disjoint conf :
  fst (splitConfigWithSecrets conf) ##ₘ snd (splitConfigWithSecrets conf).
Proof.
  apply map_disjoint_spec. intros k v1 v2 H1 H2.
  apply split_lookup_plain in H1 as [H1 Hp]. apply split_lookup_secret in H2 as [H2 Hs].
  congruence.
Qed.

Lemma split_union conf :
  fst (splitConfigWithSecrets conf) ∪ snd (splitConfigWithSecrets conf) = conf.
Proof.
  apply map_eq. intros k. apply option_eq. intros v.
  rewrite lookup_union_Some by apply split_disjoint.
  rewrite split_lookup_plain, split_lookup_secret.
  destruct (isSecretEntry k v); intuition congruence.
Qed.

Lemma split_dom_disjoint conf :
  dom (fst (splitConfigWithSecrets conf)) ## dom (snd (splitConfigWithSecrets conf)).
Proof. apply map_disjoint_dom, split_disjoint. Qed.

End InputCompilerProperties.

Section Partition.

Import JobPluginService InputCompiler.

Lemma isSecretEntry_true key val :
  isSecretEntry key val = true <->
  Text.HasPrefix (Text.ToLower key) "secret" = true \/ Text.Contains val "secret." = true.
Proof. unfold isSecretEntry. apply orb_true_iff. Qed.

Lemma split_secret_keys conf k :
  k ∈ dom (snd (splitConfigWithSecrets conf)) <->
  exists v, conf !! k = Some v /\
            (Text.HasPrefix (Text.ToLower k) "secret" = true \/
             Text.Contains v "secret." = true).
Proof.
  rewrite elem_of_dom. unfold is_Some.
  setoid_rewrite split_lookup_secret. setoid_rewrite isSecretEntry_true. reflexivity.
Qed.

(** What a successful compile made of the active config map: the two parts
    it was split in, each compiled by the engine under the same context,
    and the keys of the configs it answers. *)
Lemma CompileInput_parts deps job config executedAt input active :
  CompileInput deps job config executedAt = inr input ->
  activeConfig job config = Some active ->
  exists ctx compiledPlain,
    Compile (engine deps) (fst (splitConfigWithSecrets active)) ctx = inr compiledPlain /\
    Compile (engine deps) (snd (splitConfigWithSecrets active)) ctx = inr (Secrets input) /\
    dom (Configs input) = dom compiledPlain ∪ ownKeys (Type_ (ExecutorOf config)).
Proof.
  intros Hcompile Hactive.
  apply CompileInput_success in Hcompile
    as (tenantDetails & interval & fileMap & confs & secretConfs & _ & _ & _ & Htask & H).
  unfold activeConfig in Hactive.
  destruct (Type_ (ExecutorOf config)).
  - injection Hactive as <-. subst input. cbn [Configs Secrets].
    apply compileConfigs_success in Htask as [Hp Hs].
    eexists _, confs. split; [exact Hp|]. split; [exact Hs|].
    rewrite MergeMaps_three, !dom_union_L, systemDefinedConfigs_dom, dom_singleton_L.
    unfold ownKeys, systemKeys. apply set_eq. intros k.
    rewrite !elem_of_union, !elem_of_singleton. tauto.
  - destruct H as (hook & hookConfs & hookSecrets & Hhook & Hcfg & ->).
    rewrite Hhook in Hactive. injection Hactive as <-. cbn [Configs Secrets].
    apply compileConfigs_success in Hcfg as [Hp Hs].
    eexists _, hookConfs. split; [exact Hp|]. split; [exact Hs|].
    rewrite MergeMaps_two, !dom_union_L, systemDefinedConfigs_dom.
    unfold ownKeys. apply set_eq. intros k.
    rewrite !elem_of_union, !elem_of_singleton. tauto.
Qed.

(** C4 (as amended). On a successful compile the active config map is
    split in two maps with disjoint keys that together make up the map; the
    secret part holds the entries whose key begins with [secret]
    (case-insensitive) or whose value holds a secret lookup (the text
    [secret.]), the plain part the others.  Each part is compiled on its
    own under the same context; the compiled secrets are
    [ExecutorInput.secrets], and the keys of [ExecutorInput.configs] are
    those of the compiled plain part and those the compiler adds itself
    ([DSTART], [DEND], [EXECUTION_TIME], [JOB_DESTINATION], and
    [JOB_LABELS] for a task).  When the template engine answers no key it
    was not given and no secret entry is named like a key the compiler
    adds, the keys of [ExecutorInput.configs] and of
    [ExecutorInput.secrets] are disjoint. *)
Theorem compile_partitions_active_config
    (deps : Deps) (job : Job) (config : RunConfig) (executedAt : Time)
    (input : ExecutorInput) (active : gmap string string) :
  CompileInput deps job config executedAt = inr input ->
  activeConfig job config = Some active ->
  exists (plain secret : gmap string string) ctx compiledPlain,
    plain ∪ secret = active /\
    dom plain ## dom secret /\
    (forall k, k ∈ dom secret <->
       exists v, active !! k = Some v /\
                 (Text.HasPrefix (Text.ToLower k) "secret" = true \/
                  Text.Contains v "secret." = true)) /\
    Compile (engine deps) plain ctx = inr compiledPlain /\
    Compile (engine deps) secret ctx = inr (Secrets input) /\
    dom (Configs input) = dom compiledPlain ∪ ownKeys (Type_ (ExecutorOf config)) /\
    (keepsKeys (engine deps) ->
     dom secret ## ownKeys (Type_ (ExecutorOf config)) ->
     dom (Configs input) ## dom (Secrets input)).
Proof.
  intros Hcompile Hactive.
  destruct (CompileInput_parts _ _ _ _ _ _ Hcompile Hactive)
    as (ctx & compiledPlain & Hp & Hs & Hdom).
  exists (fst (splitConfigWithSecrets active)), (snd (splitConfigWithSecrets active)),
         ctx, compiledPlain.
  split; [apply split_union|]. split; [apply split_dom_disjoint|].
  split; [apply split_secret_keys|].
  split; [exact Hp|]. split; [exact Hs|]. split; [exact Hdom|].
  intros Hkeys Hown.
  apply Hkeys in Hp. apply Hkeys in Hs.
  pose proof (split_dom_disjoint active) as Hdisj.
  apply elem_of_disjoint. intros k Hconf Hsec.
  apply Hs in Hsec. rewrite Hdom in Hconf. apply elem_of_union in Hconf as [Hconf|Hconf].
  - apply Hp in Hconf. exact (proj1 (elem_of_disjoint _ _) Hdisj k Hconf Hsec).
  - exact (proj1 (elem_of_disjoint _ _) Hown k Hsec Hconf).
Qed.

(** C4, as stated, fails in three ways.

    - Classification by the key alone: the hook test.  With the template
      compiler of the test the compile answers the input the test expects,
      whose secrets the compiler returns for the map
      [hook_secret: a.secret.val] only; the key [hook_secret] does not
      begin with [secret].
    - Disjoint keys: a task config [DSTART: a.secret.val] is a secret by
      its value, and an engine that leaves every map as it is answers it
      under [DSTART], the key of a system variable in the configs.
    - Disjoint keys again: an engine is free to rename the keys (the one of
      the tests does), and one that answers both parts under one key puts
      that key into the configs and into the secrets. *)
Lemma compile_does_not_partition_by_key :
  (CompileInput (CompilerSamples.depsWith CompilerSamples.mockEngine)
     CompilerSamples.job1 CompilerSamples.hookRun CompilerSamples.wholeSecond
   = inr (mkExecutorInput
            (<["DSTART" := "2023-11-12T21:13:20Z"]>
             (<["DEND" := "2023-11-14T21:13:20Z"]>
             (<["EXECUTION_TIME" := "2023-11-14T22:13:20Z"]>
             (<["JOB_DESTINATION" := "some_destination_table_name"]>
             {["hook.compiled" := "hook.val.compiled"]}))))
            {["secret.hook.compiled" := "hook.s.val.compiled"]}
            {["someFileName" := "fileContents"]}) /\
   (forall m ctx,
      Compile CompilerSamples.mockEngine m ctx
        = inr {["secret.hook.compiled" := "hook.s.val.compiled"]} ->
      m = {["hook_secret" := "a.secret.val"]}) /\
   Text.HasPrefix (Text.ToLower "hook_secret") "secret" = false)
  /\
  (exists input,
     CompileInput CompilerSamples.deps1 CompilerSamples.shadowingJob
       CompilerSamples.taskRun CompilerSamples.wholeSecond = inr input /\
     keepsKeys (engine CompilerSamples.deps1) /\
     Configs input !! "DSTART" = Some "2023-11-12T21:13:20Z" /\
     Secrets input !! "DSTART" = Some "a.secret.val")
  /\
  (exists input,
     CompileInput (CompilerSamples.depsWith CompilerSamples.constantEngine)
       CompilerSamples.job1 CompilerSamples.taskRun CompilerSamples.wholeSecond
     = inr input /\
     Configs input !! "compiled" = Some "value" /\
     Secrets input !! "compiled" = Some "value").
Proof.
  split; [split; [|split]|split].
  - vm_compute. reflexivity.
  - intros m ctx. unfold CompilerSamples.mockEngine. cbn [Compile].
    repeat case_decide; intros Hm;
      first [assumption
            |discriminate Hm
            |injection Hm as Hm;
             apply (f_equal (fun x : gmap string string => x !! "secret.hook.compiled")) in Hm;
             vm_compute in Hm; discriminate Hm].
  - reflexivity.
  - eexists. split; [reflexivity|]. split; [|split; reflexivity].
    intros m m' ctx [= <-]. reflexivity.
  - eexists. split; [reflexivity|]. split; reflexivity.
Qed.

(** The partitions the tests expect the template compiler to be called
    with. *)
Example split_of_hook_config :
  map_to_list (fst (splitConfigWithSecrets
                      (<["hook_secret" := "a.secret.val"]>
                         (<["hook_some_config" := "val"]> ∅))))
    = [("hook_some_config", "val")] /\
  map_to_list (snd (splitConfigWithSecrets
                      (<["hook_secret" := "a.secret.val"]>
                         (<["hook_some_config" := "val"]> ∅))))
    = [("hook_secret", "a.secret.val")].
Proof. split; vm_compute; reflexivity. Qed.

Example split_of_task_config :
  map_to_list (fst (splitConfigWithSecrets
                      (<["secret.config" := "a.secret.val"]>
                         (<["some.config" := "val"]> ∅))))
    = [("some.config", "val")] /\
  map_to_list (snd (splitConfigWithSecrets
                      (<["secret.config" := "a.secret.val"]>
                         (<["some.config" := "val"]> ∅))))
    = [("secret.config", "a.secret.val")].
Proof. split; vm_compute; reflexivity. Qed.

End Partition.

Lemma compile_partitions_active_config_witness :
  exists input,
    InputCompiler.CompileInput CompilerSamples.deps1 CompilerSamples.job1
      CompilerSamples.hookRun CompilerSamples.wholeSecond = inr input /\
    InputCompiler.activeConfig CompilerSamples.job1 CompilerSamples.hookRun
      = Some CompilerSamples.hookConfig /\
    dom (InputCompiler.Configs input) ## dom (InputCompiler.Secrets input).
Proof.
  eexists. split; [reflexivity|]. split; [reflexivity|].
  destruct (compile_partitions_active_config CompilerSamples.deps1 CompilerSamples.job1
              CompilerSamples.hookRun CompilerSamples.wholeSecond _
              CompilerSamples.hookConfig eq_refl eq_refl)
    as (plain & secret & ctx & compiledPlain & _ & _ & Hsecret & _ & _ & _ & Hdisjoint).
  apply Hdisjoint.
  - intros m m' ctx' [= <-]. reflexivity.
  - apply elem_of_disjoint. intros k Hk Hown.
    apply Hsecret in Hk as (v & Hv & _).
    cbn [InputCompiler.ownKeys InputCompiler.Type_ InputCompiler.ExecutorOf
         CompilerSamples.hookRun] in Hown.
    rewrite !elem_of_union, !elem_of_singleton in Hown.
    destruct Hown as [[[-> | ->] | ->] | ->]; vm_compute in Hv; discriminate Hv.
Defined.

Section Labels.

Import InputCompiler.

Lemma list_ascii_length s : length (list_ascii_of_string s) = String.length s.
Proof. induction s as [|c s IH]; simpl; [reflexivity|now rewrite IH]. Qed.

Lemma string_of_list_length l : String.length (string_of_list_ascii l) = length l.
Proof. induction l as [|c l IH]; simpl; [reflexivity|now rewrite IH]. Qed.

Lemma ToLower_length s : String.length (Text.ToLower s) = String.length s.
Proof.
  unfold Text.ToLower. rewrite string_of_list_length, length_map. apply list_ascii_length.
Qed.

Lemma cleanLabel_length name : length (cleanLabel name) = String.length name.
Proof.
  unfold cleanLabel. rewrite length_map, list_ascii_length. apply ToLower_length.
Qed.

Lemma cleanLabel_chars name : forallb isLabelChar (cleanLabel name) = true.
Proof.
  unfold cleanLabel. apply forallb_forall. intros c Hc.
  apply in_map_iff in Hc as (c0 & <- & _).
  destruct (isLabelChar c0) eqn:E; [exact E|reflexivity].
Qed.

Lemma forallb_drop {A} (p : A -> bool) n l :
  forallb p l = true -> forallb p (drop n l) = true.
Proof.
  revert n. induction l as [|x l IH]; intros [|n] H; simpl in *; try assumption.
  apply andb_true_iff in H as [_ H]. apply IH, H.
Qed.

(** The label of a task input is at [JOB_LABELS], and the job-name label
    is one of its comma-separated parts. *)
Lemma task_input_labels deps job config executedAt input :
  Type_ (ExecutorOf config) = ExecutorTask ->
  CompileInput deps job config executedAt = inr input ->
  Configs input !! JobAttributionLabelsKey = Some (getJobLabelsString job).
Proof.
  intros Htask H. apply CompileInput_success in H
    as (tenantDetails & interval & fileMap & confs & secretConfs & _ & _ & _ & _ & H).
  rewrite Htask in H. subst input. cbn [Configs]. rewrite MergeMaps_three.
  apply lookup_union_Some_l. apply lookup_singleton_eq.
Qed.

(** C3 (as amended). The job-name label of [JOB_LABELS] is the job name
    lowercased with every character outside [a-z0-9-] replaced by [-],
    when the name has at most 63 characters; it then matches
    [^[a-z0-9-]{1,63}$] unless the name is empty.  A longer name is not
    truncated to its first 63 characters: the label is [__] followed by the
    last 61 characters of the cleaned name, 63 characters that do not match
    the pattern. *)
Theorem job_name_label_sanitised (name : string) :
  length (cleanLabel name) = String.length name /\
  forallb isLabelChar (cleanLabel name) = true /\
  ((1 <= String.length name <= 63)%nat ->
     sanitiseLabel name = string_of_list_ascii (cleanLabel name) /\
     matchesLabelPattern (sanitiseLabel name) = true) /\
  ((63 < String.length name)%nat ->
     sanitiseLabel name =
       string_of_list_ascii
         ("_"%char :: "_"%char :: drop (String.length name - 61) (cleanLabel name)) /\
     String.length (sanitiseLabel name) = 63%nat /\
     forallb isLabelChar (drop (String.length name - 61) (cleanLabel name)) = true /\
     matchesLabelPattern (sanitiseLabel name) = false) /\
  (forall deps job config executedAt input,
     Name job = name ->
     Type_ (ExecutorOf config) = ExecutorTask ->
     CompileInput deps job config executedAt = inr input ->
     Configs input !! JobAttributionLabelsKey
       = Some (String.concat ","
                 ["project=" ++ ProjectName (JobTenant job);
                  "namespace=" ++ NamespaceName (JobTenant job);
                  "job_name=" ++ sanitiseLabel name;
                  "job_id=" ++ JobID job])).
Proof.
  pose proof (cleanLabel_length name) as Hlen.
  pose proof (cleanLabel_chars name) as Hchars.
  split; [exact Hlen|]. split; [exact Hchars|]. split; [|split].
  - intros Hn. unfold sanitiseLabel, maxLabelLength. rewrite Hlen.
    destruct (Nat.ltb_spec 63 (String.length name)) as [?|_]; [lia|].
    split; [reflexivity|].
    unfold matchesLabelPattern. rewrite list_ascii_of_string_of_list_ascii, Hlen, Hchars.
    destruct (Nat.leb_spec 1 (String.length name)); [|lia].
    destruct (Nat.leb_spec (String.length name) 63); [reflexivity|lia].
  - intros Hn. unfold sanitiseLabel, maxLabelLength. rewrite Hlen.
    destruct (Nat.ltb_spec 63 (String.length name)) as [_|?]; [|lia].
    split; [reflexivity|]. split; [|split].
    + rewrite string_of_list_length. cbn [length]. rewrite length_drop, Hlen. lia.
    + apply forallb_drop, Hchars.
    + unfold matchesLabelPattern. rewrite list_ascii_of_string_of_list_ascii.
      cbn [forallb]. replace (isLabelChar "_") with false by reflexivity.
      rewrite andb_false_r. reflexivity.
  - intros deps job config executedAt input <- Htask H.
    apply (task_input_labels deps job config executedAt input Htask H).
Qed.

(** C3, as stated, fails at the job name of the test: its label begins
    with two underscores. *)
Lemma long_job_name_label_breaks_pattern :
  ~ (forall name : string, matchesLabelPattern (sanitiseLabel name) = true).
Proof.
  intros H. specialize (H CompilerSamples.longJobName). vm_compute in H. discriminate H.
Qed.

(** The label the test expects for that name. *)
Example label_of_long_job_name :
  sanitiseLabel CompilerSamples.longJobName
    = "__h-invalid-characters--which-are-even-longerthan-63charancters".
Proof. vm_compute. reflexivity. Qed.

End Labels.

Section ExecutionTime.

Import JobPluginService InputCompiler.

Lemma Equal_refl_instant t u :
  unix t = unix u -> nsec t = nsec u -> Equal t u = true.
Proof.
  intros H1 H2. unfold Equal. rewrite H1, H2, !Z.eqb_refl. reflexivity.
Qed.

(** C9 (as amended). After a successful compile, [configs[EXECUTION_TIME]]
    is [executedAt] in RFC3339, a timestamp of whole seconds: it parses back
    to [executedAt] truncated to the second, so to the instant of
    [executedAt] exactly when that has no sub-second part.  This is for an
    [executedAt] whose year, in its own zone, is 0 to 9999 and whose zone
    offset is a whole number of minutes below 25 hours: what the layout
    prints and the parser takes back. *)
Theorem execution_time_parses_back_to_the_second
    (deps : Deps) (job : Job) (config : RunConfig) (executedAt : Time)
    (input : ExecutorInput) :
  CompileInput deps job config executedAt = inr input ->
  -62167219200 <= unix executedAt + zoneOffset (loc executedAt) <= 253402300799 ->
  zoneOffset (loc executedAt) mod 60 = 0 ->
  -90000 < zoneOffset (loc executedAt) < 90000 ->
  exists parsed,
    Configs input !! configKeyExecutionTime = Some (FormatRFC3339 executedAt) /\
    ParseRFC3339 (FormatRFC3339 executedAt) = Some parsed /\
    Equal parsed (truncateToSecond executedAt) = true /\
    (nsec executedAt = 0 -> Equal parsed executedAt = true) /\
    (nsec executedAt <> 0 -> Equal parsed executedAt = false).
Proof.
  intros Hcompile Hrange Hmin Hoff.
  eexists. split; [apply (compiled_execution_time _ _ _ _ _ Hcompile)|].
  split; [apply (Parse_Format executedAt Hrange Hmin Hoff)|].
  split; [apply Equal_refl_instant; reflexivity|]. split.
  - intros Hn. apply Equal_refl_instant; [reflexivity|]. simpl. lia.
  - intros Hn. unfold Equal. cbn [unix nsec]. rewrite Z.eqb_refl. cbn [andb].
    apply Z.eqb_neq. lia.
Qed.

Lemma execution_time_parses_back_to_the_second_witness :
  exists input parsed,
    CompileInput CompilerSamples.deps1 CompilerSamples.job1 CompilerSamples.taskRun
      CompilerSamples.wholeSecond = inr input /\
    Configs input !! configKeyExecutionTime = Some "2023-11-14T22:13:20Z" /\
    ParseRFC3339 "2023-11-14T22:13:20Z" = Some parsed /\
    Equal parsed CompilerSamples.wholeSecond = true.
Proof.
  eexists.
  destruct (execution_time_parses_back_to_the_second
              CompilerSamples.deps1 CompilerSamples.job1 CompilerSamples.taskRun
              CompilerSamples.wholeSecond _ eq_refl)
    as (parsed & Htext & Hparse & _ & Hexact & _);
    [vm_compute; split; discriminate|reflexivity|vm_compute; split; reflexivity|].
  exists parsed. split; [reflexivity|]. split; [exact Htext|].
  split; [exact Hparse|]. apply Hexact. reflexivity.
Defined.

(** C9, as stated, fails: the layout has no fractional seconds.  An
    [executedAt] half a second past the second is stored as the second and
    parses back to it, an instant half a second earlier.  And each bound of
    the amended statement is needed, also for an [executedAt] of whole
    seconds: the year 10000 is stored as a text that does not parse, a zone
    offset with seconds is stored without them and parses to an instant
    seconds away, and an offset of 25 hours is stored as a zone that does
    not parse. *)
Lemma execution_time_does_not_parse_back_exactly :
  ~ (forall deps job config executedAt input,
       CompileInput deps job config executedAt = inr input ->
       exists text parsed,
         Configs input !! configKeyExecutionTime = Some text /\
         ParseRFC3339 text = Some parsed /\
         Equal parsed executedAt = true) /\
  ~ (forall deps job config executedAt input,
       CompileInput deps job config executedAt = inr input ->
       nsec executedAt = 0 ->
       zoneOffset (loc executedAt) mod 60 = 0 ->
       -90000 < zoneOffset (loc executedAt) < 90000 ->
       exists text parsed,
         Configs input !! configKeyExecutionTime = Some text /\
         ParseRFC3339 text = Some parsed /\
         Equal parsed executedAt = true) /\
  ~ (forall deps job config executedAt input,
       CompileInput deps job config executedAt = inr input ->
       nsec executedAt = 0 ->
       -62167219200 <= unix executedAt + zoneOffset (loc executedAt) <= 253402300799 ->
       -90000 < zoneOffset (loc executedAt) < 90000 ->
       exists text parsed,
         Configs input !! configKeyExecutionTime = Some text /\
         ParseRFC3339 text = Some parsed /\
         Equal parsed executedAt = true) /\
  ~ (forall deps job config executedAt input,
       CompileInput deps job config executedAt = inr input ->
       nsec executedAt = 0 ->
       -62167219200 <= unix executedAt + zoneOffset (loc executedAt) <= 253402300799 ->
       zoneOffset (loc executedAt) mod 60 = 0 ->
       exists text parsed,
         Configs input !! configKeyExecutionTime = Some text /\
         ParseRFC3339 text = Some parsed /\
         Equal parsed executedAt = true).
Proof.
  repeat split; intros H.
  - destruct (H CompilerSamples.deps1 CompilerSamples.job1 CompilerSamples.taskRun
                CompilerSamples.halfPastSecond _ eq_refl)
      as (text & parsed & Htext & Hparse & Heq).
    vm_compute in Htext. injection Htext as <-.
    vm_compute in Hparse. injection Hparse as <-.
    vm_compute in Heq. discriminate Heq.
  - destruct (H CompilerSamples.deps1 CompilerSamples.job1 CompilerSamples.taskRun
                CompilerSamples.yearTenThousand _ eq_refl eq_refl eq_refl)
      as (text & parsed & Htext & Hparse & _); [vm_compute; split; reflexivity|].
    vm_compute in Htext. injection Htext as <-.
    vm_compute in Hparse. discriminate Hparse.
  - destruct (H CompilerSamples.deps1 CompilerSamples.job1 CompilerSamples.taskRun
                CompilerSamples.zoneWithSeconds _ eq_refl eq_refl)
      as (text & parsed & Htext & Hparse & Heq);
      [vm_compute; split; discriminate|vm_compute; split; reflexivity|].
    vm_compute in Htext. injection Htext as <-.
    vm_compute in Hparse. injection Hparse as <-.
    vm_compute in Heq. discriminate Heq.
  - destruct (H CompilerSamples.deps1 CompilerSamples.job1 CompilerSamples.taskRun
                CompilerSamples.zoneBeyondADay _ eq_refl eq_refl)
      as (text & parsed & Htext & Hparse & _);
      [vm_compute; split; discriminate|reflexivity|].
    vm_compute in Htext. injection Htext as <-.
    vm_compute in Hparse. discriminate Hparse.
Qed.

(** What is stored for these instants. *)
Example timestamps_out_of_bounds :
  FormatRFC3339 CompilerSamples.yearTenThousand = "10000-01-01T00:00:00Z" /\
  FormatRFC3339 CompilerSamples.zoneWithSeconds = "2023-11-15T03:43:27+05:30" /\
  FormatRFC3339 CompilerSamples.zoneBeyondADay = "2023-11-15T23:13:20+25:00" /\
  ParseRFC3339 "2023-11-14T22:13:20.5Z" = Some CompilerSamples.halfPastSecond.
Proof. repeat split; vm_compute; reflexivity. Qed.

(** Two instants of the same second have the same timestamp. *)
Example same_timestamp_within_a_second :
  FormatRFC3339 CompilerSamples.halfPastSecond = "2023-11-14T22:13:20Z" /\
  FormatRFC3339 CompilerSamples.wholeSecond = "2023-11-14T22:13:20Z".
Proof. split; vm_compute; reflexivity. Qed.

End ExecutionTime.

Lemma compileConfig_tolerates_other_paths_surface_witness :
  JobPluginService.mkPluginConfig "secret.config" "a.secret.val"
    ∈ JobPluginService.compileConfig CompilerSamples.strictEngine
        CompilerSamples.taskConfig CompilerSamples.tenantDetails /\
  JobPluginService.mkPluginConfig "some.config" "val"
    ∈ JobPluginService.compileConfig CompilerSamples.strictEngine
        CompilerSamples.taskConfig CompilerSamples.tenantDetails.
Proof.
  destruct (compileConfig_tolerates_other_paths_surface CompilerSamples.strictEngine)
    as [Htolerant _].
  destruct (Htolerant CompilerSamples.taskConfig CompilerSamples.tenantDetails) as [_ Hentry].
  split.
  - apply (Hentry "secret.config" "a.secret.val" eq_refl) with (err := NewError "no such secret").
    reflexivity.
  - apply (Hentry "some.config" "val" eq_refl). reflexivity.
Defined.

Lemma job_name_label_sanitised_witness :
  InputCompiler.sanitiseLabel "Job_1.daily" = "job-1-daily" /\
  InputCompiler.matchesLabelPattern (InputCompiler.sanitiseLabel "Job_1.daily") = true.
Proof.
  destruct (job_name_label_sanitised "Job_1.daily") as (_ & _ & Hshort & _).
  destruct Hshort as [Heq Hmatch]; [simpl; lia|].
  split; [rewrite Heq; reflexivity|exact Hmatch].
Defined.

(* ===================================================================== *)
(** * The worker as a state machine                                       *)
(* ===================================================================== *)

(** ** Computations that do not write *)

Lemma yielding_ret {A} (P : A -> Prop) a : P a -> yielding P (ret a).
Proof. intros H s res s' [= <- <-]. repeat split. intros b [= <-]. exact H. Qed.

Lemma yielding_fail {A} (P : A -> Prop) e : yielding P (fail e).
Proof. intros s res s' [= <- <-]. repeat split. discriminate. Qed.

Lemma yielding_panic {A} (P : A -> Prop) : yielding P panic.
Proof. intros s res s' [= <- <-]. repeat split. discriminate. Qed.

Lemma yielding_bind {A B} (P : A -> Prop) (Q : B -> Prop) (m : M A) (k : A -> M B) :
  yielding P m -> (forall a, P a -> yielding Q (k a)) -> yielding Q (bind m k).
Proof.
  intros Hm Hk s res s'. unfold bind.
  destruct (m s) as [[a|e|] s1] eqn:E; destruct (Hm _ _ _ E) as (Hr & Hmet & Hp).
  - intros H. destruct (Hk a (Hp a eq_refl) _ _ _ H) as (Hr' & Hmet' & Hq).
    repeat split; [congruence|congruence|exact Hq].
  - intros [= <- <-]. repeat split; [assumption|assumption|discriminate].
  - intros [= <- <-]. repeat split; [assumption|assumption|discriminate].
Qed.

Lemma yielding_weaken {A} (P Q : A -> Prop) (m : M A) :
  (forall a, P a -> Q a) -> yielding P m -> yielding Q m.
Proof.
  intros HPQ Hm s res s' E. destruct (Hm _ _ _ E) as (Hr & Hmet & Hp).
  repeat split; [assumption|assumption|]. intros a Ha. apply HPQ, Hp, Ha.
Qed.

Lemma persisting_bind {A} r (P : A -> Prop) Q (m : M A) (k : A -> M unit) :
  yielding P m -> (forall a, P a -> persisting r Q (k a)) -> persisting r Q (bind m k).
Proof.
  intros Hm Hk s res s'. unfold bind.
  destruct (m s) as [[a|e|] s1] eqn:E; destruct (Hm _ _ _ E) as (Hr & Hmet & Hp).
  - intros H. destruct (Hk a (Hp a eq_refl) _ _ _ H) as [(Hne & Hr' & Hmet')|(-> & st & runs & msg & HQ & Hrow & Hmet')].
    + left. repeat split; [assumption|congruence|congruence].
    + right. split; [reflexivity|]. exists st, runs, msg. rewrite <- Hmet. auto.
  - intros [= <- <-]. left. repeat split; [discriminate|assumption|assumption].
  - intros [= <- <-]. left. repeat split; [discriminate|assumption|assumption].
Qed.

Lemma persisting_weaken r (Q Q' : ReplayState -> list JobRunStatus -> string -> Prop) m :
  (forall st runs msg, Q st runs msg -> Q' st runs msg) ->
  persisting r Q m -> persisting r Q' m.
Proof.
  intros HQ Hm s res s' E.
  destruct (Hm _ _ _ E) as [H|(-> & st & runs & msg & H & Hrest)]; [left; exact H|].
  right. split; [reflexivity|]. exists st, runs, msg. split; [apply HQ, H|exact Hrest].
Qed.

Section Quiet.

Variable w : ReplayWorker.

Lemma persisting_write r (Q : ReplayState -> list JobRunStatus -> string -> Prop) st runs msg :
  Q st runs msg ->
  persisting r Q (bind (repoUpdateReplay w st runs msg)
                       (fun _ => raiseReplayMetric (ReplayTenant r) (JobName r) st)).
Proof.
  intros HQ s res s'. unfold bind, repoUpdateReplay, raiseReplayMetric.
  destruct (UpdateReplayErr w).
  - intros [= <- <-]. left. repeat split. discriminate.
  - intros [= <- <-]. right. split; [reflexivity|]. exists st, runs, msg. auto.
Qed.

Lemma schedGetJobRuns_yields a b P :
  (forall runs, GetJobRuns w a b = inr runs -> P runs) ->
  yielding P (schedGetJobRuns w a b).
Proof.
  intros H s res s' [= <- <-]. repeat split. intros runs E. apply H.
  destruct (GetJobRuns w a b); [discriminate|]. injection E as ->. reflexivity.
Qed.

Lemma quiet_unit (m : M unit) :
  (forall s res s', m s = (res, s') -> row s' = row s /\ metrics s' = metrics s) ->
  yielding (fun _ => True) m.
Proof. intros H s res s' E. destruct (H _ _ _ E). auto. Qed.

Lemma schedClear_quiet t : yielding (fun _ => True) (schedClear w t).
Proof. apply quiet_unit. intros s res s' [= <- <-]. auto. Qed.

Lemma schedClearBatch_quiet a b : yielding (fun _ => True) (schedClearBatch w a b).
Proof. apply quiet_unit. intros s res s' [= <- <-]. auto. Qed.

Lemma schedCreateRun_quiet t p : yielding (fun _ => True) (schedCreateRun w t p).
Proof. apply quiet_unit. intros s res s' [= <- <-]. auto. Qed.

Lemma fetchRuns_yields req P :
  (forall runs,
     GetJobRuns w (StartTime (Config (ReplayOf req))) (EndTime (Config (ReplayOf req)))
       = inr runs -> P runs) ->
  yielding P (fetchRuns w req).
Proof. apply schedGetJobRuns_yields. Qed.

Lemma fetchRun_quiet req t : yielding (fun _ => True) (fetchRun w req t).
Proof.
  unfold fetchRun.
  apply (yielding_bind (fun _ => True)); [apply schedGetJobRuns_yields; auto|].
  intros [|x l] _; [apply yielding_fail|apply yielding_ret; exact I].
Qed.

Lemma createRuns_quiet cron l me s :
  row (snd (createRuns w cron l me s)) = row s /\
  metrics (snd (createRuns w cron l me s)) = metrics s.
Proof.
  revert me s. induction l as [|run rest IH]; intros me s; simpl; [auto|].
  unfold schedCreateRun.
  destruct (ofOption _ _);
    match goal with
    | |- context [createRuns w cron rest ?m ?t] =>
        destruct (IH m t) as [-> ->]; auto
    end.
Qed.

Lemma createMissingRuns_quiet req cron :
  yielding (fun _ => True) (createMissingRuns w req cron).
Proof.
  unfold createMissingRuns.
  apply (yielding_bind (fun _ => True)); [apply fetchRuns_yields; auto|].
  intros existed _. apply quiet_unit. intros s res s'. cbv beta zeta.
  pose proof (createRuns_quiet cron (getMissingRuns (Runs req) existed) [] s) as H.
  destruct (createRuns _ _ _ _ _) as [me s1]. intros [= <- <-]. exact H.
Qed.

Lemma replayRunOnScheduler_quiet req cron run :
  yielding (fun _ => True) (replayRunOnScheduler w req cron run).
Proof.
  apply quiet_unit. intros s res s'. unfold replayRunOnScheduler.
  destruct (fetchRun w req (ScheduledAt run) s) as [[a|e|] s1] eqn:E;
    destruct (fetchRun_quiet _ _ _ _ _ E) as (Hr & Hm & _).
  - intros H. destruct (schedClear_quiet _ _ _ _ H) as (Hr' & Hm' & _). split; congruence.
  - destruct (IsErrNotFound e).
    + intros H. destruct (schedCreateRun_quiet _ _ _ _ _ H) as (Hr' & Hm' & _). split; congruence.
    + intros [= <- <-]. auto.
  - intros [= <- <-]. auto.
Qed.

(** *** What each step writes *)

Lemma processNewReplayRequestParallel_yields req cron :
  Parallel (Config (ReplayOf req)) = true ->
  yielding (createdWrites req) (processNewReplayRequestParallel w req cron).
Proof.
  intros Hpar. unfold processNewReplayRequestParallel.
  destruct (GetFirstExecutableRun req); [|apply yielding_panic].
  destruct (GetLastExecutableRun req); [|apply yielding_panic].
  apply (yielding_bind (fun _ => True)); [apply schedClearBatch_quiet|]. intros _ _.
  apply (yielding_bind (fun _ => True)); [apply createMissingRuns_quiet|]. intros _ _.
  apply yielding_ret. unfold createdWrites. rewrite Hpar. reflexivity.
Qed.

Lemma processNewReplayRequestSequential_yields req cron :
  Parallel (Config (ReplayOf req)) = false ->
  yielding (createdWrites req) (processNewReplayRequestSequential w req cron).
Proof.
  intros Hseq. unfold processNewReplayRequestSequential, createdWrites. rewrite Hseq.
  destruct (GetFirstExecutableRun req) as [run|]; [|apply yielding_ret; reflexivity].
  apply (yielding_bind (fun _ => True)); [apply replayRunOnScheduler_quiet|]. intros _ _.
  apply yielding_ret. reflexivity.
Qed.

Lemma nat_Z_ltb n : (1 <? Z.of_nat n) = (1 <? n)%nat.
Proof. destruct (Z.ltb_spec 1 (Z.of_nat n)); destruct (Nat.ltb_spec 1 n); try reflexivity; lia. Qed.

Lemma list_nil_count st runs :
  match GetSortedRunsByStates runs [st] with
  | [] => countState st runs = 0%nat
  | _ :: _ => countState st runs <> 0%nat
  end.
Proof.
  rewrite <- GetSortedRunsByStates_length.
  destruct (GetSortedRunsByStates runs [st]); simpl; [reflexivity|discriminate].
Qed.

Lemma dispatch_persists req cron :
  terminal (ReplayStateOf (ReplayOf req)) = false ->
  persisting (ReplayOf req) (tickWrites w req) (dispatch w req cron).
Proof.
  intros Hterm. unfold dispatch, tickWrites.
  destruct (ReplayStateOf (ReplayOf req)); try discriminate.
  - unfold processNewReplayRequest. rewrite nat_Z_ltb.
    apply (persisting_bind _ (createdWrites req)).
    + destruct (Parallel (Config (ReplayOf req))) eqn:Hpar;
        [apply processNewReplayRequestParallel_yields|apply processNewReplayRequestSequential_yields];
        exact Hpar.
    + intros runs Hruns. apply persisting_write. auto.
  - unfold processPartialReplayedRequest.
    apply (persisting_bind _
             (fun incoming =>
                GetJobRuns w (StartTime (Config (ReplayOf req))) (EndTime (Config (ReplayOf req)))
                  = inr incoming));
      [apply fetchRuns_yields; auto|].
    intros incoming Hfetch.
    apply (persisting_bind _ (partialWrites req incoming)).
    + unfold partialWrites. fold (mergedRuns (Runs req) incoming). cbv zeta.
      destruct (GetSortedRunsByStates (mergedRuns (Runs req) incoming) [StateInProgress]);
        [|apply yielding_ret; reflexivity].
      destruct (GetSortedRunsByStates (mergedRuns (Runs req) incoming) [StatePending]);
        [apply yielding_ret; reflexivity|].
      apply (yielding_bind (fun _ => True)); [apply replayRunOnScheduler_quiet|]. intros _ _.
      apply yielding_ret. reflexivity.
    + intros runs Hruns.
      pose proof (list_nil_count StatePending runs) as Hcount.
      destruct (GetSortedRunsByStates runs [StatePending]);
        apply persisting_write; exists incoming; repeat split; try assumption.
      * rewrite Hcount. reflexivity.
      * destruct (Nat.eqb_spec (countState StatePending runs) 0); [contradiction|reflexivity].
  - unfold processReplayedRequest.
    apply (persisting_bind _
             (fun incoming =>
                GetJobRuns w (StartTime (Config (ReplayOf req))) (EndTime (Config (ReplayOf req)))
                  = inr incoming));
      [apply fetchRuns_yields; auto|].
    intros incoming Hfetch. cbv zeta.
    rewrite !GetSortedRunsByStates_length. fold (mergedRuns (Runs req) incoming).
    assert (forall v : ReplayState * string,
              v = replayedVerdict (mergedRuns (Runs req) incoming) ->
              persisting (ReplayOf req)
                (fun st runs msg =>
                   exists incoming0,
                     GetJobRuns w (StartTime (Config (ReplayOf req)))
                       (EndTime (Config (ReplayOf req))) = inr incoming0 /\
                     runs = mergedRuns (Runs req) incoming0 /\
                     (st, msg) = replayedVerdict runs)
                (let '(state, message) := v in
                 bind (repoUpdateReplay w state (mergedRuns (Runs req) incoming) message)
                   (fun _ => raiseReplayMetric (ReplayTenant (ReplayOf req))
                               (JobName (ReplayOf req)) state))) as H.
    { intros [st msg] Hv. apply persisting_write. exists incoming. auto. }
    apply H. reflexivity.
Qed.

End Quiet.

(** ** Panics *)

Lemma panicFree_bind {A B} (m : M A) (k : A -> M B) :
  panicFree m -> (forall a, panicFree (k a)) -> panicFree (bind m k).
Proof.
  intros Hm Hk s s'. unfold bind. destruct (m s) as [[a|e|] s1] eqn:E.
  - apply Hk.
  - discriminate.
  - exfalso. exact (Hm _ _ E).
Qed.

Lemma panicFree_ret {A} (a : A) : panicFree (ret a).
Proof. intros s s'. discriminate. Qed.

Lemma panicFree_fail {A} e : panicFree (@fail A e).
Proof. intros s s'. discriminate. Qed.

Section NoPanic.

Variable w : ReplayWorker.

Lemma schedGetJobRuns_panicFree a b : panicFree (schedGetJobRuns w a b).
Proof. intros s s'. unfold schedGetJobRuns. destruct (GetJobRuns w a b); discriminate. Qed.

Lemma schedClear_panicFree t : panicFree (schedClear w t).
Proof. intros s s'. unfold schedClear. destruct (Clear w t); discriminate. Qed.

Lemma schedClearBatch_panicFree a b : panicFree (schedClearBatch w a b).
Proof. intros s s'. unfold schedClearBatch. destruct (ClearBatch w a b); discriminate. Qed.

Lemma schedCreateRun_panicFree t p : panicFree (schedCreateRun w t p).
Proof. intros s s'. unfold schedCreateRun. destruct (CreateRun w t p); discriminate. Qed.

Lemma persist_panicFree st runs msg t j :
  panicFree (bind (repoUpdateReplay w st runs msg) (fun _ => raiseReplayMetric t j st)).
Proof.
  intros s s'. unfold bind, repoUpdateReplay, raiseReplayMetric.
  destruct (UpdateReplayErr w); discriminate.
Qed.

Lemma fetchRun_panicFree req t : panicFree (fetchRun w req t).
Proof.
  apply panicFree_bind; [apply schedGetJobRuns_panicFree|].
  intros [|x l]; [apply panicFree_fail|apply panicFree_ret].
Qed.

Lemma createMissingRuns_panicFree req cron : panicFree (createMissingRuns w req cron).
Proof.
  apply panicFree_bind; [apply schedGetJobRuns_panicFree|].
  intros existed s s'. cbv beta zeta.
  destruct (createRuns _ _ _ _ _) as [me s1]. destruct (ToErr _ me); discriminate.
Qed.

Lemma replayRunOnScheduler_panicFree req cron run :
  panicFree (replayRunOnScheduler w req cron run).
Proof.
  intros s s'. unfold replayRunOnScheduler.
  destruct (fetchRun w req (ScheduledAt run) s) as [[a|e|] s1] eqn:E.
  - apply schedClear_panicFree.
  - destruct (IsErrNotFound e); [apply schedCreateRun_panicFree|discriminate].
  - exfalso. exact (fetchRun_panicFree _ _ _ _ E).
Qed.

Lemma no_executable_run req :
  GetFirstExecutableRun req = None \/ GetLastExecutableRun req = None <->
  countState StatePending (Runs req) = 0%nat.
Proof.
  unfold GetFirstExecutableRun, GetLastExecutableRun.
  rewrite <- GetSortedRunsByStates_length.
  destruct (GetSortedRunsByStates (Runs req) [StatePending]) as [|x l] eqn:E; simpl.
  - split; auto.
  - split; [|discriminate]. intros [H|H]; [discriminate|].
    exfalso. revert H. clear E. revert x. induction l as [|y l IH]; intros x; simpl.
    + discriminate.
    + apply IH.
Qed.

Lemma dispatch_panics req cron s s' :
  dispatch w req cron s = (Panic, s') <->
  s' = s /\ ReplayStateOf (ReplayOf req) = ReplayStateCreated /\
  Parallel (Config (ReplayOf req)) = true /\
  countState StatePending (Runs req) = 0%nat.
Proof.
  unfold dispatch. split.
  - destruct (ReplayStateOf (ReplayOf req)) eqn:Hst.
    + unfold processNewReplayRequest.
      destruct (Parallel (Config (ReplayOf req))) eqn:Hpar.
      * unfold processNewReplayRequestParallel.
        pose proof (no_executable_run req) as Hnone.
        destruct (GetFirstExecutableRun req) as [f|].
        -- destruct (GetLastExecutableRun req) as [l|].
           ++ intros H. exfalso. revert H.
              apply panicFree_bind.
              ** apply panicFree_bind; [apply schedClearBatch_panicFree|]. intros _.
                 apply panicFree_bind; [apply createMissingRuns_panicFree|]. intros _.
                 apply panicFree_ret.
              ** intros a. apply persist_panicFree.
           ++ intros [= <-]. repeat split. apply Hnone. right. reflexivity.
        -- intros [= <-]. repeat split. apply Hnone. left. reflexivity.
      * intros H. exfalso. revert H.
        apply panicFree_bind; [|intros a; apply persist_panicFree].
        unfold processNewReplayRequestSequential.
        destruct (GetFirstExecutableRun req); [|apply panicFree_ret].
        apply panicFree_bind; [apply replayRunOnScheduler_panicFree|]. intros _.
        apply panicFree_ret.
    + intros H. exfalso. revert H. unfold processPartialReplayedRequest.
      apply panicFree_bind; [apply schedGetJobRuns_panicFree|]. intros incoming. cbv zeta.
      apply panicFree_bind.
      * destruct (GetSortedRunsByStates _ [StateInProgress]); [|apply panicFree_ret].
        destruct (GetSortedRunsByStates _ [StatePending]); [apply panicFree_ret|].
        apply panicFree_bind; [apply replayRunOnScheduler_panicFree|]. intros _.
        apply panicFree_ret.
      * intros a. apply persist_panicFree.
    + intros H. exfalso. revert H. unfold processReplayedRequest.
      apply panicFree_bind; [apply schedGetJobRuns_panicFree|]. intros incoming. cbv zeta.
      match goal with |- panicFree (let '(_, _) := ?v in _) => destruct v end.
      apply persist_panicFree.
    + discriminate.
    + discriminate.
  - intros (-> & Hst & Hpar & Hcount). rewrite Hst.
    unfold processNewReplayRequest, processNewReplayRequestParallel. rewrite Hpar.
    apply no_executable_run in Hcount.
    destruct (GetFirstExecutableRun req); [|reflexivity].
    destruct (GetLastExecutableRun req); [|reflexivity].
    destruct Hcount; discriminate.
Qed.

Lemma markFailed_outcome req e s :
  markFailed w req e s =
    (Ok tt, mkWorld (failedRow w (row s) e) (calls s)
              (metrics s ++ [replayMetric (ReplayOf req) ReplayStateFailed])).
Proof.
  unfold markFailed, bind, updateReplayAsFailed, repoUpdateReplayStatus, raiseReplayMetric,
    failedRow, replayMetric.
  destruct (UpdateReplayStatusErr w); reflexivity.
Qed.

(** Every way one invocation of [Process] can end. *)
Lemma Process_outcome req s res s' :
  Process w req s = (res, s') ->
  (res = Panic /\ s' = s /\
   ReplayStateOf (ReplayOf req) = ReplayStateCreated /\
   Parallel (Config (ReplayOf req)) = true /\
   countState StatePending (Runs req) = 0%nat /\
   exists cron, getJobCron w = inr cron) \/
  (res = Ok tt /\ s' = s /\ terminal (ReplayStateOf (ReplayOf req)) = true /\
   exists cron, getJobCron w = inr cron) \/
  (res = Ok tt /\ terminal (ReplayStateOf (ReplayOf req)) = false /\
   exists st runs msg,
     tickWrites w req st runs msg /\ row s' = mkRow st runs msg /\
     metrics s' = (metrics s ++ [replayMetric (ReplayOf req) st])%list) \/
  (res = Ok tt /\
   exists e, tickError w req s = Some e /\ row s' = failedRow w (row s) e /\
     metrics s' = (metrics s ++ [replayMetric (ReplayOf req) ReplayStateFailed])%list).
Proof.
  unfold Process, tickError. destruct (getJobCron w) as [err|cron] eqn:Hcron.
  - rewrite markFailed_outcome. intros [= <- <-]. do 3 right.
    split; [reflexivity|]. exists err. auto.
  - destruct (dispatch w req cron s) as [[[]|e|] s1] eqn:E.
    + intros [= <- <-].
      destruct (terminal (ReplayStateOf (ReplayOf req))) eqn:Hterm.
      * right; left. repeat split; [|eauto].
        revert E. unfold dispatch.
        destruct (ReplayStateOf (ReplayOf req)); try discriminate; intros [= <-]; reflexivity.
      * right; right; left.
        destruct (dispatch_persists w req cron Hterm _ _ _ E) as [(Hne & _)|(_ & H)];
          [congruence|auto].
    + rewrite markFailed_outcome. intros [= <- <-]. do 3 right.
      split; [reflexivity|]. exists e. cbn [row metrics].
      assert (terminal (ReplayStateOf (ReplayOf req)) = false) as Hterm.
      { revert E. unfold dispatch.
        destruct (ReplayStateOf (ReplayOf req)); try reflexivity; discriminate. }
      destruct (dispatch_persists w req cron Hterm _ _ _ E) as [(_ & -> & ->)|(Hne & _)];
        [auto|discriminate].
    + intros [= <- <-]. left. apply dispatch_panics in E as (-> & H1 & H2 & H3).
      repeat split; eauto.
Qed.

End NoPanic.

(** ** What a committed write holds *)

Lemma MergeWithUpdatedRuns_schedule runs m :
  map ScheduledAt (MergeWithUpdatedRuns runs m) = map ScheduledAt runs.
Proof.
  unfold MergeWithUpdatedRuns. rewrite map_map. apply map_ext. intros run.
  destruct (m !! UTC (ScheduledAt run)); reflexivity.
Qed.

Lemma tickWrites_schedule w req st runs msg :
  tickWrites w req st runs msg ->
  map ScheduledAt runs = map ScheduledAt (Runs req).
Proof.
  unfold tickWrites. destruct (ReplayStateOf (ReplayOf req)); try contradiction.
  - intros (H & _). revert H. unfold createdWrites.
    destruct (Parallel _).
    + intros ->. rewrite map_map. reflexivity.
    + destruct (GetFirstExecutableRun req); intros ->;
        [apply MergeWithUpdatedRuns_schedule|reflexivity].
  - intros (incoming & _ & H & _). revert H. unfold partialWrites, mergedRuns. cbv zeta.
    destruct (GetSortedRunsByStates _ [StateInProgress]);
      [destruct (GetSortedRunsByStates _ [StatePending])|];
      intros ->; rewrite ?MergeWithUpdatedRuns_schedule; reflexivity.
  - intros (incoming & _ & -> & _). apply MergeWithUpdatedRuns_schedule.
Qed.

Lemma tickWrites_state w req st runs msg :
  tickWrites w req st runs msg ->
  canFollow (Parallel (Config (ReplayOf req))) (length (Runs req))
    (ReplayStateOf (ReplayOf req)) st = true /\
  (st <> ReplayStateFailed -> msg = "").
Proof.
  unfold tickWrites. destruct (ReplayStateOf (ReplayOf req)); try contradiction.
  - intros (_ & -> & ->). split; [|reflexivity].
    destruct (Parallel _); simpl; [reflexivity|].
    destruct (Nat.ltb_spec 1 (length (Runs req))); simpl; [reflexivity|].
    apply Nat.leb_le. lia.
  - intros (incoming & _ & _ & -> & ->). split; [|reflexivity].
    destruct (_ =? _)%nat; reflexivity.
  - intros (incoming & _ & _ & H). revert H. unfold replayedVerdict.
    destruct (_ && _); [intros [= -> ->]; auto|].
    destruct (_ && _); intros [= -> ->]; auto. split; [reflexivity|congruence].
Qed.

(** ** Properties of every tick *)

(** X1.  A tick panics in exactly one situation, the nil dereference of
    [processNewReplayRequestParallel]: the cron spec was resolved, the replay
    is created and parallel, and none of its runs is pending.  Every other
    tick returns. *)
Theorem tick_panics_iff_parallel_without_pending
    (w : ReplayWorker) (r : Replay) (stored : ReplayRow) :
  tick w r stored = None <->
  (exists cron, getJobCron w = inr cron) /\
  rowState stored = ReplayStateCreated /\
  Parallel (Config r) = true /\
  countState StatePending (rowRuns stored) = 0%nat.
Proof.
  unfold tick. split.
  - destruct (Process w (requestOf r stored) (freshWorld stored)) as [[[]|e|] s'] eqn:E;
      try discriminate.
    intros _. apply Process_outcome in E as [H|[H|[H|H]]].
    + destruct H as (_ & _ & H1 & H2 & H3 & H4). auto.
    + destruct H as (H & _). discriminate.
    + destruct H as (H & _). discriminate.
    + destruct H as (H & _). discriminate.
  - intros ((cron & Hcron) & Hst & Hpar & Hcount).
    unfold Process. rewrite Hcron.
    assert (dispatch w (requestOf r stored) cron (freshWorld stored)
            = (Panic, freshWorld stored)) as ->; [|reflexivity].
    apply dispatch_panics. auto.
Qed.

(** X2.  The replay state machine.  A tick that returns either leaves the
    row as it was, or moves the state along one of the edges
    created -> partial replayed (sequential, more than one run),
    created -> replayed (parallel, or at most one run),
    partial replayed -> partial replayed | replayed,
    replayed -> replayed | success, or any state -> failed; and only a row
    written as failed carries a message. *)
Theorem tick_follows_state_machine
    (w : ReplayWorker) (r : Replay) (stored row' : ReplayRow) :
  tick w r stored = Some row' ->
  row' = stored \/
  (canFollow (Parallel (Config r)) (length (rowRuns stored))
     (rowState stored) (rowState row') = true /\
   (rowState row' <> ReplayStateFailed -> rowMessage row' = "")).
Proof.
  unfold tick.
  destruct (Process w (requestOf r stored) (freshWorld stored)) as [res s'] eqn:E.
  apply Process_outcome in E as [H|[H|[H|H]]].
  - destruct H as (-> & _). discriminate.
  - destruct H as (-> & -> & _). intros [= <-]. left. reflexivity.
  - destruct H as (-> & _ & st & runs & msg & Hw & Hrow & _). intros [= <-].
    right. rewrite Hrow. apply tickWrites_state in Hw. exact Hw.
  - destruct H as (-> & e & _ & Hrow & _). intros [= <-]. rewrite Hrow.
    unfold failedRow. cbn [row freshWorld]. destruct (UpdateReplayStatusErr w).
    + left. reflexivity.
    + right. cbn [rowState rowMessage]. split; [|congruence].
      destruct (rowState stored); reflexivity.
Qed.

Lemma tick_follows_state_machine_witness :
  let row' := mkRow ReplayStatePartialReplayed
                (Samples.runsIn StateInProgress StatePending StatePending) "" in
  tick (Samples.workerSeeing []) (Samples.replayOf false) Samples.pendingRow = Some row' /\
  (row' = Samples.pendingRow \/
   (canFollow false 3 ReplayStateCreated ReplayStatePartialReplayed = true /\
    (ReplayStatePartialReplayed <> ReplayStateFailed -> rowMessage row' = ""))).
Proof.
  split; [reflexivity|].
  apply (tick_follows_state_machine (Samples.workerSeeing []) (Samples.replayOf false)
           Samples.pendingRow). reflexivity.
Defined.

(** X3.  No tick adds, drops or reorders runs, or changes a schedule time:
    the run vector of the row a tick leaves has the schedule times of the
    stored one, position by position. *)
Theorem tick_keeps_schedule
    (w : ReplayWorker) (r : Replay) (stored row' : ReplayRow) :
  tick w r stored = Some row' ->
  map ScheduledAt (rowRuns row') = map ScheduledAt (rowRuns stored).
Proof.
  unfold tick.
  destruct (Process w (requestOf r stored) (freshWorld stored)) as [res s'] eqn:E.
  apply Process_outcome in E as [H|[H|[H|H]]].
  - destruct H as (-> & _). discriminate.
  - destruct H as (-> & -> & _). intros [= <-]. reflexivity.
  - destruct H as (-> & _ & st & runs & msg & Hw & Hrow & _). intros [= <-].
    rewrite Hrow. apply tickWrites_schedule in Hw. exact Hw.
  - destruct H as (-> & e & _ & Hrow & _). intros [= <-]. rewrite Hrow.
    unfold failedRow. destruct (UpdateReplayStatusErr w); reflexivity.
Qed.

Lemma tick_keeps_schedule_witness :
  let row' := mkRow ReplayStatePartialReplayed
                (Samples.runsIn StateInProgress StatePending StatePending) "" in
  tick (Samples.workerSeeing []) (Samples.replayOf false) Samples.pendingRow = Some row' /\
  map ScheduledAt (rowRuns row') = map ScheduledAt (rowRuns Samples.pendingRow).
Proof.
  split; [reflexivity|].
  apply (tick_keeps_schedule (Samples.workerSeeing []) (Samples.replayOf false)
           Samples.pendingRow). reflexivity.
Defined.

(** X4.  Metrics.  An invocation of [Process] that returns raises no metric
    exactly when the replay is terminal and its cron spec was resolved, and
    then it changes nothing at all; otherwise it raises exactly one metric,
    tagged with the replay's project, namespace and job, whose status is the
    state of the row it leaves - except that a failure raises the failed
    metric even when the status write did not commit and the row is
    unchanged. *)
Theorem Process_raises_one_metric
    (w : ReplayWorker) (req : ReplayWithRun) (s s' : World) (res : result unit) :
  Process w req s = (res, s') ->
  res <> Panic ->
  match terminal (ReplayStateOf (ReplayOf req)), getJobCron w with
  | true, inr _ => s' = s
  | _, _ =>
      exists st,
        metrics s' = (metrics s ++ [replayMetric (ReplayOf req) st])%list /\
        (rowState (row s') = st \/
         (st = ReplayStateFailed /\ row s' = row s /\ UpdateReplayStatusErr w <> None))
  end.
Proof.
  intros E Hres.
  assert (forall e, tickError w req s = Some e ->
            row s' = failedRow w (row s) e ->
            rowState (row s') = ReplayStateFailed \/
            (ReplayStateFailed = ReplayStateFailed /\ row s' = row s /\
             UpdateReplayStatusErr w <> None)) as Hfail.
  { intros e _ ->. unfold failedRow. destruct (UpdateReplayStatusErr w); [right|left]; auto. }
  apply Process_outcome in E as [H|[H|[H|H]]].
  - destruct H as (-> & _). contradiction.
  - destruct H as (_ & -> & -> & cron & ->). reflexivity.
  - destruct H as (_ & -> & st & runs & msg & _ & Hrow & Hmet).
    exists st. rewrite Hrow. auto.
  - destruct H as (_ & e & He & Hrow & Hmet).
    assert (exists st,
              metrics s' = (metrics s ++ [replayMetric (ReplayOf req) st])%list /\
              (rowState (row s') = st \/
               (st = ReplayStateFailed /\ row s' = row s /\ UpdateReplayStatusErr w <> None)))
      as Hgoal by (exists ReplayStateFailed; eauto).
    destruct (terminal _) eqn:Hterm; [|exact Hgoal].
    destruct (getJobCron w) as [err|cron] eqn:Hcron; [exact Hgoal|].
    exfalso. revert He. unfold tickError, dispatch. rewrite Hcron.
    destruct (ReplayStateOf (ReplayOf req)); discriminate.
Qed.

Lemma Process_raises_one_metric_witness :
  exists st,
    metrics (snd (Process (Samples.workerSeeing []) (requestOf (Samples.replayOf false) Samples.pendingRow)
                    (freshWorld Samples.pendingRow)))
    = ([] ++ [replayMetric (ReplayOf (requestOf (Samples.replayOf false) Samples.pendingRow)) st])%list /\
    (rowState (row (snd (Process (Samples.workerSeeing [])
                           (requestOf (Samples.replayOf false) Samples.pendingRow)
                           (freshWorld Samples.pendingRow)))) = st \/
     (st = ReplayStateFailed /\
      row (snd (Process (Samples.workerSeeing [])
                  (requestOf (Samples.replayOf false) Samples.pendingRow)
                  (freshWorld Samples.pendingRow))) = row (freshWorld Samples.pendingRow) /\
      UpdateReplayStatusErr (Samples.workerSeeing []) <> None)).
Proof.
  refine (Process_raises_one_metric (Samples.workerSeeing [])
            (requestOf (Samples.replayOf false) Samples.pendingRow)
            (freshWorld Samples.pendingRow) _ (Ok tt) _ _).
  - vm_compute. reflexivity.
  - discriminate.
Defined.

(** ** Run by run *)

Lemma Forall2_map_self {A} (R : A -> A -> Prop) (f : A -> A) (l : list A) :
  (forall x, x ∈ l -> R x (f x)) -> Forall2 R l (map f l).
Proof.
  induction l as [|x l IH]; intros H; simpl; constructor.
  - apply H. left.
  - apply IH. intros y Hy. apply H. right. exact Hy.
Qed.

Lemma NoDup_key_inj {A B} (f : A -> B) (l : list A) x y :
  NoDup (map f l) -> x ∈ l -> y ∈ l -> f x = f y -> x = y.
Proof.
  induction l as [|z l IH]; intros Hnd Hx Hy E; [inversion Hx|].
  inversion Hnd as [|? ? Hnotin Hnd']; subst.
  apply elem_of_cons in Hx as [->|Hx]; apply elem_of_cons in Hy as [->|Hy].
  - reflexivity.
  - exfalso. apply Hnotin. rewrite E. apply list_elem_of_fmap_2. exact Hy.
  - exfalso. apply Hnotin. rewrite <- E. apply list_elem_of_fmap_2. exact Hx.
  - apply IH; assumption.
Qed.

Lemma mergedRuns_settles runs incoming :
  NoDup (map keyOf runs) ->
  Forall2 settles runs (mergedRuns runs incoming).
Proof.
  intros Hnd. unfold mergedRuns, MergeWithUpdatedRuns.
  apply Forall2_map_self. intros x Hx. unfold settles.
  destruct (identifyUpdatedRunStatus runs incoming !! UTC (ScheduledAt x)) as [v|] eqn:E;
    [|auto].
  apply identifyUpdatedRunStatus_lookup in E as (run & Hin & Hst & Hk & _ & Hv).
  assert (run = x) as -> by (apply (NoDup_key_inj keyOf runs); assumption).
  simpl. auto.
Qed.

Lemma mergedRuns_keys runs incoming :
  map keyOf (mergedRuns runs incoming) = map keyOf runs.
Proof.
  unfold keyOf. rewrite <- !(map_map ScheduledAt UTC). f_equal.
  apply MergeWithUpdatedRuns_schedule.
Qed.

(** A run of the merged vector already has the state the map of updates
    holds for its key. *)
Lemma mergedRuns_settled runs incoming y v :
  y ∈ mergedRuns runs incoming ->
  identifyUpdatedRunStatus runs incoming !! keyOf y = Some v ->
  RunState y = v.
Proof.
  unfold mergedRuns, MergeWithUpdatedRuns. intros Hy.
  apply list_elem_of_fmap in Hy as (x & -> & Hx).
  destruct (identifyUpdatedRunStatus runs incoming !! UTC (ScheduledAt x)) as [u|] eqn:E.
  - unfold keyOf. simpl. rewrite E. intros [= <-]. reflexivity.
  - unfold keyOf. rewrite E. discriminate.
Qed.

Lemma marking_marks runs (m : gmap Time State) runToReplay :
  NoDup (map keyOf runs) ->
  (forall y v, y ∈ runs -> m !! keyOf y = Some v -> RunState y = v) ->
  runToReplay ∈ runs ->
  RunState runToReplay = StatePending ->
  Forall2 (marks (ScheduledAt runToReplay)) runs
    (MergeWithUpdatedRuns runs (<[ScheduledAt runToReplay := StateInProgress]> m)).
Proof.
  intros Hnd Hm Hin Hpending. unfold MergeWithUpdatedRuns.
  apply Forall2_map_self. intros y Hy. unfold marks. fold (keyOf y).
  destruct (decide (ScheduledAt runToReplay = keyOf y)) as [Hk|Hk].
  - rewrite Hk, lookup_insert_eq. simpl. split; [reflexivity|]. right.
    assert (y = runToReplay) as ->.
    { apply (NoDup_key_inj keyOf runs); [exact Hnd|exact Hy|exact Hin|].
      unfold keyOf at 2. rewrite Hk. unfold keyOf. rewrite UTC_idemp. reflexivity. }
    auto.
  - rewrite lookup_insert_ne by exact Hk.
    destruct (m !! keyOf y) as [v|] eqn:E; [|auto].
    simpl. split; [reflexivity|]. left. symmetry. apply Hm; assumption.
Qed.

Lemma marks_step k a b : marks k a b -> runStep a b.
Proof.
  unfold marks, runStep, stateStep. intros (Hs & [E|(_ & Hp & Hi)]); auto.
Qed.

Lemma first_pending runs runToReplay rest :
  GetSortedRunsByStates runs [StatePending] = runToReplay :: rest ->
  runToReplay ∈ runs /\ RunState runToReplay = StatePending.
Proof. intros E. apply GetSortedRunsByStates_elem. rewrite E. left. Qed.

Lemma settles_marks_step k a b c : settles a b -> marks k b c -> runStep a c.
Proof.
  unfold settles, marks, runStep, stateStep.
  intros (Hs & Hst) (Hs' & Hst'). split; [congruence|].
  destruct Hst' as [E|(_ & Hp & Hi)].
  - rewrite E. destruct Hst as [E'|(Hi & Hv)]; [left; exact E'|right; right; auto].
  - destruct Hst as [E'|(_ & [Hv|Hv])]; [|congruence|congruence].
    right; left. split; congruence.
Qed.

Lemma settles_step a b : settles a b -> runStep a b.
Proof.
  unfold settles, runStep, stateStep. intros (Hs & [E|H]); auto.
Qed.

Lemma Forall2_compose {A} (R S T : A -> A -> Prop) l1 l2 l3 :
  (forall a b c, R a b -> S b c -> T a c) ->
  Forall2 R l1 l2 -> Forall2 S l2 l3 -> Forall2 T l1 l3.
Proof.
  intros H H12. revert l3. induction H12 as [|a b l1 l2 Hab _ IH]; intros l3 H23.
  - inversion H23. constructor.
  - inversion H23 as [|? c ? l3' Hbc Hrest]; subst. constructor; eauto.
Qed.

Lemma Forall2_refl_on {A} (R : A -> A -> Prop) l : (forall a, R a a) -> Forall2 R l l.
Proof. intros H. induction l; constructor; auto. Qed.

Lemma settles_refl l : Forall2 settles l l.
Proof. apply Forall2_refl_on. intros a. split; auto. Qed.

Lemma settles_keys l1 l2 : Forall2 settles l1 l2 -> map keyOf l2 = map keyOf l1.
Proof.
  induction 1 as [|a b l1 l2 (Hs & _) _ IH]; [reflexivity|].
  simpl. unfold keyOf at 1 3. rewrite Hs, IH. reflexivity.
Qed.

(** How the runs a tick writes relate to the stored ones, run by run: the
    observed outcomes settle runs in progress, then at most one pending run
    is marked as in progress. *)
Lemma tickWrites_run_by_run w req st runs msg :
  (ReplayStateOf (ReplayOf req) = ReplayStateCreated ->
   Parallel (Config (ReplayOf req)) = false) ->
  NoDup (map keyOf (Runs req)) ->
  tickWrites w req st runs msg ->
  exists merged,
    Forall2 settles (Runs req) merged /\
    (runs = merged \/
     exists k, Forall2 (marks k) merged runs /\
       (ReplayStateOf (ReplayOf req) <> ReplayStateCreated ->
        countState StateInProgress merged = 0%nat)).
Proof.
  intros Hseq Hnd. unfold tickWrites.
  destruct (ReplayStateOf (ReplayOf req)); try contradiction.
  - intros (H & _). unfold createdWrites, GetFirstExecutableRun in H.
    rewrite (Hseq eq_refl) in H. exists (Runs req). split; [apply settles_refl|].
    destruct (GetSortedRunsByStates (Runs req) [StatePending]) as [|runToReplay rest] eqn:E;
      simpl in H; subst runs; [left; reflexivity|].
    destruct (first_pending _ _ _ E) as [Hin Hp].
    right. exists (ScheduledAt runToReplay). split; [|congruence].
    rewrite <- insert_empty. apply marking_marks; try assumption.
    intros y v _. rewrite lookup_empty. discriminate.
  - intros (incoming & _ & H & _). unfold partialWrites in H. cbv zeta in H.
    pose proof (mergedRuns_settles (Runs req) incoming Hnd) as Hsettle.
    exists (mergedRuns (Runs req) incoming). split; [exact Hsettle|].
    pose proof (list_nil_count StateInProgress (mergedRuns (Runs req) incoming)) as Hcount.
    destruct (GetSortedRunsByStates _ [StateInProgress]); [|left; assumption].
    destruct (GetSortedRunsByStates _ [StatePending]) as [|runToReplay rest] eqn:E;
      [left; assumption|].
    destruct (first_pending _ _ _ E) as [Hin Hp].
    right. exists (ScheduledAt runToReplay). split; [|intros _; exact Hcount].
    subst runs. apply marking_marks; try assumption.
    + rewrite mergedRuns_keys. exact Hnd.
    + apply mergedRuns_settled.
  - intros (incoming & _ & -> & _). exists (mergedRuns (Runs req) incoming).
    split; [apply mergedRuns_settles; exact Hnd|left; reflexivity].
Qed.

Lemma Forall2_filter_length {A} (P1 Q1 P2 : A -> Prop)
    `{!forall x, Decision (P1 x)} `{!forall x, Decision (Q1 x)} `{!forall x, Decision (P2 x)}
    (R : A -> A -> Prop) l1 l2 :
  Forall2 R l1 l2 ->
  (forall a b, R a b -> P2 b -> P1 a \/ Q1 a) ->
  (length (filter P2 l2) <= length (filter P1 l1) + length (filter Q1 l1))%nat.
Proof.
  intros Hall HR. induction Hall as [|a b l1 l2 Hab _ IH]; [simpl; lia|].
  rewrite !filter_cons.
  destruct (decide (P2 b)) as [Hb|Hb].
  - destruct (HR a b Hab Hb) as [Ha|Ha].
    + destruct (decide (P1 a)); [|contradiction]. destruct (decide (Q1 a)); simpl; lia.
    + destruct (decide (Q1 a)); [|contradiction]. destruct (decide (P1 a)); simpl; lia.
  - destruct (decide (P1 a)); destruct (decide (Q1 a)); simpl; lia.
Qed.

Lemma key_count_le_1 runs k :
  NoDup (map keyOf runs) ->
  (length (filter (fun run => keyOf run = k) runs) <= 1)%nat.
Proof.
  induction runs as [|x l IH]; intros Hnd; [simpl; lia|].
  inversion Hnd as [|? ? Hnotin Hnd']; subst.
  rewrite filter_cons. destruct (decide (keyOf x = k)) as [Hk|Hk]; [|auto].
  assert (filter (fun run => keyOf run = k) l = []) as ->; [|simpl; lia].
  destruct (filter _ l) as [|y rest] eqn:E; [reflexivity|].
  assert (y ∈ filter (fun run => keyOf run = k) l) as Hy by (rewrite E; left).
  apply list_elem_of_filter in Hy as [Hyk Hy].
  exfalso. apply Hnotin. rewrite Hk, <- Hyk. apply list_elem_of_fmap_2. exact Hy.
Qed.

Lemma settles_in_progress l1 l2 :
  Forall2 settles l1 l2 ->
  (countState StateInProgress l2 <= countState StateInProgress l1)%nat.
Proof.
  intros H. unfold countState.
  pose proof (Forall2_filter_length
                (fun run => RunState run = StateInProgress) (fun _ => False)
                (fun run => RunState run = StateInProgress) settles l1 l2 H) as Hlen.
  assert (filter (fun _ : JobRunStatus => False) l1 = []) as Hnil.
  { clear. induction l1 as [|x l IH]; [reflexivity|]. rewrite filter_cons.
    destruct (decide False); [contradiction|exact IH]. }
  rewrite Hnil in Hlen. simpl in Hlen. rewrite Nat.add_0_r in Hlen. apply Hlen.
  intros a b (_ & [E|(_ & [E|E])]) Hb; [left|exfalso|exfalso]; congruence.
Qed.

Lemma marks_in_progress k l1 l2 :
  NoDup (map keyOf l1) ->
  Forall2 (marks k) l1 l2 ->
  (countState StateInProgress l2 <= countState StateInProgress l1 + 1)%nat.
Proof.
  intros Hnd H. unfold countState.
  pose proof (Forall2_filter_length
                (fun run => RunState run = StateInProgress) (fun run => keyOf run = k)
                (fun run => RunState run = StateInProgress) (marks k) l1 l2 H) as Hlen.
  pose proof (key_count_le_1 l1 k Hnd).
  etransitivity; [apply Hlen|lia].
  intros a b (_ & [E|(Hk & _)]) Hb; [left; congruence|right; exact Hk].
Qed.

Lemma tick_outcome w r stored row' :
  tick w r stored = Some row' ->
  row' = stored \/
  (exists e, row' = failedRow w stored e) \/
  exists st runs msg, tickWrites w (requestOf r stored) st runs msg /\ row' = mkRow st runs msg.
Proof.
  unfold tick.
  destruct (Process w (requestOf r stored) (freshWorld stored)) as [res s'] eqn:E.
  apply Process_outcome in E as [H|[H|[H|H]]].
  - destruct H as (-> & _). discriminate.
  - destruct H as (-> & -> & _). intros [= <-]. left. reflexivity.
  - destruct H as (-> & _ & st & runs & msg & Hw & Hrow & _). intros [= <-].
    right; right. eauto.
  - destruct H as (-> & e & _ & Hrow & _). intros [= <-]. right; left. eauto.
Qed.

(** X5.  Runs only move forward.  For a replay whose runs have distinct
    schedule instants, a tick of the sequential path or of a replay that is
    past creation relates the stored run vector and the one it leaves
    position by position: the schedule time is the same and the state is
    unchanged, went from pending to in progress, or went from in progress to
    success or failed.  No run is ever reset, and none jumps from pending to
    a final state. *)
Theorem tick_moves_runs_forward
    (w : ReplayWorker) (r : Replay) (stored row' : ReplayRow) :
  NoDup (map keyOf (rowRuns stored)) ->
  (rowState stored = ReplayStateCreated -> Parallel (Config r) = false) ->
  tick w r stored = Some row' ->
  Forall2 runStep (rowRuns stored) (rowRuns row').
Proof.
  intros Hnd Hseq Htick.
  assert (Forall2 runStep (rowRuns stored) (rowRuns stored)) as Hrefl.
  { apply Forall2_refl_on. intros a. split; [reflexivity|left; reflexivity]. }
  apply tick_outcome in Htick as [->|[(e & ->)|(st & runs & msg & Hw & ->)]].
  - exact Hrefl.
  - unfold failedRow. destruct (UpdateReplayStatusErr w); exact Hrefl.
  - apply tickWrites_run_by_run in Hw as (merged & Hsettle & [->|(k & Hmark & _)]);
      [| |exact Hseq|exact Hnd].
    + eapply Forall2_impl; [exact Hsettle|]. intros a b. apply settles_step.
    + eapply Forall2_compose; [|exact Hsettle|exact Hmark].
      intros a b c. apply settles_marks_step.
Qed.

Lemma tick_moves_runs_forward_witness :
  tick (Samples.workerSeeing MachineSamples.firstRunDone) (Samples.replayOf false)
    MachineSamples.partialRow = Some MachineSamples.nextPartialRow /\
  Forall2 runStep (rowRuns MachineSamples.partialRow) (rowRuns MachineSamples.nextPartialRow).
Proof.
  split; [reflexivity|].
  apply (tick_moves_runs_forward (Samples.workerSeeing MachineSamples.firstRunDone)
           (Samples.replayOf false)).
  - apply (bool_decide_unpack _). vm_compute. reflexivity.
  - discriminate.
  - reflexivity.
Defined.

(** X6.  One run at a time.  Under the same conditions a tick never leaves
    more runs in progress than one more than a created replay had, and for a
    replay past creation never more than the larger of one and the number it
    found: a sequential replay with at most one run in progress keeps at most
    one in progress. *)
Theorem tick_bounds_runs_in_progress
    (w : ReplayWorker) (r : Replay) (stored row' : ReplayRow) :
  NoDup (map keyOf (rowRuns stored)) ->
  (rowState stored = ReplayStateCreated -> Parallel (Config r) = false) ->
  tick w r stored = Some row' ->
  (countState StateInProgress (rowRuns row') <=
   match rowState stored with
   | ReplayStateCreated => countState StateInProgress (rowRuns stored) + 1
   | _ => Nat.max 1 (countState StateInProgress (rowRuns stored))
   end)%nat.
Proof.
  intros Hnd Hseq Htick.
  assert (forall n, n <= match rowState stored with
                         | ReplayStateCreated => n + 1
                         | _ => Nat.max 1 n
                         end)%nat as Hsame
    by (intros n; destruct (rowState stored); lia).
  apply tick_outcome in Htick as [->|[(e & ->)|(st & runs & msg & Hw & ->)]].
  - apply Hsame.
  - unfold failedRow. destruct (UpdateReplayStatusErr w); apply Hsame.
  - apply tickWrites_run_by_run in Hw as (merged & Hsettle & [->|(k & Hmark & Hzero)]);
      [| |exact Hseq|exact Hnd]; cbn [rowRuns]; cbn [requestOf ReplayOf Runs] in *.
    + pose proof (settles_in_progress _ _ Hsettle). etransitivity; [eassumption|apply Hsame].
    + pose proof (settles_in_progress _ _ Hsettle) as H1.
      assert (NoDup (map keyOf merged)) as Hnd' by (rewrite (settles_keys _ _ Hsettle); exact Hnd).
      pose proof (marks_in_progress _ _ _ Hnd' Hmark) as H2.
      cbn in Hzero.
      destruct (rowState stored); try lia; rewrite Hzero in H2 by discriminate; lia.
Qed.

Lemma tick_bounds_runs_in_progress_witness :
  tick (Samples.workerSeeing MachineSamples.firstRunDone) (Samples.replayOf false)
    MachineSamples.partialRow = Some MachineSamples.nextPartialRow /\
  (countState StateInProgress (rowRuns MachineSamples.nextPartialRow) <= 1)%nat.
Proof.
  split; [reflexivity|].
  apply (tick_bounds_runs_in_progress (Samples.workerSeeing MachineSamples.firstRunDone)
           (Samples.replayOf false) MachineSamples.partialRow).
  - apply (bool_decide_unpack _). vm_compute. reflexivity.
  - discriminate.
  - reflexivity.
Defined.

(** ** Scheduler calls *)

Lemma emitting_bind {A B} (C1 C2 C : list SchedulerCall -> Prop) (m : M A) (k : A -> M B) :
  emitting C1 m -> (forall a, emitting C2 (k a)) ->
  (forall a, C1 a -> C a) ->
  (forall a b, C1 a -> C2 b -> C (a ++ b)%list) ->
  emitting C (bind m k).
Proof.
  intros Hm Hk Hstop Hboth s res s'. unfold bind.
  destruct (m s) as [[a|e|] s1] eqn:E; destruct (Hm _ _ _ E) as (cs1 & Hcs1 & HC1).
  - intros H. destruct (Hk a _ _ _ H) as (cs2 & Hcs2 & HC2).
    exists (cs1 ++ cs2)%list. split; [rewrite Hcs2, Hcs1, app_assoc; reflexivity|auto].
  - intros [= <- <-]. exists cs1. auto.
  - intros [= <- <-]. exists cs1. auto.
Qed.

Lemma emitting_ret {A} (C : list SchedulerCall -> Prop) (a : A) : C [] -> emitting C (ret a).
Proof. intros H s res s' [= <- <-]. exists []. rewrite app_nil_r. auto. Qed.

Lemma emitting_weaken {A} (C C' : list SchedulerCall -> Prop) (m : M A) :
  (forall cs, C cs -> C' cs) -> emitting C m -> emitting C' m.
Proof.
  intros HC Hm s res s' E. destruct (Hm _ _ _ E) as (cs & Hcs & H). exists cs. auto.
Qed.

Lemma mutations_app a b : mutations (a ++ b) = (mutations a ++ mutations b)%list.
Proof. apply List.filter_app. Qed.

Section Calls.

Variable w : ReplayWorker.

Lemma persist_emits st runs msg t j :
  emitting (eq []) (bind (repoUpdateReplay w st runs msg) (fun _ => raiseReplayMetric t j st)).
Proof.
  intros s res s'. unfold bind, repoUpdateReplay, raiseReplayMetric.
  destruct (UpdateReplayErr w); intros [= <- <-]; exists []; rewrite app_nil_r; auto.
Qed.

Lemma fetchRuns_emits req : emitting (eq [fetchRunsCall (ReplayOf req)]) (fetchRuns w req).
Proof. intros s res s' [= <- <-]. eexists. split; reflexivity. Qed.

Lemma replayRunOnScheduler_emits req cron run :
  emitting (fun cs => mutations cs = [] \/ mutations cs = [dispatchCall w cron run])
    (replayRunOnScheduler w req cron run).
Proof.
  intros s res s'. unfold replayRunOnScheduler, fetchRun, bind, schedGetJobRuns, dispatchCall.
  destruct (GetJobRuns w (ScheduledAt run) (ScheduledAt run)) as [e|[|x l]]; cbn [ofSum fail ret].
  - destruct (IsErrNotFound e).
    + intros [= <- <-]. eexists [_; _]. cbn. rewrite <- app_assoc. split; [reflexivity|]. right. reflexivity.
    + intros [= <- <-]. eexists [_]. cbn. split; [reflexivity|]. left. reflexivity.
  - cbn [IsErrNotFound]. intros [= <- <-]. eexists [_; _]. cbn. rewrite <- app_assoc.
    split; [reflexivity|]. right. reflexivity.
  - intros [= <- <-]. eexists [_; _]. cbn. rewrite <- app_assoc.
    split; [reflexivity|]. right. reflexivity.
Qed.

Lemma dispatch_emits req cron :
  (ReplayStateOf (ReplayOf req) = ReplayStateCreated ->
   Parallel (Config (ReplayOf req)) = false) ->
  emitting (oneDispatch w req cron) (dispatch w req cron).
Proof.
  intros Hseq. unfold dispatch, oneDispatch.
  destruct (ReplayStateOf (ReplayOf req)) eqn:Hst.
  - unfold processNewReplayRequest. rewrite (Hseq eq_refl). cbv zeta.
    eapply (emitting_bind _ (eq [])); [|intros a; apply persist_emits|intros a H; exact H|].
    2:{ cbv beta. intros a b H <-. rewrite app_nil_r. exact H. }
    unfold processNewReplayRequestSequential, GetFirstExecutableRun.
    destruct (GetSortedRunsByStates (Runs req) [StatePending]) as [|run rest] eqn:E; simpl.
    + apply emitting_ret. left. reflexivity.
    + destruct (first_pending _ _ _ E) as [Hin _].
      eapply (emitting_bind _ (eq []));
        [apply replayRunOnScheduler_emits|intros _; apply emitting_ret; reflexivity| |].
      * cbv beta. intros a [H|H]; [left; exact H|right].
        split; [auto|]. exists run. split; [|exact H].
        apply in_map, list_elem_of_In, Hin.
      * cbv beta. intros a b [H|H] <-; rewrite app_nil_r; [left; exact H|right].
        split; [auto|]. exists run. split; [|exact H].
        apply in_map, list_elem_of_In, Hin.
  - unfold processPartialReplayedRequest. cbv zeta.
    eapply (emitting_bind _ (fun cs => mutations cs = [] \/
                               exists run, In (ScheduledAt run) (map ScheduledAt (Runs req)) /\
                                           mutations cs = [dispatchCall w cron run]));
      [apply fetchRuns_emits| |intros a <-; left; reflexivity|].
    2:{ cbv beta. intros a b <- [H|H]; rewrite mutations_app; [left; exact H|right].
        split; [auto|]. exact H. }
    intros incoming.
    eapply (emitting_bind _ (eq [])); [|intros a; apply persist_emits|intros a H; exact H|].
    2:{ cbv beta. intros a b H <-. rewrite app_nil_r. exact H. }
    destruct (GetSortedRunsByStates _ [StateInProgress]);
      [|apply emitting_ret; left; reflexivity].
    destruct (GetSortedRunsByStates _ [StatePending]) as [|run rest] eqn:E;
      [apply emitting_ret; left; reflexivity|].
    destruct (first_pending _ _ _ E) as [Hin _].
    assert (In (ScheduledAt run) (map ScheduledAt (Runs req))) as Hsched.
    { rewrite <- (MergeWithUpdatedRuns_schedule (Runs req)
                    (identifyUpdatedRunStatus (Runs req) incoming)).
      apply in_map, list_elem_of_In, Hin. }
    eapply (emitting_bind _ (eq []));
      [apply replayRunOnScheduler_emits|intros _; apply emitting_ret; reflexivity| |].
    + cbv beta. intros a [H|H]; [left; exact H|right; eauto].
    + cbv beta. intros a b [H|H] <-; rewrite app_nil_r; [left; exact H|right; eauto].
  - unfold processReplayedRequest. cbv zeta.
    eapply (emitting_bind _ (eq [])); [apply fetchRuns_emits| |intros a <-; left; reflexivity|].
    2:{ cbv beta. intros a b <- <-. left. reflexivity. }
    intros incoming.
    match goal with |- emitting _ (let '(_, _) := ?v in _) => destruct v end.
    apply persist_emits.
  - apply emitting_ret. left. reflexivity.
  - apply emitting_ret. left. reflexivity.
Qed.

End Calls.

(** X7.  Outside the parallel path a tick changes the scheduler at most
    once.  The calls of one invocation of [Process] on a replay that is not
    a created parallel one hold at most one mutation; when there is one, the
    replay is created or partially replayed and the mutation is the clear or
    create call for one of the replay's runs at its logical time.  A
    replayed or terminal replay is never cause for a mutation, and
    [ClearBatch] is never used. *)
Theorem sequential_tick_mutates_at_most_once
    (w : ReplayWorker) (req : ReplayWithRun) (s s' : World) (res : result unit) :
  Process w req s = (res, s') ->
  (ReplayStateOf (ReplayOf req) = ReplayStateCreated ->
   Parallel (Config (ReplayOf req)) = false) ->
  exists cs,
    calls s' = (calls s ++ cs)%list /\
    (mutations cs = [] \/
     ((ReplayStateOf (ReplayOf req) = ReplayStateCreated \/
       ReplayStateOf (ReplayOf req) = ReplayStatePartialReplayed) /\
      exists cron run,
        getJobCron w = inr cron /\
        In (ScheduledAt run) (map ScheduledAt (Runs req)) /\
        mutations cs = [dispatchCall w cron run])).
Proof.
  intros E Hseq. unfold Process in E.
  destruct (getJobCron w) as [err|cron] eqn:Hcron.
  - rewrite markFailed_outcome in E. injection E as <- <-.
    exists []. cbn [calls]. rewrite app_nil_r. auto.
  - destruct (dispatch w req cron s) as [r0 s1] eqn:Hd.
    destruct (dispatch_emits w req cron Hseq _ _ _ Hd) as (cs & Hcs & Hshape).
    assert (calls s' = calls s1) as ->.
    { destruct r0 as [[]|e|]; [injection E as <- <-; reflexivity| |injection E as <- <-; reflexivity].
      rewrite markFailed_outcome in E. injection E as <- <-. reflexivity. }
    exists cs. split; [exact Hcs|].
    destruct Hshape as [H|(Hst & run & Hin & H)]; [left; exact H|right].
    split; [exact Hst|]. exists cron, run. auto.
Qed.

Lemma sequential_tick_mutates_at_most_once_witness :
  exists cs,
    calls (snd (Process (Samples.workerSeeing MachineSamples.firstRunDone)
                  (requestOf (Samples.replayOf false) MachineSamples.partialRow)
                  (freshWorld MachineSamples.partialRow))) = ([] ++ cs)%list /\
    (mutations cs = [] \/
     ((ReplayStatePartialReplayed = ReplayStateCreated \/
       ReplayStatePartialReplayed = ReplayStatePartialReplayed) /\
      exists cron run,
        getJobCron (Samples.workerSeeing MachineSamples.firstRunDone) = inr cron /\
        In (ScheduledAt run) (map ScheduledAt (rowRuns MachineSamples.partialRow)) /\
        mutations cs = [dispatchCall (Samples.workerSeeing MachineSamples.firstRunDone) cron run])).
Proof.
  refine (sequential_tick_mutates_at_most_once
            (Samples.workerSeeing MachineSamples.firstRunDone)
            (requestOf (Samples.replayOf false) MachineSamples.partialRow)
            (freshWorld MachineSamples.partialRow) _ (Ok tt) _ _).
  - vm_compute. reflexivity.
  - discriminate.
Defined.

(** ** Creating the missing runs *)

Lemma createRuns_loop w jobCron runs me s :
  createRuns w jobCron runs me s =
    ((me ++ createFailures w jobCron runs)%list,
     mkWorld (row s) (calls s ++ createCalls jobCron runs) (metrics s)).
Proof.
  revert me s. induction runs as [|run rest IH]; intros me s.
  - simpl. rewrite !app_nil_r. destruct s; reflexivity.
  - cbn [createRuns]. unfold schedCreateRun, createFailures, createCalls. cbn [omap list_omap map].
    destruct (CreateRun w (GetLogicalTime run jobCron) prefixReplayed) as [e|] eqn:E;
      cbn [ofOption fmap option_fmap option_map]; rewrite IH;
      unfold logCall, createFailures, createCalls; cbn [row calls metrics];
      rewrite <- !app_assoc; reflexivity.
Qed.

(** X8.  [createMissingRuns] tries every missing run.  Once the runs of the
    replay's range were fetched, it calls [CreateRun] with prefix
    [replayed] once for every missing run, in the order of the replay's
    vector, whether or not an earlier call failed; it returns nil exactly
    when every call was accepted, and otherwise one multi-error named
    [create runs] holding the text of every failure in order.  It writes
    neither the row nor a metric. *)
Theorem createMissingRuns_tries_every_missing_run
    (w : ReplayWorker) (req : ReplayWithRun) (jobCron : ScheduleSpec)
    (existing : list JobRunStatus) (s : World) :
  GetJobRuns w (StartTime (Config (ReplayOf req))) (EndTime (Config (ReplayOf req)))
    = inr existing ->
  let missing := getMissingRuns (Runs req) existing in
  createMissingRuns w req jobCron s =
    (ofOption (ToErr "create runs" (createFailures w jobCron missing)) tt,
     mkWorld (row s)
       (calls s ++ fetchRunsCall (ReplayOf req) :: createCalls jobCron missing)
       (metrics s)) /\
  (createFailures w jobCron missing = [] <->
   forall run, run ∈ missing ->
     CreateRun w (GetLogicalTime run jobCron) prefixReplayed = None).
Proof.
  intros Hfetch missing. split.
  - unfold createMissingRuns, bind, fetchRuns, schedGetJobRuns. rewrite Hfetch.
    cbn [ofSum]. rewrite createRuns_loop. fold missing.
    unfold logCall, fetchRunsCall. cbn [row calls metrics app].
    rewrite <- app_assoc. reflexivity.
  - unfold createFailures. generalize missing. clear. intros l.
    induction l as [|run rest IH]; [split; [intros _ run H; inversion H|reflexivity]|].
    cbn [omap list_omap].
    destruct (CreateRun w (GetLogicalTime run jobCron) prefixReplayed) as [e|] eqn:E;
      cbn [fmap option_fmap option_map].
    + split; [discriminate|]. intros H. specialize (H run (list_elem_of_here _ _)). congruence.
    + rewrite IH. split.
      * intros H x Hx. apply elem_of_cons in Hx as [->|Hx]; [exact E|apply H, Hx].
      * intros H x Hx. apply H. right. exact Hx.
Qed.

Lemma createMissingRuns_tries_every_missing_run_witness :
  let w := MachineSamples.workerRefusingFirstCreate in
  let req := requestOf (Samples.replayOf true) Samples.pendingRow in
  GetJobRuns w (Samples.day 1) (Samples.day 3) = inr MachineSamples.firstRunDone /\
  createMissingRuns w req Samples.daily (freshWorld Samples.pendingRow) =
    (Err (MultiError "create runs" ["scheduler refused"]),
     mkWorld Samples.pendingRow
       [CallGetJobRuns (Samples.day 1) (Samples.day 3);
        CallCreateRun (Samples.day 1) "replayed";
        CallCreateRun (Samples.day 2) "replayed"] []).
Proof.
  split; [reflexivity|].
  exact (proj1 (createMissingRuns_tries_every_missing_run
                  MachineSamples.workerRefusingFirstCreate
                  (requestOf (Samples.replayOf true) Samples.pendingRow) Samples.daily
                  MachineSamples.firstRunDone (freshWorld Samples.pendingRow) eq_refl)).
Defined.

(** ** The runs that are missing *)

(** X9.  [getMissingRuns] keeps, in the order of the expected vector, the
    expected runs that no observed run matches: a run is matched when some
    observed run's schedule time in UTC equals the run's own schedule time,
    which is looked up as it is stored.  So an expected run whose schedule
    time is not located in UTC is always reported missing, whatever the
    scheduler has. *)
Theorem getMissingRuns_keeps_unmatched_in_order
    (expected existing : list JobRunStatus) :
  sublist (getMissingRuns expected existing) expected /\
  (forall run,
     run ∈ getMissingRuns expected existing <->
     run ∈ expected /\
     forall e, e ∈ existing -> UTC (ScheduledAt e) <> ScheduledAt run) /\
  (forall run,
     run ∈ expected -> loc (ScheduledAt run) <> UTCLoc ->
     run ∈ getMissingRuns expected existing).
Proof.
  assert (forall run,
            run ∈ getMissingRuns expected existing <->
            run ∈ expected /\
            forall e, e ∈ existing -> UTC (ScheduledAt e) <> ScheduledAt run) as Hchar.
  { intros run. unfold getMissingRuns. rewrite list_elem_of_filter. split.
    - intros [Hnone Hin]. split; [exact Hin|]. intros e He Hk.
      destruct (ToRunStatusMap existing !! ScheduledAt run) eqn:E; [discriminate|].
      clear Hnone. revert E. rewrite <- Hk. clear Hk.
      unfold ToRunStatusMap. revert He.
      induction existing as [|x l IH] using rev_ind; [intros H; inversion H|].
      rewrite foldl_snoc, elem_of_app, list_elem_of_singleton.
      destruct (decide (UTC (ScheduledAt x) = UTC (ScheduledAt e))) as [Hx|Hx].
      + rewrite Hx, lookup_insert_eq. discriminate.
      + rewrite lookup_insert_ne by exact Hx. intros [H| ->]; [apply IH, H|congruence].
    - intros [Hin Hmiss]. split; [|exact Hin]. apply ToRunStatusMap_None. exact Hmiss. }
  split; [apply sublist_filter|]. split; [exact Hchar|].
  intros run Hin Hloc. apply Hchar. split; [exact Hin|].
  intros e _ Hk. apply Hloc. rewrite <- Hk. reflexivity.
Qed.

(** ** Dispatching one run *)

(** X10.  [replayRunOnScheduler] first asks the scheduler for the runs at
    exactly the run's schedule time.  When that fails with an error other
    than not-found it issues no further call and returns the error as it
    is.  Otherwise it issues exactly one mutation at the run's logical
    time - [Clear] when a run was found, [CreateRun] with prefix [replayed]
    when none was - and it succeeds exactly when the scheduler accepts that
    call.  It never clears and creates, and it writes neither the row nor a
    metric. *)
Theorem replayRunOnScheduler_fetches_then_mutates_once
    (w : ReplayWorker) (req : ReplayWithRun) (jobCron : ScheduleSpec)
    (run : JobRunStatus) (s s' : World) (res : result unit) :
  replayRunOnScheduler w req jobCron run s = (res, s') ->
  row s' = row s /\ metrics s' = metrics s /\
  ((calls s' = (calls s ++ [CallGetJobRuns (ScheduledAt run) (ScheduledAt run)])%list /\
    exists e, GetJobRuns w (ScheduledAt run) (ScheduledAt run) = inl e /\
              IsErrNotFound e = false /\ res = Err e) \/
   (calls s' = (calls s ++ [CallGetJobRuns (ScheduledAt run) (ScheduledAt run);
                            dispatchCall w jobCron run])%list /\
    res <> Panic /\
    (res = Ok tt <-> dispatchSucceeds w jobCron run))).
Proof.
  unfold replayRunOnScheduler, fetchRun, bind, schedGetJobRuns, schedClear, schedCreateRun,
    dispatchCall, dispatchSucceeds, logCall.
  destruct (GetJobRuns w (ScheduledAt run) (ScheduledAt run)) as [e|[|x l]];
    cbn [ofSum fail ret IsErrNotFound row calls metrics].
  - destruct (IsErrNotFound e) eqn:Hnf.
    + intros [= <- <-]. cbn [row calls metrics]. rewrite <- app_assoc.
      repeat split. right. split; [reflexivity|].
      destruct (CreateRun w (GetLogicalTime run jobCron) prefixReplayed); cbn [ofOption];
        split; try discriminate; split; try tauto; try discriminate.
      intros (_ & H). discriminate.
    + intros [= <- <-]. repeat split. left. split; [reflexivity|]. exists e. auto.
  - intros [= <- <-]. cbn [row calls metrics]. rewrite <- app_assoc.
    repeat split. right. split; [reflexivity|].
    destruct (CreateRun w (GetLogicalTime run jobCron) prefixReplayed); cbn [ofOption];
      split; try discriminate; split; try tauto; discriminate.
  - intros [= <- <-]. cbn [row calls metrics]. rewrite <- app_assoc.
    repeat split. right. split; [reflexivity|].
    destruct (Clear w (GetLogicalTime run jobCron)); cbn [ofOption];
      split; try discriminate; split; try tauto; discriminate.
Qed.

Lemma replayRunOnScheduler_fetches_then_mutates_once_witness :
  let w := Samples.workerSeeing [] in
  let run := mkRun (Samples.day 2) StatePending in
  let out := replayRunOnScheduler w (requestOf (Samples.replayOf false) Samples.pendingRow)
               Samples.daily run (freshWorld Samples.pendingRow) in
  row (snd out) = Samples.pendingRow /\ metrics (snd out) = [] /\
  ((calls (snd out) = [CallGetJobRuns (Samples.day 2) (Samples.day 2)] /\
    exists e, GetJobRuns w (Samples.day 2) (Samples.day 2) = inl e /\
              IsErrNotFound e = false /\ fst out = Err e) \/
   (calls (snd out) = [CallGetJobRuns (Samples.day 2) (Samples.day 2);
                       CallCreateRun (Samples.day 1) "replayed"] /\
    fst out <> Panic /\
    (fst out = Ok tt <-> dispatchSucceeds w Samples.daily run))).
Proof.
  exact (replayRunOnScheduler_fetches_then_mutates_once (Samples.workerSeeing [])
           (requestOf (Samples.replayOf false) Samples.pendingRow) Samples.daily
           (mkRun (Samples.day 2) StatePending) (freshWorld Samples.pendingRow) _ _ eq_refl).
Defined.

(** ** Dispatching the next run of a sequential replay *)

Lemma mark_single_run runs (m : gmap Time State) run :
  NoDup (map keyOf runs) ->
  (forall y v, y ∈ runs -> m !! keyOf y = Some v -> RunState y = v) ->
  run ∈ runs ->
  loc (ScheduledAt run) = UTCLoc ->
  exists i : nat,
    runs !! i = Some run /\
    MergeWithUpdatedRuns runs (<[ScheduledAt run := StateInProgress]> m)
      = <[i := mkRun (ScheduledAt run) StateInProgress]> runs.
Proof.
  intros Hnd Hm Hin Hloc.
  assert (forall y, y ∈ runs -> y <> run ->
            match <[ScheduledAt run := StateInProgress]> m !! UTC (ScheduledAt y) with
            | Some st => mkRun (ScheduledAt y) st
            | None => y
            end = y) as Hother.
  { intros y Hy Hne. rewrite lookup_insert_ne.
    - fold (keyOf y). destruct (m !! keyOf y) as [v|] eqn:E; [|reflexivity].
      rewrite <- (Hm y v Hy E). destruct y; reflexivity.
    - intros E. apply Hne. apply (NoDup_key_inj keyOf runs); try assumption.
      unfold keyOf. rewrite <- E. symmetry. apply UTC_fixed, Hloc. }
  clear Hm. unfold MergeWithUpdatedRuns.
  induction runs as [|x l IH]; [inversion Hin|].
  inversion Hnd as [|? ? Hnotin Hnd']; subst.
  destruct (decide (x = run)) as [->|Hne].
  - exists 0%nat. split; [reflexivity|]. simpl.
    rewrite (UTC_fixed _ Hloc), lookup_insert_eq. f_equal.
    rewrite <- (map_id l) at 2. apply map_ext_in. intros y Hy.
    apply list_elem_of_In in Hy. apply Hother; [right; exact Hy|].
    intros ->. apply Hnotin. apply list_elem_of_fmap_2. exact Hy.
  - apply elem_of_cons in Hin as [->|Hin]; [congruence|].
    destruct IH as (i & Hi & Hmerge); [exact Hnd'|exact Hin| |].
    { intros y Hy. apply Hother. right. exact Hy. }
    exists (S i). split; [exact Hi|]. simpl. rewrite Hmerge. f_equal.
    apply Hother; [left|exact Hne].
Qed.

Lemma countState_insert st runs (i : nat) old new :
  runs !! i = Some old -> RunState old = st -> RunState new <> st ->
  countState st runs = S (countState st (<[i := new]> runs)).
Proof.
  unfold countState. revert i. induction runs as [|x l IH]; intros i Hi Hold Hnew;
    [discriminate|].
  destruct i as [|i]; simpl in Hi.
  - injection Hi as ->. cbn [insert list_insert]. rewrite !filter_cons.
    destruct (decide (RunState old = st)); [|contradiction].
    destruct (decide (RunState new = st)); [contradiction|]. reflexivity.
  - cbn [insert list_insert]. rewrite !filter_cons.
    destruct (decide (RunState x = st)); cbn [length]; rewrite (IH i Hi Hold Hnew); reflexivity.
Qed.

(** X11.  A partially replayed replay with no run left in progress
    dispatches its next run, provided the stored runs are at distinct
    instants and the schedule time of the run to dispatch is in UTC (the
    cron spec is resolved, the scheduler accepts the calls and the write
    commits).  When, after the observed outcomes are merged in, no run is
    in progress and [runToReplay] is the earliest pending run, the tick
    fetches the range, fetches that run and clears or creates it, marks
    exactly that run as in progress, and commits the row with one metric;
    the replay becomes replayed exactly when that was the last pending run,
    and stays partially replayed otherwise. *)
Theorem partial_tick_dispatches_next_run
    (w : ReplayWorker) (r : Replay) (stored : ReplayRow) (jobCron : ScheduleSpec)
    (incoming : list JobRunStatus) (runToReplay : JobRunStatus) :
  rowState stored = ReplayStatePartialReplayed ->
  getJobCron w = inr jobCron ->
  UpdateReplayErr w = None ->
  GetJobRuns w (StartTime (Config r)) (EndTime (Config r)) = inr incoming ->
  let merged := mergedRuns (rowRuns stored) incoming in
  countState StateInProgress merged = 0%nat ->
  head (GetSortedRunsByStates merged [StatePending]) = Some runToReplay ->
  NoDup (map keyOf (rowRuns stored)) ->
  loc (ScheduledAt runToReplay) = UTCLoc ->
  dispatchSucceeds w jobCron runToReplay ->
  exists i : nat,
    merged !! i = Some runToReplay /\
    RunState runToReplay = StatePending /\
    (forall run, run ∈ merged -> RunState run = StatePending -> notLater runToReplay run) /\
    let state := if (countState StatePending merged =? 1)%nat
                 then ReplayStateReplayed else ReplayStatePartialReplayed in
    Process w (requestOf r stored) (freshWorld stored) =
      (Ok tt,
       mkWorld (mkRow state (<[i := mkRun (ScheduledAt runToReplay) StateInProgress]> merged) "")
         [fetchRunsCall r;
          CallGetJobRuns (ScheduledAt runToReplay) (ScheduledAt runToReplay);
          dispatchCall w jobCron runToReplay]
         [replayMetric r state]).
Proof.
  intros Hst Hcron Hrepo Hfetch merged Hidle Hfirst Hnd Hloc Hdispatch.
  destruct (GetSortedRunsByStates merged [StatePending]) as [|first rest] eqn:Hpending;
    [discriminate|]. injection Hfirst as ->.
  destruct (first_pending _ _ _ Hpending) as [Hin Hp].
  destruct (mark_single_run merged (identifyUpdatedRunStatus (rowRuns stored) incoming)
              runToReplay) as (i & Hi & Hmerge);
    [unfold merged; rewrite mergedRuns_keys; exact Hnd
    |apply mergedRuns_settled|exact Hin|exact Hloc|].
  exists i. split; [exact Hi|]. split; [exact Hp|]. split.
  { intros run Hrun Hrp.
    eapply (sorted_head_earliest (GetSortedRunsByStates merged [StatePending]));
      [apply sortByScheduledAt_sorted|rewrite Hpending; reflexivity|].
    apply GetSortedRunsByStates_elem. auto. }
  cbv zeta. unfold Process. rewrite Hcron. unfold dispatch.
  cbn [requestOf ReplayOf ReplayStateOf]. rewrite Hst.
  unfold processPartialReplayedRequest.
  cbn [requestOf ReplayOf Config Runs ReplayTenant JobName].
  erewrite bind_Ok;
    [|unfold fetchRuns, schedGetJobRuns; cbn [requestOf ReplayOf Config];
      rewrite Hfetch; reflexivity].
  cbv zeta. fold (mergedRuns (rowRuns stored) incoming). fold merged.
  pose proof (list_nil_count StateInProgress merged) as Hnone.
  destruct (GetSortedRunsByStates merged [StateInProgress]); [|contradiction].
  rewrite Hpending.
  erewrite bind_Ok;
    [|erewrite bind_Ok; [|apply replayRunOnScheduler_run; exact Hdispatch]; reflexivity].
  rewrite Hmerge.
  pose proof (list_nil_count StatePending
                (<[i := mkRun (ScheduledAt runToReplay) StateInProgress]> merged)) as Hleft.
  pose proof (countState_insert StatePending merged i runToReplay
                (mkRun (ScheduledAt runToReplay) StateInProgress) Hi Hp) as Hcount.
  cbn [RunState] in Hcount. specialize (Hcount ltac:(discriminate)).
  destruct (GetSortedRunsByStates
              (<[i := mkRun (ScheduledAt runToReplay) StateInProgress]> merged) [StatePending]).
  - rewrite (persist_run w _ _ _ r _ Hrepo).
    rewrite Hcount, Hleft. reflexivity.
  - rewrite (persist_run w _ _ _ r _ Hrepo).
    destruct (Nat.eqb_spec (countState StatePending merged) 1) as [E|E]; [lia|].
    reflexivity.
Qed.

Lemma partial_tick_dispatches_next_run_witness :
  exists i : nat,
    [mkRun (Samples.day 1) StateSuccess; mkRun (Samples.day 2) StatePending;
     mkRun (Samples.day 3) StatePending] !! i = Some (mkRun (Samples.day 2) StatePending) /\
    Process (Samples.workerSeeing MachineSamples.firstRunDone)
      (requestOf (Samples.replayOf false) MachineSamples.partialRow)
      (freshWorld MachineSamples.partialRow) =
      (Ok tt,
       mkWorld (mkRow ReplayStatePartialReplayed
                  (<[i := mkRun (Samples.day 2) StateInProgress]>
                     [mkRun (Samples.day 1) StateSuccess; mkRun (Samples.day 2) StatePending;
                      mkRun (Samples.day 3) StatePending]) "")
         [CallGetJobRuns (Samples.day 1) (Samples.day 3);
          CallGetJobRuns (Samples.day 2) (Samples.day 2);
          CallClear (Samples.day 1)]
         [mkMetric "proj1" "ns1" "job1" ReplayStatePartialReplayed]).
Proof.
  destruct (partial_tick_dispatches_next_run
              (Samples.workerSeeing MachineSamples.firstRunDone) (Samples.replayOf false)
              MachineSamples.partialRow Samples.daily MachineSamples.firstRunDone
              (mkRun (Samples.day 2) StatePending))
    as (i & Hi & _ & _ & Hrun); try reflexivity.
  - apply (bool_decide_unpack _). vm_compute. reflexivity.
  - exists i. split; [exact Hi|exact Hrun].
Defined.

(** ** Failures on the parallel path *)

(** X12.  How a parallel dispatch fails.  When [ClearBatch] is refused the
    tick stops there: nothing is fetched or created, and the replay is
    marked failed with that error.  When it is accepted but some
    [CreateRun] is refused, every missing run was still tried, and the
    replay is marked failed with the multi-error [create runs]; the run
    vector is not written in either case, although the scheduler was
    already changed in the second. *)
Theorem parallel_tick_marks_failed_after_scheduler_refusal
    (w : ReplayWorker) (r : Replay) (stored : ReplayRow) (jobCron : ScheduleSpec)
    (firstRun lastRun : JobRunStatus) :
  rowState stored = ReplayStateCreated ->
  Parallel (Config r) = true ->
  getJobCron w = inr jobCron ->
  GetFirstExecutableRun (requestOf r stored) = Some firstRun ->
  GetLastExecutableRun (requestOf r stored) = Some lastRun ->
  let startTime := GetLogicalTime firstRun jobCron in
  let endTime := GetLogicalTime lastRun jobCron in
  (forall e,
     ClearBatch w startTime endTime = Some e ->
     Process w (requestOf r stored) (freshWorld stored) =
       (Ok tt, mkWorld (failedRow w stored e) [CallClearBatch startTime endTime]
                 [replayMetric r ReplayStateFailed])) /\
  (forall existing,
     ClearBatch w startTime endTime = None ->
     GetJobRuns w (StartTime (Config r)) (EndTime (Config r)) = inr existing ->
     let missing := getMissingRuns (rowRuns stored) existing in
     createFailures w jobCron missing <> [] ->
     Process w (requestOf r stored) (freshWorld stored) =
       (Ok tt,
        mkWorld (failedRow w stored (MultiError "create runs" (createFailures w jobCron missing)))
          (CallClearBatch startTime endTime :: fetchRunsCall r :: createCalls jobCron missing)
          [replayMetric r ReplayStateFailed])).
Proof.
  intros Hst Hpar Hcron Hfirst Hlast startTime endTime.
  assert (forall s, dispatch w (requestOf r stored) jobCron s
                    = bind (bind (schedClearBatch w startTime endTime)
                              (fun _ => bind (createMissingRuns w (requestOf r stored) jobCron)
                                          (fun _ => ret (map (fun run => mkRun (ScheduledAt run) StateInProgress)
                                                           (rowRuns stored)))))
                        (fun updatedRuns =>
                           bind (repoUpdateReplay w ReplayStateReplayed updatedRuns "")
                             (fun _ => raiseReplayMetric (ReplayTenant r) (JobName r)
                                         ReplayStateReplayed)) s) as Hdispatch.
  { intros s. unfold dispatch. cbn [requestOf ReplayOf ReplayStateOf]. rewrite Hst.
    unfold processNewReplayRequest, processNewReplayRequestParallel.
    rewrite Hfirst, Hlast.
    cbn [requestOf ReplayOf Config Runs ReplayTenant JobName]. rewrite Hpar.
    reflexivity. }
  split.
  - intros e Hclear. unfold Process. rewrite Hcron, Hdispatch.
    unfold bind at 1 2. unfold schedClearBatch. rewrite Hclear. cbn [ofOption].
    rewrite markFailed_outcome. reflexivity.
  - intros existing Hclear Hfetch missing Hfail. unfold Process. rewrite Hcron, Hdispatch.
    unfold bind at 1 2. unfold schedClearBatch. rewrite Hclear. cbn [ofOption].
    unfold bind at 1. unfold createMissingRuns, bind, fetchRuns, schedGetJobRuns.
    cbn [requestOf ReplayOf Config Runs]. rewrite Hfetch. cbn [ofSum].
    rewrite createRuns_loop. fold missing.
    destruct (createFailures w jobCron missing) as [|x l] eqn:E; [contradiction|].
    cbn [app ToErr ofOption]. rewrite markFailed_outcome.
    unfold logCall, freshWorld, fetchRunsCall. cbn [row calls metrics app].
    reflexivity.
Qed.

Lemma parallel_tick_marks_failed_after_scheduler_refusal_witness :
  Process MachineSamples.workerRefusingFirstCreate
    (requestOf (Samples.replayOf true) Samples.pendingRow) (freshWorld Samples.pendingRow) =
    (Ok tt,
     mkWorld (mkRow ReplayStateFailed (rowRuns Samples.pendingRow)
                "create runs:scheduler refused")
       [CallClearBatch (Samples.day 0) (Samples.day 2);
        CallGetJobRuns (Samples.day 1) (Samples.day 3);
        CallCreateRun (Samples.day 1) "replayed";
        CallCreateRun (Samples.day 2) "replayed"]
       [mkMetric "proj1" "ns1" "job1" ReplayStateFailed]).
Proof.
  destruct (parallel_tick_marks_failed_after_scheduler_refusal
              MachineSamples.workerRefusingFirstCreate (Samples.replayOf true)
              Samples.pendingRow Samples.daily
              (mkRun (Samples.day 1) StatePending) (mkRun (Samples.day 3) StatePending)
              eq_refl eq_refl eq_refl eq_refl eq_refl) as [_ H].
  apply (H MachineSamples.firstRunDone); [reflexivity|reflexivity|discriminate].
Defined.

(* ===================================================================== *)
(** * Repeating a tick                                                    *)
(* ===================================================================== *)

Section Repeating.

Variable w : ReplayWorker.

(** A step commits only when the repository takes the write. *)
Lemma persist_needs_write st runs msg t j s s0 :
  bind (repoUpdateReplay w st runs msg) (fun _ => raiseReplayMetric t j st) s = (Ok tt, s0) ->
  UpdateReplayErr w = None.
Proof.
  unfold bind, repoUpdateReplay. destruct (UpdateReplayErr w); [discriminate|reflexivity].
Qed.

Lemma bind_Ok_inv {A B} (m : M A) (k : A -> M B) s b s' :
  bind m k s = (Ok b, s') -> exists a s1, m s = (Ok a, s1) /\ k a s1 = (Ok b, s').
Proof.
  unfold bind. destruct (m s) as [[a|e|] s1]; [eauto|discriminate|discriminate].
Qed.

Lemma dispatch_needs_write req cron s s' :
  terminal (ReplayStateOf (ReplayOf req)) = false ->
  dispatch w req cron s = (Ok tt, s') ->
  UpdateReplayErr w = None.
Proof.
  unfold dispatch. destruct (ReplayStateOf (ReplayOf req)); try discriminate; intros _.
  - unfold processNewReplayRequest. intros H.
    apply bind_Ok_inv in H as (a & s1 & _ & H). eapply persist_needs_write, H.
  - unfold processPartialReplayedRequest. intros H.
    apply bind_Ok_inv in H as (a & s1 & _ & H). cbv zeta in H.
    apply bind_Ok_inv in H as (a' & s2 & _ & H). eapply persist_needs_write, H.
  - unfold processReplayedRequest. intros H.
    apply bind_Ok_inv in H as (a & s1 & _ & H). cbv zeta in H.
    revert H. match goal with |- (let '(_, _) := ?v in _) _ = _ -> _ => destruct v end.
    apply persist_needs_write.
Qed.

End Repeating.

Lemma map_fixed {A} (f : A -> A) (l : list A) x :
  map f l = l -> x ∈ l -> f x = x.
Proof.
  induction l as [|y l IH]; intros H Hx; [inversion Hx|].
  injection H as Hy Hl. apply elem_of_cons in Hx as [->|Hx]; auto.
Qed.

(** Merging changes nothing exactly when there is nothing to merge. *)
Lemma mergedRuns_fixed runs incoming :
  mergedRuns runs incoming = runs <-> identifyUpdatedRunStatus runs incoming = ∅.
Proof.
  split.
  - intros Hfix. apply map_empty. intros k.
    destruct (identifyUpdatedRunStatus runs incoming !! k) as [v|] eqn:E; [exfalso|reflexivity].
    pose proof E as E'.
    apply identifyUpdatedRunStatus_lookup in E' as (run & Hin & Hst & Hk & _ & Hv).
    pose proof (map_fixed _ _ run Hfix Hin) as Hrun. cbv beta in Hrun.
    rewrite Hk, E in Hrun. rewrite <- Hrun in Hst. cbn [RunState] in Hst.
    destruct Hv; congruence.
  - intros H. unfold mergedRuns. rewrite H. apply MergeWithUpdatedRuns_empty.
Qed.

(** A run that is pending once the outcomes are merged in was stored so. *)
Lemma pending_was_stored runs incoming run :
  run ∈ mergedRuns runs incoming -> RunState run = StatePending -> run ∈ runs.
Proof.
  unfold mergedRuns, MergeWithUpdatedRuns. intros Hin Hp.
  apply list_elem_of_fmap in Hin as (x & -> & Hx).
  destruct (identifyUpdatedRunStatus runs incoming !! UTC (ScheduledAt x)) as [v|] eqn:E;
    [|exact Hx].
  apply identifyUpdatedRunStatus_lookup in E as (_ & _ & _ & _ & _ & Hv).
  cbn [RunState] in Hp. destruct Hv; congruence.
Qed.

(** Marking a pending run whose schedule time is located in UTC changes
    the stored run vector. *)
Lemma marking_changes_stored runs incoming runToReplay :
  runToReplay ∈ mergedRuns runs incoming ->
  RunState runToReplay = StatePending ->
  loc (ScheduledAt runToReplay) = UTCLoc ->
  runs <> MergeWithUpdatedRuns (mergedRuns runs incoming)
            (<[ScheduledAt runToReplay := StateInProgress]>
               (identifyUpdatedRunStatus runs incoming)).
Proof.
  intros Hin Hp Hloc Hfix.
  assert (runToReplay ∈ runs) as Hstored by (eapply pending_was_stored; eassumption).
  rewrite Hfix in Hstored.
  unfold MergeWithUpdatedRuns at 1 in Hstored.
  apply list_elem_of_fmap in Hstored as (y & Hy & _).
  destruct (<[ScheduledAt runToReplay := StateInProgress]>
              (identifyUpdatedRunStatus runs incoming) !! UTC (ScheduledAt y)) as [v|] eqn:E.
  - rewrite Hy in Hp, Hloc. cbn [RunState ScheduledAt] in Hp, Hloc. subst v.
    destruct (decide (ScheduledAt runToReplay = UTC (ScheduledAt y))) as [Hk|Hk].
    + rewrite Hk, lookup_insert_eq in E. discriminate E.
    + rewrite lookup_insert_ne in E by exact Hk.
      apply identifyUpdatedRunStatus_lookup in E as (_ & _ & _ & _ & _ & [Hv|Hv]); discriminate.
  - subst y. rewrite (UTC_fixed _ Hloc), lookup_insert_eq in E. discriminate E.
Qed.

(** The cron lookup fails: whatever the record, the tick marks it failed
    with the lookup's error, and doing that twice is doing it once. *)
Lemma tick_without_cron w r stored e :
  getJobCron w = inl e -> tick w r stored = Some (failedRow w stored e).
Proof.
  intros Hcron. unfold tick, Process. rewrite Hcron, markFailed_outcome. reflexivity.
Qed.

Lemma failedRow_twice w stored e :
  failedRow w (failedRow w stored e) e = failedRow w stored e.
Proof. unfold failedRow. destruct (UpdateReplayStatusErr w); reflexivity. Qed.

(** What a tick that returns has done, when the cron spec was resolved. *)
Lemma tick_with_cron w r stored once jobCron :
  getJobCron w = inr jobCron ->
  tick w r stored = Some once ->
  (terminal (rowState stored) = true /\ once = stored) \/
  (terminal (rowState stored) = false /\ exists e, once = failedRow w stored e) \/
  (terminal (rowState stored) = false /\ UpdateReplayErr w = None /\
   exists st runs msg, tickWrites w (requestOf r stored) st runs msg /\
                       once = mkRow st runs msg).
Proof.
  intros Hcron. unfold tick, Process. rewrite Hcron.
  destruct (terminal (rowState stored)) eqn:Hterm.
  { unfold dispatch. cbn [requestOf ReplayOf ReplayStateOf].
    destruct (rowState stored); try discriminate; intros [= <-]; auto. }
  destruct (dispatch w (requestOf r stored) jobCron (freshWorld stored)) as [[[]|e|] s1] eqn:E.
  - intros [= <-]. right; right. split; [reflexivity|].
    split; [eapply dispatch_needs_write; [|exact E]; exact Hterm|].
    destruct (dispatch_persists w (requestOf r stored) jobCron Hterm _ _ _ E)
      as [(Hne & _)|(_ & st & runs & msg & Hw & Hrow & _)]; [congruence|].
    exists st, runs, msg. auto.
  - rewrite markFailed_outcome. intros [= <-]. cbn [row]. right; left.
    split; [reflexivity|]. exists e.
    destruct (dispatch_persists w (requestOf r stored) jobCron Hterm _ _ _ E)
      as [(_ & H & _)|(Hne & _)]; [|discriminate].
    rewrite H. reflexivity.
  - discriminate.
Qed.

(** C5 (as amended).  A second tick under the same scheduler answers
    leaves the record the first tick left whenever that record is at rest:
    terminal, or in state [replayed] or in state [partialReplayed] with a
    run still pending, with a run in progress and no run in progress that
    the scheduler reports as [success] or [failed].  When a failure can be
    stored and the schedule times are located in UTC, these are the only
    records a second tick leaves as they are. *)
Theorem second_tick_keeps_exactly_records_at_rest
    (w : ReplayWorker) (r : Replay) (stored once : ReplayRow) :
  tick w r stored = Some once ->
  (atRest w r once -> tick w r once = Some once) /\
  (UpdateReplayStatusErr w = None ->
   Forall (fun run => loc (ScheduledAt run) = UTCLoc) (rowRuns once) ->
   tick w r once = Some once -> atRest w r once).
Proof.
  intros Hfirst.
  destruct (getJobCron w) as [e|jobCron] eqn:Hcron.
  { (* no cron spec: both ticks only mark the replay failed *)
    rewrite (tick_without_cron w r stored e Hcron) in Hfirst. injection Hfirst as <-.
    split.
    - intros _. rewrite (tick_without_cron w r _ e Hcron), failedRow_twice. reflexivity.
    - intros Hstatus _ _. left. unfold failedRow. rewrite Hstatus. reflexivity. }
  split.
  - intros [Hterm|(incoming & Hfetch & Hnone & Hprog & Hstate)].
    + unfold tick, Process. rewrite Hcron. unfold dispatch.
      cbn [requestOf ReplayOf ReplayStateOf].
      destruct (rowState once); try discriminate; reflexivity.
    + assert (terminal (rowState once) = false) as Hlive
        by (destruct Hstate as [->|[-> _]]; reflexivity).
      destruct (tick_with_cron w r stored once jobCron Hcron Hfirst)
        as [[_ ->]|[(_ & e & Hfail)|(_ & Hrepo & st & runs & msg & Hw & Hrow)]].
      * exact Hfirst.
      * revert Hfail Hlive. unfold failedRow.
        destruct (UpdateReplayStatusErr w); [intros -> _; exact Hfirst|].
        intros ->. discriminate.
      * assert (rowMessage once = "") as Hmsg.
        { apply tickWrites_state in Hw as [_ Hw]. rewrite Hrow. cbn [rowMessage].
          apply Hw. intros ->. rewrite Hrow in Hlive. discriminate Hlive. }
        apply mergedRuns_fixed in Hnone.
        unfold tick. enter_tick Hcron.
        destruct Hstate as [Hst|[Hst Hpending]]; rewrite Hst.
        -- rewrite (processReplayedRequest_run w (requestOf r once) jobCron _ incoming
                      Hfetch Hrepo).
           cbn [requestOf Runs row]. rewrite Hnone.
           destruct (Nat.eqb_spec (countState StateInProgress (rowRuns once)) 0) as [E|_];
             [contradiction|].
           cbn [andb fst snd]. f_equal. destruct once; cbn in *. congruence.
        -- rewrite (processPartialReplayedRequest_waiting w (requestOf r once) jobCron _
                      incoming Hfetch Hrepo);
             [|cbn [requestOf Runs]; rewrite Hnone; exact Hprog].
           cbn [requestOf Runs row]. rewrite Hnone.
           destruct (Nat.eqb_spec (countState StatePending (rowRuns once)) 0) as [E|_];
             [contradiction|].
           f_equal. destruct once; cbn in *. congruence.
  - intros Hstatus Hutc Hsecond.
    destruct (terminal (rowState once)) eqn:Hterm; [left; exact Hterm|right].
    destruct (tick_with_cron w r once once jobCron Hcron Hsecond)
      as [[H _]|[(_ & e & Hfail)|(_ & _ & st & runs & msg & Hw & Hrow)]].
    + congruence.
    + exfalso. rewrite Hfail in Hterm. unfold failedRow in Hterm. rewrite Hstatus in Hterm.
      discriminate Hterm.
    + subst once. cbn [rowState rowRuns] in *.
      revert Hw. unfold tickWrites.
      cbn [requestOf ReplayOf ReplayStateOf Config Runs rowState rowRuns].
      destruct st; try discriminate.
      * intros (_ & _ & Hnew). destruct (_ && _); discriminate.
      * intros (incoming & Hfetch & Hruns & _ & Hnew).
        assert (countState StatePending runs <> 0%nat) as Hpending.
        { intros E. rewrite E in Hnew. discriminate Hnew. }
        exists incoming. split; [exact Hfetch|].
        revert Hruns. unfold partialWrites. cbv zeta. cbn [requestOf Runs rowRuns].
        pose proof (list_nil_count StateInProgress (mergedRuns runs incoming)) as Hip.
        pose proof (list_nil_count StatePending (mergedRuns runs incoming)) as Hpd.
        destruct (GetSortedRunsByStates (mergedRuns runs incoming) [StateInProgress])
          as [|x l].
        -- destruct (GetSortedRunsByStates (mergedRuns runs incoming) [StatePending])
             as [|runToReplay rest] eqn:E.
           ++ cbv iota. intros Hruns. exfalso. apply Hpending. rewrite Hruns. exact Hpd.
           ++ cbv iota. intros Hruns. exfalso.
              destruct (first_pending _ _ _ E) as [Hin Hp].
              apply (marking_changes_stored runs incoming runToReplay Hin Hp); [|auto].
              rewrite Forall_forall in Hutc. apply Hutc.
              apply (pending_was_stored runs incoming); assumption.
        -- cbv iota. intros Hruns. rewrite <- Hruns in Hip.
           split; [apply mergedRuns_fixed; congruence|]. auto.
      * intros (incoming & Hfetch & Hruns & Hverdict).
        exists incoming. split; [exact Hfetch|].
        split; [apply mergedRuns_fixed; congruence|].
        split; [|left; reflexivity].
        revert Hverdict. unfold replayedVerdict.
        destruct (Nat.eqb_spec (countState StateInProgress runs) 0) as [E|E]; [|intros _; exact E].
        cbn [andb]. destruct (Nat.eqb_spec (countState StateFailed runs) 0); [discriminate|].
        destruct (Nat.ltb_spec 0 (countState StateFailed runs)); [discriminate|lia].
Qed.

Lemma second_tick_keeps_exactly_records_at_rest_witness :
  let w := Samples.workerSeeing MachineSamples.firstRunDone in
  let once := mkRow ReplayStateReplayed
                (Samples.runsIn StateSuccess StateInProgress StateSuccess) "" in
  tick w (Samples.replayOf true) Samples.replayedRow = Some once /\
  tick w (Samples.replayOf true) once = Some once /\
  atRest w (Samples.replayOf true) once.
Proof.
  cbv zeta.
  destruct (second_tick_keeps_exactly_records_at_rest
              (Samples.workerSeeing MachineSamples.firstRunDone) (Samples.replayOf true)
              Samples.replayedRow
              (mkRow ReplayStateReplayed
                 (Samples.runsIn StateSuccess StateInProgress StateSuccess) "")
              eq_refl) as [Hkeeps Honly].
  split; [reflexivity|]. split.
  - apply Hkeeps. right. exists MachineSamples.firstRunDone.
    split; [reflexivity|]. split; [reflexivity|]. split; [vm_compute; discriminate|].
    left. reflexivity.
  - apply Honly; [reflexivity|repeat constructor|reflexivity].
Defined.

(* ===================================================================== *)
(** * The asset compiler and the plugin service                           *)
(* ===================================================================== *)

Section AssetCompiler.

Import JobPluginService JobRunAssetsCompiler.

Lemma map_to_list_image {B} (f : string * string -> B) (m : gmap string string) (b : B) :
  b ∈ map f (map_to_list m) <-> exists k v, m !! k = Some v /\ b = f (k, v).
Proof.
  split.
  - intros H. apply list_elem_of_fmap in H as ([k v] & -> & H).
    apply elem_of_map_to_list in H. eauto.
  - intros (k & v & H & ->). apply list_elem_of_fmap_2. apply elem_of_map_to_list. exact H.
Qed.

Lemma map_to_list_names {B} (f : string * string -> B) (name : B -> string)
    (m : gmap string string) :
  (forall kv, name (f kv) = fst kv) ->
  NoDup (map name (map f (map_to_list m))).
Proof.
  intros H. rewrite map_map.
  rewrite (map_ext _ fst) by (intros kv; apply H).
  apply NoDup_fst_map_to_list.
Qed.

(** X13.  The three conversions of the asset compiler lose and invent
    nothing: the list each builds holds one entry for every key of the map
    with the key's value, no two entries of a list share a name, and every
    instance datum has type [env]. *)
Theorem conversions_hold_every_entry_once (m : gmap string string) :
  (forall name val, mkPluginConfig name val ∈ toPluginConfig m <-> m !! name = Some val) /\
  NoDup (map Name (toPluginConfig m)) /\
  (forall name val, mkPluginAsset name val ∈ toPluginAssets m <-> m !! name = Some val) /\
  NoDup (map AssetName (toPluginAssets m)) /\
  (forall d, d ∈ toJobRunSpecData m <->
             DataType d = typeEnv /\ m !! DataName d = Some (DataValue d)) /\
  NoDup (map DataName (toJobRunSpecData m)) /\
  length (toPluginConfig m) = size m /\
  length (toPluginAssets m) = size m /\
  length (toJobRunSpecData m) = size m.
Proof.
  unfold toPluginConfig, toPluginAssets, toJobRunSpecData.
  repeat split; try (rewrite length_map; apply length_map_to_list);
    try (apply map_to_list_names; intros [k v]; reflexivity).
  - intros H. apply map_to_list_image in H as (k & v & H & [= -> ->]). exact H.
  - intros H. apply map_to_list_image. eauto.
  - intros H. apply map_to_list_image in H as (k & v & H & [= -> ->]). exact H.
  - intros H. apply map_to_list_image. eauto.
  - apply map_to_list_image in H as (k & v & H & ->). reflexivity.
  - apply map_to_list_image in H as (k & v & H' & ->). exact H'.
  - intros [Ht Hl]. apply map_to_list_image. exists (DataName d), (DataValue d).
    split; [exact Hl|]. destruct d; simpl in *. congruence.
Qed.

Lemma ToMap_snoc l a : ToMap (l ++ [a]) = <[AssetName a := AssetValue a]> (ToMap l).
Proof. unfold ToMap. rewrite foldl_snoc. reflexivity. Qed.

Lemma ToMap_lookup l name :
  NoDup (map AssetName l) ->
  forall val, ToMap l !! name = Some val <-> mkPluginAsset name val ∈ l.
Proof.
  induction l as [|a l IH] using rev_ind; intros Hnd val.
  - unfold ToMap. simpl. rewrite lookup_empty. split; [discriminate|intros H; inversion H].
  - rewrite ToMap_snoc. rewrite map_app in Hnd. apply NoDup_app in Hnd as (Hl & Hdisj & _).
    rewrite elem_of_app, list_elem_of_singleton.
    destruct (decide (AssetName a = name)) as [<-|Hne].
    + rewrite lookup_insert_eq. split.
      * intros [= <-]. right. destruct a; reflexivity.
      * intros [H|H]; [|rewrite <- H; reflexivity]. exfalso. apply (Hdisj (AssetName a)).
        -- apply (list_elem_of_fmap_2' AssetName _ _ _ H). reflexivity.
        -- simpl. left.
    + rewrite lookup_insert_ne by exact Hne. rewrite (IH Hl). split; [auto|].
      intros [H|H]; [exact H|]. contradiction Hne. rewrite <- H. reflexivity.
Qed.

Lemma ToMap_toPluginAssets m : ToMap (toPluginAssets m) = m.
Proof.
  apply map_eq. intros name. apply option_eq. intros val.
  rewrite ToMap_lookup.
  - unfold toPluginAssets. rewrite map_to_list_image. split.
    + intros (k & v & H & [= -> ->]). exact H.
    + eauto.
  - unfold toPluginAssets. apply map_to_list_names. intros [k v]. reflexivity.
Qed.

(** X14.  [CompileJobRunAssets] delegates and never wraps.  A failed plugin
    lookup is returned as it is.  Without a dependency mod the result is the
    engine's on the job's assets, whatever the system variables and the
    interval.  With one, the mod is asked with the interval's ends, the task
    config, the assets and the system variables; its error is returned as it
    is, its assets replace the job's as the engine's input, and a mod that
    answers with the assets it was given changes nothing. *)
Theorem CompileJobRunAssets_delegates
    (pluginRepo : PluginRepo) (engine : Engine) (job : Job)
    (systemEnvVars : gmap string string) (interval : Interval) (ctx : Context) :
  let result := CompileJobRunAssets pluginRepo engine job systemEnvVars interval ctx in
  match GetByName pluginRepo (TaskName job) with
  | inl err => result = inl err
  | inr taskPlugin =>
      match AssetsModOf taskPlugin with
      | None => result = Compile engine (Assets job) ctx
      | Some dependencyMod =>
          exists req,
            ReqStartTime req = Start interval /\ ReqEndTime req = End interval /\
            (forall name val,
               mkPluginConfig name val ∈ ReqConfig req <-> TaskConfig job !! name = Some val) /\
            (forall name val,
               mkPluginAsset name val ∈ ReqAssets req <-> Assets job !! name = Some val) /\
            (forall name val,
               mkJobRunSpecData name val typeEnv ∈ ReqInstanceData req
               <-> systemEnvVars !! name = Some val) /\
            match CompileAssets dependencyMod req with
            | inl err => result = inl err
            | inr compiled =>
                result = Compile engine (ToMap compiled) ctx /\
                (compiled = ReqAssets req -> result = Compile engine (Assets job) ctx)
            end
      end
  end.
Proof.
  intros result. subst result. unfold CompileJobRunAssets.
  destruct (GetByName pluginRepo (TaskName job)) as [err|taskPlugin]; [reflexivity|].
  destruct (AssetsModOf taskPlugin) as [dependencyMod|]; [|reflexivity].
  exists (compileAssetsRequest job systemEnvVars interval).
  cbn [compileAssetsRequest ReqStartTime ReqEndTime ReqConfig ReqAssets ReqInstanceData].
  unfold toPluginConfig, toPluginAssets, toJobRunSpecData.
  repeat split; try (intros H; apply map_to_list_image; eauto).
  - intros H. apply map_to_list_image in H as (k & v & H & [= -> ->]). exact H.
  - intros H. apply map_to_list_image in H as (k & v & H & [= -> ->]). exact H.
  - intros H. apply map_to_list_image in H as (k & v & H & [= -> ->]). exact H.
  - destruct (CompileAssets dependencyMod _) as [err|compiled] eqn:E; [reflexivity|].
    split; [reflexivity|]. intros ->. fold (toPluginAssets (Assets job)).
    rewrite ToMap_toPluginAssets. reflexivity.
Qed.

End AssetCompiler.

Section PluginService.

Import JobPluginService.

(** Every way [compileAsset] can end. *)
Lemma compileAsset_outcome engine taskPlugin spec GetInterval scheduledAt :
  let destination :=
    match DependencyModOf taskPlugin with
    | Some dm => GenerateDestination dm (TaskConfig spec) (Asset spec)
    | None => inr ""
    end in
  match destination with
  | inl err => compileAsset engine taskPlugin spec GetInterval scheduledAt = inl err
  | inr jobDestination =>
      match GetInterval scheduledAt with
      | inl err => compileAsset engine taskPlugin spec GetInterval scheduledAt = inl err
      | inr interval =>
          match Compile engine (Asset spec)
                  (assetContext interval scheduledAt jobDestination) with
          | inl err =>
              compileAsset engine taskPlugin spec GetInterval scheduledAt
              = inl (JobPluginMods.wrap "failed to compile templates" err)
          | inr templates =>
              compileAsset engine taskPlugin spec GetInterval scheduledAt = inr templates
          end
      end
  end.
Proof.
  unfold compileAsset. cbv zeta.
  destruct (match DependencyModOf taskPlugin with
            | Some dm => GenerateDestination dm (TaskConfig spec) (Asset spec)
            | None => inr ""
            end) as [err|jobDestination]; [reflexivity|].
  destruct (GetInterval scheduledAt) as [err|interval]; [reflexivity|].
  destruct (Compile engine (Asset spec) _) as [err|templates]; reflexivity.
Qed.

Lemma timestamp_round_trip time :
  representable time ->
  exists parsed,
    ParseRFC3339 (FormatRFC3339 time) = Some parsed /\
    Equal parsed (truncateToSecond time) = true /\
    (nsec time = 0 -> Equal parsed time = true).
Proof.
  intros (Hrange & Hmin & Hoff). eexists.
  split; [apply (Parse_Format time Hrange Hmin Hoff)|].
  split; [apply Equal_refl_instant; reflexivity|].
  intros Hn. apply Equal_refl_instant; [reflexivity|]. simpl. lia.
Qed.

(** X15.  What the engine is given when [compileAsset] succeeds: the
    window's interval for the schedule time was resolved, the destination is
    the dependency mod's (empty without a mod), and the assets were compiled
    under exactly four system variables.  [JOB_DESTINATION] is that
    destination, and [DSTART], [DEND] and [EXECUTION_TIME] are the
    RFC3339 texts of the interval's ends and of the schedule time.  The
    text of a time whose year, in its own zone, is 0 to 9999 and whose zone
    offset is a whole number of minutes below 25 hours parses back to that
    time at whole seconds (to the time itself when it has no sub-second
    part). *)
Theorem compileAsset_context_holds_parsable_times
    (engine : Engine) (taskPlugin : Plugin) (spec : Spec)
    (GetInterval : Time -> error + Interval) (scheduledAt : Time)
    (templates : gmap string string) :
  compileAsset engine taskPlugin spec GetInterval scheduledAt = inr templates ->
  exists interval jobDestination,
    GetInterval scheduledAt = inr interval /\
    match DependencyModOf taskPlugin with
    | Some dm => GenerateDestination dm (TaskConfig spec) (Asset spec) = inr jobDestination
    | None => jobDestination = ""
    end /\
    let ctx := assetContext interval scheduledAt jobDestination in
    Compile engine (Asset spec) ctx = inr templates /\
    dom ctx = ({[configKeyDstart; configKeyDend; configKeyExecutionTime;
                 configKeyDestination]} : gset string) /\
    ctx !! configKeyDestination = Some (CtxText jobDestination) /\
    forall key time,
      (key, time) ∈ [(configKeyDstart, Start interval); (configKeyDend, End interval);
                     (configKeyExecutionTime, scheduledAt)] ->
      ctx !! key = Some (CtxText (FormatRFC3339 time)) /\
      (representable time ->
       exists parsed,
         ParseRFC3339 (FormatRFC3339 time) = Some parsed /\
         Equal parsed (truncateToSecond time) = true /\
         (nsec time = 0 -> Equal parsed time = true)).
Proof.
  intros Hok.
  pose proof (compileAsset_outcome engine taskPlugin spec GetInterval scheduledAt) as H.
  cbv zeta in H. rewrite Hok in H.
  destruct (DependencyModOf taskPlugin) as [dm|] eqn:Hmod.
  - destruct (GenerateDestination dm (TaskConfig spec) (Asset spec)) as [e|dest] eqn:Hd;
      [discriminate|].
    destruct (GetInterval scheduledAt) as [e|interval]; [discriminate|].
    exists interval, dest. split; [reflexivity|]. split; [reflexivity|].
    destruct (Compile engine (Asset spec) _) as [e|t] eqn:Hc; [discriminate|].
    injection H as ->. cbv zeta. split; [exact Hc|]. split; [|split; [reflexivity|]].
    + unfold assetContext. rewrite !dom_insert_L, dom_empty_L.
      apply set_eq. intros k. rewrite !elem_of_union, !elem_of_singleton, elem_of_empty. tauto.
    + intros key time Hin. split; [|apply timestamp_round_trip].
      rewrite !elem_of_cons in Hin.
      destruct Hin as [[= -> ->]|[[= -> ->]|[[= -> ->]|Hin]]]; [reflexivity..|inversion Hin].
  - destruct (GetInterval scheduledAt) as [e|interval]; [discriminate|].
    exists interval, "". split; [reflexivity|]. split; [reflexivity|].
    destruct (Compile engine (Asset spec) _) as [e|t] eqn:Hc; [discriminate|].
    injection H as ->. cbv zeta. split; [exact Hc|]. split; [|split; [reflexivity|]].
    + unfold assetContext. rewrite !dom_insert_L, dom_empty_L.
      apply set_eq. intros k. rewrite !elem_of_union, !elem_of_singleton, elem_of_empty. tauto.
    + intros key time Hin. split; [|apply timestamp_round_trip].
      rewrite !elem_of_cons in Hin.
      destruct Hin as [[= -> ->]|[[= -> ->]|[[= -> ->]|Hin]]]; [reflexivity..|inversion Hin].
Qed.

Lemma compileAsset_context_holds_parsable_times_witness :
  compileAsset CompilerSamples.plainEngine (mkPlugin None) AssetSamples.spec
    (fun _ => inr AssetSamples.interval) CompilerSamples.wholeSecond
    = inr AssetSamples.assets /\
  exists parsed,
    ParseRFC3339 "2023-11-14T22:13:20Z" = Some parsed /\
    Equal parsed CompilerSamples.wholeSecond = true.
Proof.
  split; [reflexivity|].
  destruct (compileAsset_context_holds_parsable_times
              CompilerSamples.plainEngine (mkPlugin None) AssetSamples.spec
              (fun _ => inr AssetSamples.interval) CompilerSamples.wholeSecond
              AssetSamples.assets eq_refl)
    as (interval & dest & _ & _ & _ & _ & _ & Htimes).
  destruct (Htimes configKeyExecutionTime CompilerSamples.wholeSecond) as [_ Hback].
  - rewrite !elem_of_cons. right; right; left. reflexivity.
  - destruct Hback as (parsed & Hparse & _ & Hexact).
    + repeat split; vm_compute; congruence.
    + exists parsed. split; [exact Hparse|apply Hexact; reflexivity].
Defined.

End PluginService.

Section PluginMods.

Import JobPluginService JobPluginMods.

(** Take a hypothesis apart down to its equations, dropping the cases
    that equate different constructors. *)
Ltac crack :=
  repeat match goal with
    | H : _ \/ _ |- _ => destruct H as [H|H]
    | H : _ /\ _ |- _ => destruct H as [? H]
    | H : exists _, _ |- _ => destruct H as [? H]
    | H : inl _ = inr _ |- _ => discriminate H
    | H : inr _ = inl _ |- _ => discriminate H
    | H : Some _ = None |- _ => discriminate H
    | H : None = Some _ |- _ => discriminate H
    | H : inl ?a = inl ?b |- _ => first [is_var a; injection H as ->|is_var b; injection H as <-]
    | H : inr ?a = inr ?b |- _ => first [is_var a; injection H as ->|is_var b; injection H as <-]
    | H : Some ?a = Some ?b |- _ => first [is_var a; injection H as ->|is_var b; injection H as <-]
    end.

(** X16.  The outcomes of [GenerateUpstreams], in the order it checks.  It
    fails with [err] exactly in one of these cases, each reached only when
    every earlier step went through: the plugin lookup fails with [err];
    the plugin has no dependency mod and [err] is the named error; the
    window fails with [err]; the mod's destination fails, or the interval
    of the window at the service's clock fails, and [err] is that failure
    wrapped as [asset compilation failure]; the engine fails on the assets
    under that interval and destination, and [err] is its failure wrapped
    as [failed to compile templates] and once more as
    [asset compilation failure]; the mod's dependencies fail with [err].
    It succeeds exactly when every step does, and the upstreams are then
    the dependencies the mod answered for the compiled configs, the
    compiled assets and the caller's dry-run flag. *)
Theorem GenerateUpstreams_outcome {I}
    (GetByName : string -> error + TaskPlugin I) (engine : Engine) (now : Time)
    (getWindow : error + (Time -> error + Interval))
    (jobTenant : TenantWithDetails) (taskName : string) (spec : Spec) (dryRun : bool) :
  let result :=
    GenerateUpstreams GetByName engine now getWindow jobTenant taskName spec dryRun in
  let destinationOf dependencyMod :=
    JobPluginService.GenerateDestination (destinationMod dependencyMod)
      (TaskConfig spec) (Asset spec) in
  let compiledConfigs := compileConfig engine (TaskConfig spec) jobTenant in
  (forall err, result = inl err <->
     GetByName taskName = inl err \/
     (exists taskPlugin,
        GetByName taskName = inr taskPlugin /\
        UpstreamModOf taskPlugin = None /\ err = ErrUpstreamModNotFound) \/
     (exists taskPlugin dependencyMod,
        GetByName taskName = inr taskPlugin /\
        UpstreamModOf taskPlugin = Some dependencyMod /\
        (getWindow = inl err \/
         exists w,
           getWindow = inr w /\
           ((exists cause,
               destinationOf dependencyMod = inl cause /\
               err = wrap "asset compilation failure" cause) \/
            exists jobDestination,
              destinationOf dependencyMod = inr jobDestination /\
              ((exists cause,
                  w now = inl cause /\ err = wrap "asset compilation failure" cause) \/
               exists interval,
                 w now = inr interval /\
                 ((exists cause,
                     Compile engine (Asset spec) (assetContext interval now jobDestination)
                       = inl cause /\
                     err = wrap "asset compilation failure"
                             (wrap "failed to compile templates" cause)) \/
                  exists assets,
                    Compile engine (Asset spec) (assetContext interval now jobDestination)
                      = inr assets /\
                    GenerateDependencies dependencyMod compiledConfigs assets dryRun
                      = inl err))))))
  /\
  (forall upstreams, result = inr upstreams <->
     exists taskPlugin dependencyMod w jobDestination interval assets,
       GetByName taskName = inr taskPlugin /\
       UpstreamModOf taskPlugin = Some dependencyMod /\
       getWindow = inr w /\
       destinationOf dependencyMod = inr jobDestination /\
       w now = inr interval /\
       Compile engine (Asset spec) (assetContext interval now jobDestination) = inr assets /\
       GenerateDependencies dependencyMod compiledConfigs assets dryRun = inr upstreams).
Proof.
  intros result destinationOf compiledConfigs. subst result.
  unfold GenerateUpstreams, compileAsset, pluginOf. cbn [DependencyModOf].
  fold compiledConfigs.
  destruct (GetByName taskName) as [e0|taskPlugin] eqn:Hrepo.
  { split; intros x; (split; [intros [= <-]; auto|intros H; crack; subst; first [reflexivity|congruence]]). }
  destruct (UpstreamModOf taskPlugin) as [dependencyMod|] eqn:Hmod.
  2:{ split; intros x; (split; [intros [= <-]|intros H; crack; subst; first [reflexivity|congruence]]).
      right; left. exists taskPlugin. auto. }
  cbn [fmap option_fmap option_map]. subst destinationOf. cbv beta.
  assert (forall P : TaskPlugin I -> UpstreamMod -> Prop,
            P taskPlugin dependencyMod ->
            exists p m, @inr error _ taskPlugin = inr p /\ UpstreamModOf p = Some m /\ P p m)
    as Hfound by (intros P H; exists taskPlugin, dependencyMod; auto).
  destruct getWindow as [e1|w] eqn:Hwin.
  { split; intros x; (split; [intros [= <-]|intros H; crack; subst; first [reflexivity|congruence]]).
    right; right. apply Hfound. left. first [reflexivity|assumption]. }
  destruct (JobPluginService.GenerateDestination (destinationMod dependencyMod)
              (TaskConfig spec) (Asset spec)) as [e1|jobDestination] eqn:Hdest.
  { split; intros x; (split; [intros [= <-]|intros H; crack; subst; first [reflexivity|congruence]]).
    right; right. apply Hfound. right. exists w. split; [first [reflexivity|assumption]|]. left. eauto. }
  destruct (w now) as [e1|interval] eqn:Hnow.
  { split; intros x; (split; [intros [= <-]|intros H; crack; subst; first [reflexivity|congruence]]).
    right; right. apply Hfound. right. exists w. split; [first [reflexivity|assumption]|]. right.
    exists jobDestination. split; [first [reflexivity|assumption]|]. left. eauto. }
  destruct (Compile engine (Asset spec) (assetContext interval now jobDestination))
    as [e1|assets] eqn:Hcompile.
  { change (NewError ("failed to compile templates: " ++ Error e1))
      with (wrap "failed to compile templates" e1).
    split; intros x; (split; [intros [= <-]|intros H; crack; subst; first [reflexivity|congruence]]).
    right; right. apply Hfound. right. exists w. split; [first [reflexivity|assumption]|]. right.
    exists jobDestination. split; [first [reflexivity|assumption]|]. right.
    exists interval. split; [first [reflexivity|assumption]|]. left. eauto. }
  destruct (GenerateDependencies dependencyMod compiledConfigs assets dryRun)
    as [e1|upstreams0] eqn:Hdeps.
  - split; intros x; (split; [intros [= <-]|intros H; crack; subst; first [reflexivity|congruence]]).
    right; right. apply Hfound. right. exists w. split; [first [reflexivity|assumption]|]. right.
    exists jobDestination. split; [first [reflexivity|assumption]|]. right.
    exists interval. split; [first [reflexivity|assumption]|]. right. exists assets. auto.
  - split; intros x; (split; [intros [= <-]|intros H; crack; subst; first [reflexivity|congruence]]).
    exists taskPlugin, dependencyMod, w, jobDestination, interval, assets. auto 10.
Qed.

Lemma GenerateUpstreams_outcome_witness :
  exists taskPlugin dependencyMod w jobDestination interval assets,
    AssetSamples.lookup "bq2bq" = inr taskPlugin /\
    UpstreamModOf taskPlugin = Some dependencyMod /\
    AssetSamples.window = inr w /\
    JobPluginService.GenerateDestination (destinationMod dependencyMod)
      (TaskConfig AssetSamples.spec) (Asset AssetSamples.spec) = inr jobDestination /\
    w CompilerSamples.wholeSecond = inr interval /\
    Compile CompilerSamples.strictEngine (Asset AssetSamples.spec)
      (assetContext interval CompilerSamples.wholeSecond jobDestination) = inr assets /\
    GenerateDependencies dependencyMod
      (compileConfig CompilerSamples.strictEngine (TaskConfig AssetSamples.spec)
         CompilerSamples.tenantDetails) assets true
    = inr ["bigquery://proj.dataset.upstream"].
Proof.
  exact (proj1 (proj2 (GenerateUpstreams_outcome AssetSamples.lookup
                         CompilerSamples.strictEngine CompilerSamples.wholeSecond
                         AssetSamples.window CompilerSamples.tenantDetails "bq2bq"
                         AssetSamples.spec true)
                  ["bigquery://proj.dataset.upstream"]) eq_refl).
Defined.

(** X17.  A missing capability is a named error, found before anything
    else is done: [Info] answers [yaml mod not found for plugin] exactly
    when the plugin was found without a yaml mod, and the plugin's info
    otherwise; [GenerateDestination] and [GenerateUpstreams] answer
    [upstream mod not found for plugin] for a plugin without a dependency
    mod, whatever the engine, the clock, the window, the tenant and the
    configs are. *)
Theorem missing_capability_is_named_error {I}
    (GetByName : string -> error + TaskPlugin I) (taskName : string)
    (taskPlugin : TaskPlugin I) :
  GetByName taskName = inr taskPlugin ->
  (Info GetByName taskName = inl ErrYamlModNotExist <-> YamlModOf taskPlugin = None) /\
  (forall yamlMod, YamlModOf taskPlugin = Some yamlMod ->
     Info GetByName taskName = inr (PluginInfo yamlMod)) /\
  (UpstreamModOf taskPlugin = None ->
   (forall engine tnnt taskConfig,
      GenerateDestination GetByName engine tnnt taskName taskConfig
      = inl ErrUpstreamModNotFound) /\
   (forall engine now getWindow jobTenant spec dryRun,
      GenerateUpstreams GetByName engine now getWindow jobTenant taskName spec dryRun
      = inl ErrUpstreamModNotFound)).
Proof.
  intros Hrepo. unfold Info, GenerateDestination, GenerateUpstreams. rewrite Hrepo.
  repeat split.
  - destruct (YamlModOf taskPlugin); [discriminate|reflexivity].
  - intros ->. reflexivity.
  - intros yamlMod ->. reflexivity.
  - rewrite H. reflexivity.
  - rewrite H. reflexivity.
Qed.

Lemma missing_capability_is_named_error_witness :
  Info AssetSamples.lookup "bare" = inl ErrYamlModNotExist /\
  GenerateUpstreams AssetSamples.lookup CompilerSamples.plainEngine CompilerSamples.wholeSecond
    (inl (NewError "window is not configured")) CompilerSamples.tenantDetails "bare"
    AssetSamples.spec false
  = inl ErrUpstreamModNotFound.
Proof.
  destruct (missing_capability_is_named_error AssetSamples.lookup "bare"
              (mkTaskPlugin None None) eq_refl) as (Hinfo & _ & Hup).
  split; [apply Hinfo; reflexivity|apply Hup; reflexivity].
Defined.

Lemma compileEntry_refused engine ctx entry :
  (forall val, exists err, CompileString engine val ctx = inl err) ->
  compileEntry engine ctx entry = mkPluginConfig (fst entry) (snd entry).
Proof.
  intros H. destruct entry as [key val]. unfold compileEntry.
  destruct (H val) as [err ->]. reflexivity.
Qed.

(** X18.  [GenerateDestination] of the service fails only through its
    collaborators: with the plugin lookup's error as it is, with the named
    error for a plugin without a dependency mod, or with the mod's error
    wrapped as [failed to generate destination]; no template of the task
    config can make it fail.  The mod is asked with one config per key of
    the task config, under the key's name; and when the engine refuses every
    template, with the task config as it is. *)
Theorem GenerateDestination_fails_only_through_collaborators {I}
    (GetByName : string -> error + TaskPlugin I) (engine : Engine)
    (tnnt : TenantWithDetails) (taskName : string) (taskConfig : gmap string string) :
  let result := GenerateDestination GetByName engine tnnt taskName taskConfig in
  let compiledConfig := compileConfig engine taskConfig tnnt in
  (forall err, result = inl err ->
     GetByName taskName = inl err \/
     (exists taskPlugin, GetByName taskName = inr taskPlugin /\
        UpstreamModOf taskPlugin = None /\ err = ErrUpstreamModNotFound) \/
     (exists taskPlugin dependencyMod cause,
        GetByName taskName = inr taskPlugin /\
        UpstreamModOf taskPlugin = Some dependencyMod /\
        GenerateDestinationURN dependencyMod compiledConfig = inl cause /\
        err = wrap "failed to generate destination" cause)) /\
  (forall urn, result = inr urn ->
     exists taskPlugin dependencyMod,
       GetByName taskName = inr taskPlugin /\
       UpstreamModOf taskPlugin = Some dependencyMod /\
       GenerateDestinationURN dependencyMod compiledConfig = inr urn) /\
  map Name compiledConfig = map fst (map_to_list taskConfig) /\
  NoDup (map Name compiledConfig) /\
  ((forall val, exists err, CompileString engine val (tenantContext tnnt) = inl err) ->
   compiledConfig = JobRunAssetsCompiler.toPluginConfig taskConfig).
Proof.
  intros result compiledConfig. subst result. unfold GenerateDestination.
  fold compiledConfig.
  assert (map Name compiledConfig = map fst (map_to_list taskConfig)) as Hnames.
  { unfold compiledConfig, compileConfig. rewrite map_map. apply map_ext.
    intros [key val]. reflexivity. }
  split; [|split; [|split; [exact Hnames|split]]].
  - intros err. destruct (GetByName taskName) as [e0|taskPlugin]; [intros [= <-]; auto|].
    destruct (UpstreamModOf taskPlugin) as [dependencyMod|] eqn:Hmod.
    + destruct (GenerateDestinationURN dependencyMod compiledConfig) as [cause|urn] eqn:Hd;
        [|discriminate].
      intros [= <-]. right; right. exists taskPlugin, dependencyMod, cause. auto.
    + intros [= <-]. right; left. exists taskPlugin. auto.
  - intros urn. destruct (GetByName taskName) as [e0|taskPlugin]; [discriminate|].
    destruct (UpstreamModOf taskPlugin) as [dependencyMod|] eqn:Hmod; [|discriminate].
    destruct (GenerateDestinationURN dependencyMod compiledConfig) as [cause|urn'] eqn:Hd;
      [discriminate|].
    intros [= <-]. exists taskPlugin, dependencyMod. auto.
  - rewrite Hnames. apply NoDup_fst_map_to_list.
  - intros Hrefuse. unfold compiledConfig, compileConfig, JobRunAssetsCompiler.toPluginConfig.
    apply map_ext. intros [key val]. apply (compileEntry_refused _ _ (key, val) Hrefuse).
Qed.

Lemma GenerateDestination_fails_only_through_collaborators_witness :
  exists taskPlugin dependencyMod cause,
    AssetSamples.lookup "bq2bq" = inr taskPlugin /\
    UpstreamModOf taskPlugin = Some dependencyMod /\
    GenerateDestinationURN dependencyMod
      (compileConfig CompilerSamples.strictEngine (TaskConfig AssetSamples.spec)
         CompilerSamples.tenantDetails) = inl cause /\
    NewError "failed to generate destination: dataset is not set"
    = wrap "failed to generate destination" cause.
Proof.
  destruct (proj1 (GenerateDestination_fails_only_through_collaborators
                     AssetSamples.lookup CompilerSamples.strictEngine
                     CompilerSamples.tenantDetails "bq2bq" (TaskConfig AssetSamples.spec))
              (NewError "failed to generate destination: dataset is not set") eq_refl)
    as [H|[(p & _ & _ & H)|H]].
  - discriminate H.
  - discriminate H.
  - exact H.
Defined.

End PluginMods.
